(** * The meta store of a clustered database: a shallow embedding

    The development follows three Go source files:
    - [services/meta/store.go]  (the [store] type and its methods),
    - [services/meta/service.go] (the [Service] wrapper),
    - the [influxdb] package file that declares [Node] and [Node.Save].

    Go code that mutates objects through pointers is modelled by explicit
    state passing over a [World]: a heap of channels, a heap of metadata
    documents with the backing arrays of their slices, a heap of [store]
    objects, a wall clock and a trace of the externally visible events.
    Go's [panic] and a goroutine that stays blocked are outcomes of a
    computation, next to a normal return. *)

From Stdlib Require Import ZArith List Lia Ascii String.
From stdpp Require Import gmap strings list.

Local Open Scope string_scope.
Local Open Scope Z_scope.
Local Open Scope list_scope.

(** ** Go runtime: outcomes, errors, the state monad *)

Module Go.

Definition loc := positive.

(** A Go [error] value.  [errors.New] and [fmt.Errorf] build an
    [errorString]; [ErrStoreOpen] is the package-level sentinel that
    [store.open] returns (it is declared outside the three files);
    [PathError] is what package [os] returns for a failed operation on a
    path. *)
Inductive error : Type :=
| ErrStoreOpen
| errorString (msg : string)
| PathError (op path : string).

Global Instance error_eq_dec : EqDecision error.
Proof. solve_decision. Defined.

(** How a call ends: it returns, it panics, or the goroutine is still
    blocked (on a [select], on a mutex, in an endless retry). *)
Inductive outcome (A : Type) : Type :=
| Ret (a : A)
| Panic (msg : string)
| Blocked.
Arguments Ret {A} a.
Arguments Panic {A} msg.
Arguments Blocked {A}.

(** [time.Duration] and instants are counted in nanoseconds. *)
Definition Nanosecond : Z := 1.
Definition Millisecond : Z := 1000000 * Nanosecond.
Definition Second : Z := 1000 * Millisecond.

(** A [net.Listener] as the store sees it: [Addr()] is [nil] until a
    collaborator has bound the listener, so its value depends on the
    instant at which it is asked. *)
Record Listener : Type := { Addr : Z -> option string }.

End Go.
Export Go.

(** ** [path/filepath] on a Unix system *)

Module filepath.

(** The elements of a path between its separators. *)
Fixpoint elements (p : string) : list string :=
  match p with
  | EmptyString => [EmptyString]
  | String c rest =>
      if Ascii.eqb c "/"%char
      then EmptyString :: elements rest
      else match elements rest with
           | [] => [String c EmptyString]
           | e :: es => String c e :: es
           end
  end.

Definition rooted (p : string) : bool :=
  match p with
  | String c _ => Ascii.eqb c "/"%char
  | EmptyString => false
  end.

(** One element of the path against the elements kept so far (the last
    kept element first): empty and [.] elements vanish, [..] removes the
    element before it, stays at the front of a relative path and vanishes
    at the root. *)
Definition clean_step (root : bool) (kept : list string) (e : string)
  : list string :=
  if String.eqb e "" then kept
  else if String.eqb e "." then kept
  else if String.eqb e ".."
  then match kept with
       | top :: below =>
           if String.eqb top ".."
           then (if root then kept else ".." :: kept)
           else below
       | [] => if root then [] else [".."]
       end
  else e :: kept.

(** [filepath.Clean]. *)
Definition Clean (p : string) : string :=
  if String.eqb p "" then "."
  else
    let kept := fold_left (clean_step (rooted p)) (elements p) [] in
    let body := String.concat "/" (rev kept) in
    let out := if rooted p then "/" +:+ body else body in
    if String.eqb out "" then "." else out.

(** [filepath.Join]: leading empty elements are dropped, the rest is
    joined by separators and cleaned. *)
Fixpoint Join (elem : list string) : string :=
  match elem with
  | [] => ""
  | e :: rest =>
      if String.eqb e "" then Join rest
      else Clean (String.concat "/" elem)
  end.

End filepath.

(** ** Package [influxdb]: the node file *)

Module influxdb.

Definition nodeFile : string := "node.json".

Record Node : Type := {
  path : string;
  ID : Z;
  MetaServers : list string;
}.

(** The file system: what exists under each (clean) path. *)
Inductive entry : Type :=
| RegularFile (content : string)
| Directory.

Inductive open_flag : Type := O_RDONLY | O_WRONLY | O_RDWR.

(** An [*os.File]: the path it was opened on and the access mode. *)
Record File : Type := {
  name : string;
  flag : open_flag;
}.

Inductive fs_event : Type :=
| FsOpen (name : string) (flag : open_flag)
| FsWrite (name : string) (bytes : string)
| FsClose (name : string).

Record FS : Type := {
  entries : gmap string entry;
  calls : list fs_event;
}.

Definition log_call (e : fs_event) (fs : FS) : FS :=
  {| entries := entries fs; calls := calls fs ++ [e] |}.

(** [os.Open]: opens the named file for reading; a path that does not
    exist is an error, and nothing is created. *)
Definition os_Open (nm : string) (fs : FS) : (File + error) * FS :=
  let fs1 := log_call (FsOpen nm O_RDONLY) fs in
  match entries fs !! nm with
  | Some _ => (inl {| name := nm; flag := O_RDONLY |}, fs1)
  | None => (inr (PathError "open" nm), fs1)
  end.

(** [f.Write]: fails on a descriptor opened for reading and on a
    directory; otherwise the bytes are appended at the file's offset
    (a fresh descriptor starts at 0 and overwrites from there). *)
Definition overwrite (old new : string) : string :=
  new +:+ String.substring (String.length new)
            (String.length old - String.length new)%nat old.

Definition File_Write (f : File) (bytes : string) (fs : FS)
  : option error * FS :=
  match flag f with
  | O_RDONLY => (Some (PathError "write" (name f)), fs)
  | _ =>
      match entries fs !! name f with
      | Some (RegularFile old) =>
          (None,
            log_call (FsWrite (name f) bytes)
              {| entries := <[name f := RegularFile (overwrite old bytes)]>
                              (entries fs);
                 calls := calls fs |})
      | _ => (Some (PathError "write" (name f)), fs)
      end
  end.

Definition File_Close (f : File) (fs : FS) : FS :=
  log_call (FsClose (name f)) fs.

Section WithJSON.

(** [encoding/json]'s rendering of a [Node] (its exported fields). *)
Variable marshal : Node -> string.

(** [json.NewEncoder(f).Encode(n)]: one write of the rendering and a
    newline. *)
Definition Encode (f : File) (n : Node) (fs : FS) : option error * FS :=
  File_Write f (marshal n +:+ String "010"%char EmptyString) fs.

Definition tmpFile (n : Node) : string :=
  filepath.Join [path n; nodeFile; "tmp"].

(** [Node.Save]. *)
Definition Save (n : Node) (fs : FS) : option error * FS :=
  match os_Open (tmpFile n) fs with
  | (inr err, fs1) => (Some err, fs1)
  | (inl f, fs1) =>
      let (err, fs2) := Encode f n fs1 in
      (err, File_Close f fs2)
  end.

End WithJSON.

(** [os.IsNotExist].  In this file system an open fails only on a path
    that does not exist, so the failed opens are the errors it accepts. *)
Definition os_IsNotExist (e : error) : bool :=
  match e with
  | PathError op _ => String.eqb op "open"
  | _ => false
  end.

(** [os.ErrInvalid]: what the methods of a nil [*os.File] return. *)
Definition ErrInvalid : error := errorString "invalid argument".

(** [f.Read] to the end of the file: the nil file is invalid, a directory
    cannot be read. *)
Definition File_Read (f : option File) (fs : FS) : string + error :=
  match f with
  | None => inr ErrInvalid
  | Some f =>
      match entries fs !! name f with
      | Some (RegularFile content) => inl content
      | _ => inr (PathError "read" (name f))
      end
  end.

(** [f.Close()] as the deferred call of [NewNode] runs it: on the nil file
    it returns [ErrInvalid] (which the [defer] drops) and calls nothing. *)
Definition File_Close_deferred (f : option File) (fs : FS) : FS :=
  match f with
  | Some f => File_Close f fs
  | None => fs
  end.

Section WithDecoder.

(** [encoding/json]'s decoding of a document into the exported fields of a
    [Node] ([ID] and [MetaServers], given with their current values); the
    unexported [path] is out of its reach. *)
Variable unmarshal : string -> Z * list string -> Z * list string + error.

(** [json.NewDecoder(f).Decode(n)]. *)
Definition Decode (f : option File) (n : Node) (fs : FS) : Node + error :=
  match File_Read f fs with
  | inr err => inr err
  | inl content =>
      match unmarshal content (ID n, MetaServers n) with
      | inr err => inr err
      | inl (id, servers) =>
          inl {| path := path n; ID := id; MetaServers := servers |}
      end
  end.

(** [NewNode]: an open that fails for another reason than a missing file
    is returned; otherwise the file, nil when it is missing, is decoded. *)
Definition NewNode (dir : string) (fs : FS) : (Node + error) * FS :=
  let n := {| path := dir; ID := 0; MetaServers := [] |} in
  let (r, fs1) := os_Open (filepath.Join [dir; nodeFile]) fs in
  let (f, err) := match r with
                  | inl f => (Some f, None)
                  | inr e => (None, Some e)
                  end in
  match err with
  | Some e =>
      if negb (os_IsNotExist e)
      then (inr e, fs1)
      else (Decode f n fs1, File_Close_deferred f fs1)
  | None => (Decode f n fs1, File_Close_deferred f fs1)
  end.

End WithDecoder.

End influxdb.

(** ** The metadata document *)

Module Meta.

(** Modelled from the spec: the element type of [Data.MetaNodes] is declared
    outside the three files; the spec names a member's advertised HTTP
    address and its consensus-transport address, and [joinCluster] reads the
    field [TCPHost]. *)
Record NodeInfo : Type := {
  ID : Z;
  Host : string;
  TCPHost : string;
}.

(** Modelled from the spec: the [Data] struct is declared outside the three
    files.  The store reads [Index] (a [uint64]) and [MetaNodes] (a slice,
    held here as a reference to its backing array, [None] for the nil
    slice). *)
Record Data : Type := {
  Index : Z;
  MetaNodes : option loc;
}.

(** Modelled from the spec: the fields of [Config] that the three files
    read. *)
Record Config : Type := {
  Dir : string;
  BindAddress : string;
  HTTPBindAddress : string;
  HTTPSEnabled : bool;
  HTTPSCertificate : string;
  LoggingEnabled : bool;
  JoinPeers : list string;
}.

(** [log.Logger]: where it writes, its prefix and its flags. *)
Inductive writer : Type := Stderr | Discard.
Record Logger : Type := {
  out : writer;
  prefix : string;
  flags : Z;
}.
Definition LstdFlags : Z := 3.
Definition log_New (o : writer) (p : string) (f : Z) : Logger :=
  {| out := o; prefix := p; flags := f |}.

(** [sync.RWMutex]: one writer or any number of readers. *)
Record RWMutex : Type := {
  writer_held : bool;
  readers : nat;
}.
Definition unlocked : RWMutex := {| writer_held := false; readers := 0 |}.

(** Modelled from the spec: [raftState] wraps the consensus module and is
    declared outside the three files; [openRaft] sets its logger and path. *)
Record raftStateT : Type := {
  rs_config : Config;
  rs_logger : Logger;
  rs_path : string;
}.

(** What the consensus module reports when asked: [raft.Leader()] and
    [raft.State()].  It changes on its own, between two steps of the
    store. *)
Inductive RaftRole : Type := Follower | Candidate | Leader | Shutdown.
Global Instance RaftRole_eq_dec : EqDecision RaftRole.
Proof. solve_decision. Defined.
Record RaftView : Type := {
  raft_Leader : string;
  raft_State : RaftRole;
}.

Record authUser : Type := {
  salt : list Byte.byte;
  hash : list Byte.byte;
}.

(** The [store] struct, field by field. *)
Record store : Type := {
  mu : RWMutex;
  closing : loc;
  config : Config;
  data : loc;
  raftState : option raftStateT;
  dataChanged : loc;
  path : string;
  opened : bool;
  logger : Logger;
  authCache : option (gmap string authUser);
}.

(** What a [select] in [waitForLeader] receives: the closing signal, the
    timer's single expiry, or a tick of the 100 ms ticker, at which the
    consensus module reports [view]. *)
Inductive wake : Type :=
| WClosing
| WTimer
| WTicker (view : RaftView).

(** Externally visible events, in the order they happen. *)
Inductive event : Type :=
| EvLock | EvUnlock | EvRLock | EvRUnlock
| EvLog (line : string)
| EvAddr (at_ : Z) (addr : option string)
| EvSleep (d : Z)
| EvCreateMetaNode (servers : list string) (https : bool) (httpAddr raftAddr : string)
| EvRetryUntilSnapshot
| EvMkdirAll (dir : string)
| EvRaftOpen (peers : list string)
| EvChanClose (c : loc)
| EvClone (src dst : loc)
| EvCommit
| EvListenerClose.

Global Instance event_eq_dec : EqDecision event.
Proof. solve_decision. Defined.

(** The collaborators of the store that live outside the three files, by
    what they answer: the join client, [os.MkdirAll], the consensus
    module's own [open], and its answer to a submitted command together
    with the mutation that the command encodes. *)
Record Env : Type := {
  CreateMetaNode_result : list string -> bool -> string -> string -> option error;
  retryUntilSnapshot_result : list string -> bool -> option (Z * option (list NodeInfo));
  MkdirAll_result : string -> option string;
  raft_open_result : list string -> option string;
  raft_submit_result : list Byte.byte -> option error;
  decode : list Byte.byte -> list NodeInfo -> list NodeInfo;
}.

(** The state that the calls pass along: the clock, the heaps of channels
    (closed or not), documents, backing arrays and stores, the consensus
    module's current report, the wake-ups that the next [select]s will
    receive, and the events so far. *)
Record World : Type := {
  now : Z;
  chans : gmap loc bool;
  datas : gmap loc Data;
  arrays : gmap loc (list NodeInfo);
  stores : gmap loc store;
  raft : RaftView;
  sched : list wake;
  trace : list event;
}.

Definition M (A : Type) : Type := World -> outcome A * World.

Definition ret {A} (a : A) : M A := fun w => (Ret a, w).
Definition bind {A B} (m : M A) (k : A -> M B) : M B :=
  fun w =>
    match m w with
    | (Ret a, w1) => k a w1
    | (Panic msg, w1) => (Panic msg, w1)
    | (Blocked, w1) => (Blocked, w1)
    end.
Definition panic {A} (msg : string) : M A := fun w => (Panic msg, w).
Definition block {A} : M A := fun w => (Blocked, w).

(** [defer cleanup] before [body]: the cleanup runs when the body returns
    and when it panics, and the body's outcome stands. *)
Definition defer {A} (cleanup : M unit) (body : M A) : M A :=
  fun w =>
    match body w with
    | (Blocked, w1) => (Blocked, w1)
    | (r, w1) =>
        match cleanup w1 with
        | (Ret _, w2) => (r, w2)
        | (Panic msg, w2) => (Panic msg, w2)
        | (Blocked, w2) => (Blocked, w2)
        end
    end.

Declare Scope go_scope.
Delimit Scope go_scope with go.
Notation "x <- c1 ;; c2" := (bind c1 (fun x => c2))
  (at level 100, c1 at next level, right associativity) : go_scope.
Notation "c1 ;;; c2" := (bind c1 (fun _ => c2))
  (at level 100, right associativity) : go_scope.
Local Open Scope go_scope.

Definition get : M World := fun w => (Ret w, w).

Definition set_now (t : Z) (w : World) : World :=
  {| now := t; chans := chans w; datas := datas w; arrays := arrays w;
     stores := stores w; raft := raft w; sched := sched w; trace := trace w |}.
Definition set_chans (c : gmap loc bool) (w : World) : World :=
  {| now := now w; chans := c; datas := datas w; arrays := arrays w;
     stores := stores w; raft := raft w; sched := sched w; trace := trace w |}.
Definition set_datas (d : gmap loc Data) (w : World) : World :=
  {| now := now w; chans := chans w; datas := d; arrays := arrays w;
     stores := stores w; raft := raft w; sched := sched w; trace := trace w |}.
Definition set_arrays (a : gmap loc (list NodeInfo)) (w : World) : World :=
  {| now := now w; chans := chans w; datas := datas w; arrays := a;
     stores := stores w; raft := raft w; sched := sched w; trace := trace w |}.
Definition set_stores (s : gmap loc store) (w : World) : World :=
  {| now := now w; chans := chans w; datas := datas w; arrays := arrays w;
     stores := s; raft := raft w; sched := sched w; trace := trace w |}.
Definition set_raft (v : RaftView) (w : World) : World :=
  {| now := now w; chans := chans w; datas := datas w; arrays := arrays w;
     stores := stores w; raft := v; sched := sched w; trace := trace w |}.
Definition set_sched (ws : list wake) (w : World) : World :=
  {| now := now w; chans := chans w; datas := datas w; arrays := arrays w;
     stores := stores w; raft := raft w; sched := ws; trace := trace w |}.
Definition set_trace (t : list event) (w : World) : World :=
  {| now := now w; chans := chans w; datas := datas w; arrays := arrays w;
     stores := stores w; raft := raft w; sched := sched w; trace := t |}.

Definition emit (e : event) : M unit :=
  fun w => (Ret tt, set_trace (trace w ++ [e]) w).

(** *** Channels of type [chan struct{}] that are only ever closed *)

(** [make(chan struct{})]: a fresh, open channel. *)
Definition make_chan : M loc :=
  fun w =>
    let c := fresh (dom (chans w)) in
    (Ret c, set_chans (<[c := false]> (chans w)) w).

(** [close(c)]: closing a closed (or nil) channel panics. *)
Definition close_chan (c : loc) : M unit :=
  fun w =>
    match chans w !! c with
    | Some false =>
        (Ret tt, set_trace (trace w ++ [EvChanClose c])
                   (set_chans (<[c := true]> (chans w)) w))
    | Some true => (Panic "close of closed channel", w)
    | None => (Panic "close of nil channel", w)
    end.

(** A receive from the channel does not block: the channel is closed. *)
Definition signaled (w : World) (c : loc) : bool :=
  match chans w !! c with
  | Some b => b
  | None => false
  end.

(** *** Pointers to [store] and [Data] *)

Definition nil_deref : string :=
  "invalid memory address or nil pointer dereference".

Definition load_store (s : loc) : M store :=
  fun w =>
    match stores w !! s with
    | Some st => (Ret st, w)
    | None => (Panic nil_deref, w)
    end.

Definition update_store (s : loc) (f : store -> store) : M unit :=
  fun w =>
    match stores w !! s with
    | Some st => (Ret tt, set_stores (<[s := f st]> (stores w)) w)
    | None => (Panic nil_deref, w)
    end.

Definition alloc_store (st : store) : M loc :=
  fun w =>
    let s := fresh (dom (stores w)) in
    (Ret s, set_stores (<[s := st]> (stores w)) w).

Definition load_data (p : loc) : M Data :=
  fun w =>
    match datas w !! p with
    | Some d => (Ret d, w)
    | None => (Panic nil_deref, w)
    end.

Definition alloc_data (d : Data) : M loc :=
  fun w =>
    let p := fresh (dom (datas w)) in
    (Ret p, set_datas (<[p := d]> (datas w)) w).

Definition alloc_array (l : list NodeInfo) : M loc :=
  fun w =>
    let a := fresh (dom (arrays w)) in
    (Ret a, set_arrays (<[a := l]> (arrays w)) w).

(** The elements of a slice; the nil slice has none. *)
Definition load_slice (sl : option loc) : M (list NodeInfo) :=
  fun w =>
    match sl with
    | None => (Ret [], w)
    | Some a =>
        match arrays w !! a with
        | Some l => (Ret l, w)
        | None => (Panic nil_deref, w)
        end
    end.

(** *** The store's mutex *)

Definition set_mu (m : RWMutex) (st : store) : store :=
  {| mu := m; closing := closing st; config := config st; data := data st;
     raftState := raftState st; dataChanged := dataChanged st;
     path := path st; opened := opened st; logger := logger st;
     authCache := authCache st |}.
Definition set_opened (b : bool) (st : store) : store :=
  {| mu := mu st; closing := closing st; config := config st; data := data st;
     raftState := raftState st; dataChanged := dataChanged st;
     path := path st; opened := b; logger := logger st;
     authCache := authCache st |}.
Definition set_raftState (r : option raftStateT) (st : store) : store :=
  {| mu := mu st; closing := closing st; config := config st; data := data st;
     raftState := r; dataChanged := dataChanged st;
     path := path st; opened := opened st; logger := logger st;
     authCache := authCache st |}.
Definition set_dataChanged (c : loc) (st : store) : store :=
  {| mu := mu st; closing := closing st; config := config st; data := data st;
     raftState := raftState st; dataChanged := c;
     path := path st; opened := opened st; logger := logger st;
     authCache := authCache st |}.

Definition mu_free (m : RWMutex) : bool :=
  negb (writer_held m) && Nat.eqb (readers m) 0.

(** [s.mu.Lock()]: waits while anybody holds the mutex. *)
Definition Lock (s : loc) : M unit :=
  st <- load_store s ;;
  if mu_free (mu st)
  then update_store s (set_mu {| writer_held := true; readers := 0 |}) ;;;
       emit EvLock
  else block.

(** [s.mu.Unlock()]: a fatal error when the mutex is not write-locked. *)
Definition Unlock (s : loc) : M unit :=
  st <- load_store s ;;
  if writer_held (mu st)
  then update_store s (set_mu {| writer_held := false; readers := readers (mu st) |}) ;;;
       emit EvUnlock
  else panic "sync: Unlock of unlocked RWMutex".

(** [s.mu.RLock()]: waits while a writer holds the mutex. *)
Definition RLock (s : loc) : M unit :=
  st <- load_store s ;;
  if writer_held (mu st)
  then block
  else update_store s (set_mu {| writer_held := false; readers := S (readers (mu st)) |}) ;;;
       emit EvRLock.

Definition RUnlock (s : loc) : M unit :=
  st <- load_store s ;;
  match readers (mu st) with
  | O => panic "sync: RUnlock of unlocked RWMutex"
  | S n =>
      update_store s (set_mu {| writer_held := writer_held (mu st); readers := n |}) ;;;
      emit EvRUnlock
  end.

(** [l.Printf]: a line on standard error, or nothing for a discarding
    logger.  The line is the prefix and the message; the date and time
    that the flags ask for are left out. *)
Definition Printf (l : Logger) (line : string) : M unit :=
  match out l with
  | Stderr => emit (EvLog (prefix l +:+ line))
  | Discard => ret tt
  end.

(** ** [store.go] *)

Definition raftListenerStartupTimeout : Z := Second.

(** [newStore]: a document with [Index: 1], two fresh channels, the
    directory of the configuration, and a logger chosen by
    [LoggingEnabled]. *)
Definition newStore (c : Config) : M loc :=
  d <- alloc_data {| Index := 1; MetaNodes := None |} ;;
  cl <- make_chan ;;
  dc <- make_chan ;;
  alloc_store
    {| mu := unlocked;
       closing := cl;
       config := c;
       data := d;
       raftState := None;
       dataChanged := dc;
       path := Dir c;
       opened := false;
       logger := if LoggingEnabled c
                 then log_New Stderr "[metastore] " LstdFlags
                 else log_New Discard "" 0;
       authCache := None |}.

(** [close]: takes the write lock and closes the [closing] channel. *)
Definition close (s : loc) : M (option error) :=
  Lock s ;;;
  defer (Unlock s)
    (st <- load_store s ;;
     close_chan (closing st) ;;;
     ret None).

(** Modelled from the spec: [Data.Clone] is declared outside the three
    files.  The spec requires a fully independent deep copy: the clone is a
    new [Data] object and its slice has a backing array of its own. *)
Definition Clone (p : loc) : M loc :=
  d <- load_data p ;;
  sl <- match MetaNodes d with
        | None => ret None
        | Some a =>
            l <- load_slice (Some a) ;;
            a' <- alloc_array l ;;
            ret (Some a')
        end ;;
  p' <- alloc_data {| Index := Index d; MetaNodes := sl |} ;;
  emit (EvClone p p') ;;;
  ret p'.

(** [snapshot]: the clone of [s.data], taken under the read lock. *)
Definition snapshot (s : loc) : M (loc * option error) :=
  RLock s ;;;
  defer (RUnlock s)
    (st <- load_store s ;;
     p <- Clone (data st) ;;
     ret (p, None)).

(** [afterIndex]: a new channel, closed at once, for a stale caller;
    [s.dataChanged] otherwise. *)
Definition afterIndex (s : loc) (index : Z) : M loc :=
  RLock s ;;;
  defer (RUnlock s)
    (st <- load_store s ;;
     d <- load_data (data st) ;;
     if (index <? Index d)%Z
     then ch <- make_chan ;;
          close_chan ch ;;;
          ret ch
     else ret (dataChanged st)).

(** [isLeader] and [leader]: [false] and the empty string while no
    consensus module is attached. *)
Definition isLeader (s : loc) : M bool :=
  RLock s ;;;
  defer (RUnlock s)
    (st <- load_store s ;;
     match raftState st with
     | None => ret false
     | Some _ =>
         w <- get ;;
         ret (bool_decide (raft_State (raft w) = Leader))
     end).

Definition leader (s : loc) : M string :=
  RLock s ;;;
  defer (RUnlock s)
    (st <- load_store s ;;
     match raftState st with
     | None => ret ""
     | Some _ =>
         w <- get ;;
         ret (raft_Leader (raft w))
     end).

(** [index]: the current [Index] of the document. *)
Definition index (s : loc) : M Z :=
  RLock s ;;;
  defer (RUnlock s)
    (st <- load_store s ;;
     d <- load_data (data st) ;;
     ret (Index d)).

Definition errors_New (msg : string) : error := errorString msg.
Definition fmt_Errorf (msg : string) : error := errorString msg.

(** One [select] of [waitForLeader] that received [wk]; the rest of the
    schedule stays pending.  A tick comes with the consensus module's
    report of that instant; a closing signal that this goroutine had not
    seen yet was sent by a concurrent [close]. *)
Definition receive (s : loc) (wk : wake) (rest : list wake) : M unit :=
  fun w =>
    let w1 := set_sched rest w in
    match wk with
    | WClosing =>
        match stores w1 !! s with
        | Some st =>
            (Ret tt,
              if signaled w1 (closing st) then w1
              else set_chans (<[closing st := true]> (chans w1)) w1)
        | None => (Panic nil_deref, w1)
        end
    | WTimer => (Ret tt, w1)
    | WTicker v => (Ret tt, set_raft v w1)
    end.

(** The [for { select { ... } }] of [waitForLeader], one iteration per
    wake-up.  The schedule lists, in order, the case that each [select]
    takes among those that are ready.  A receive from a closed channel is
    always ready: when the schedule has nothing left to deliver and
    [s.closing] is closed already, the [select] takes that case and the
    call returns the closing error; with [s.closing] still open the
    goroutine stays in the [select]. *)
Fixpoint waitForLeader_loop (s : loc) (timeout : Z) (ws : list wake)
  : M (option error) :=
  match ws with
  | [] =>
      st <- load_store s ;;
      w <- get ;;
      if signaled w (closing st)
      then ret (Some (errors_New "closing"))
      else block
  | wk :: rest =>
      receive s wk rest ;;;
      match wk with
      | WClosing => ret (Some (errors_New "closing"))
      | WTimer =>
          if negb (timeout =? 0)%Z
          then ret (Some (errors_New "timeout"))
          else waitForLeader_loop s timeout rest
      | WTicker _ =>
          l <- leader s ;;
          if negb (String.eqb l "")
          then ret None
          else waitForLeader_loop s timeout rest
      end
  end.

(** [waitForLeader]: the timer and the ticker are local to the call and
    stopped on return; what they deliver is read from the schedule. *)
Definition waitForLeader (s : loc) (timeout : Z) : M (option error) :=
  w <- get ;;
  waitForLeader_loop s timeout (sched w).

(** *** Time and the raft listener *)

Definition time_Now : M Z := fun w => (Ret (now w), w).
Definition time_Sleep (d : Z) : M unit :=
  fun w => (Ret tt, set_trace (trace w ++ [EvSleep d]) (set_now (now w + d) w)).

(** [raftln.Addr()], asked at the current instant. *)
Definition Listener_Addr (l : Listener) : M (option string) :=
  fun w =>
    let a := Addr l (now w) in
    (Ret a, set_trace (trace w ++ [EvAddr (now w) a]) w).

(** *** The commit path (declared outside the three files) *)

Definition wrap64 (z : Z) : Z := z mod 2 ^ 64.

Definition store_data (p : loc) (d : Data) : M unit :=
  fun w =>
    match datas w !! p with
    | Some _ => (Ret tt, set_datas (<[p := d]> (datas w)) w)
    | None => (Panic nil_deref, w)
    end.

(** Writes the elements of a slice back: in place when it has a backing
    array, into a new array otherwise. *)
Definition store_slice (sl : option loc) (l : list NodeInfo) : M (option loc) :=
  match sl with
  | Some a =>
      fun w =>
        match arrays w !! a with
        | Some _ => (Ret (Some a), set_arrays (<[a := l]> (arrays w)) w)
        | None => (Panic nil_deref, w)
        end
  | None =>
      match l with
      | [] => ret None
      | _ => a <- alloc_array l ;; ret (Some a)
      end
  end.

(** Modelled from the spec: the callback that the consensus module invokes
    for a committed command.  Under the store's exclusive lock it mutates
    the document (in place), increments [Index] by exactly one, signals the
    current data-changed handle and installs a fresh one. *)
Definition commit (s : loc) (mutation : list NodeInfo -> list NodeInfo)
  : M unit :=
  Lock s ;;;
  defer (Unlock s)
    (st <- load_store s ;;
     d <- load_data (data st) ;;
     nodes <- load_slice (MetaNodes d) ;;
     sl <- store_slice (MetaNodes d) (mutation nodes) ;;
     store_data (data st)
       {| Index := wrap64 (Index d + 1); MetaNodes := sl |} ;;;
     emit EvCommit ;;;
     close_chan (dataChanged st) ;;;
     dc <- make_chan ;;
     update_store s (set_dataChanged dc)).

(** A sequence of committed commands, in commit order. *)
Fixpoint commits (s : loc) (ms : list (list NodeInfo -> list NodeInfo))
  : M unit :=
  match ms with
  | [] => ret tt
  | m :: rest => commit s m ;;; commits s rest
  end.

Section WithEnv.

Variable env : Env.

(** *** The join client (declared outside the three files) *)

(** Modelled from the spec: [CreateMetaNode] registers the node's two
    addresses with a seed peer and may fail. *)
Definition CreateMetaNode (servers : list string) (https : bool)
    (httpAddr raftAddr : string) : M (option error) :=
  emit (EvCreateMetaNode servers https httpAddr raftAddr) ;;;
  ret (CreateMetaNode_result env servers https httpAddr raftAddr).

(** Modelled from the spec: [retryUntilSnapshot] retries until the cluster
    hands out a membership snapshot, which it returns as a new [*Data]. *)
Definition retryUntilSnapshot (servers : list string) (https : bool) : M loc :=
  emit EvRetryUntilSnapshot ;;;
  match retryUntilSnapshot_result env servers https with
  | None => block
  | Some (idx, nodes) =>
      sl <- match nodes with
            | None => ret None
            | Some l => a <- alloc_array l ;; ret (Some a)
            end ;;
      alloc_data {| Index := idx; MetaNodes := sl |}
  end.

(** [joinCluster]: registers this server, fetches the snapshot and
    collects the [TCPHost] of each of its [MetaNodes]. *)
Definition joinCluster (s : loc) (httpAddr raftAddr : string)
    (metaServers : list string) : M (list string * option error) :=
  st <- load_store s ;;
  let https := HTTPSEnabled (config st) in
  err <- CreateMetaNode metaServers https httpAddr raftAddr ;;
  match err with
  | Some e => ret ([], Some e)
  | None =>
      data <- retryUntilSnapshot metaServers https ;;
      d <- load_data data ;;
      nodes <- load_slice (MetaNodes d) ;;
      ret (fold_left (fun raftPeers n => raftPeers ++ [TCPHost n]) nodes [],
           None)
  end.

(** Modelled from the spec: [raftState.open] opens the consensus module on
    the listener with the given initial membership; any failure is an
    error. *)
Definition raftState_open (rs : raftStateT) (s : loc) (raftln : Listener)
    (initializePeers : list string) : M (option error) :=
  emit (EvRaftOpen initializePeers) ;;;
  ret (errorString <$> raft_open_result env initializePeers).

(** [newRaftState] is declared outside the three files; what matters here
    is that it keeps the configuration. *)
Definition newRaftState (c : Config) : raftStateT :=
  {| rs_config := c; rs_logger := log_New Discard "" 0; rs_path := "" |}.

Definition openRaft (s : loc) (initializePeers : list string)
    (raftln : Listener) : M (option error) :=
  st <- load_store s ;;
  let rs := newRaftState (config st) in
  let rs := {| rs_config := rs_config rs; rs_logger := logger st;
               rs_path := path st |} in
  err <- raftState_open rs s raftln initializePeers ;;
  match err with
  | Some e => ret (Some e)
  | None =>
      update_store s (set_raftState (Some rs)) ;;;
      ret None
  end.

Definition os_MkdirAll (dir : string) : M (option error) :=
  emit (EvMkdirAll dir) ;;;
  ret (errorString <$> MkdirAll_result env dir).

(** [err.Error()], as [%s] prints it. *)
Definition Error (e : error) : string :=
  match e with
  | ErrStoreOpen => "store already open"
  | errorString msg => msg
  | PathError op p => op +:+ " " +:+ p
  end.

(** The loop of [open] that waits for the raft listener: [None] when the
    loop is left by [break], the error when it returns from [open]. *)
Fixpoint raftln_wait (fuel : nat) (raftln : Listener) (timeout : Z)
  : M (option error) :=
  match fuel with
  | O => block
  | S n =>
      a <- Listener_Addr raftln ;;
      match a with
      | Some _ => ret None
      | None =>
          t <- time_Now ;;
          if (timeout <? t)%Z
          then ret (Some (fmt_Errorf
                            "unable to open without raft listener running"))
          else time_Sleep (10 * Millisecond) ;;;
               raftln_wait n raftln timeout
      end
  end.

(** The loop sleeps 10 ms per turn against a deadline of one second, so no
    run takes more than this many turns. *)
Definition raftln_turns : nat :=
  Z.to_nat (raftListenerStartupTimeout / (10 * Millisecond)) + 2.

(** [open]. *)
Definition open (s : loc) (addr : string) (raftln : Listener)
  : M (option error) :=
  st <- load_store s ;;
  Printf (logger st) ("Using data dir: " +:+ path st) ;;;
  t0 <- time_Now ;;
  let timeout := t0 + raftListenerStartupTimeout in
  r <- raftln_wait raftln_turns raftln timeout ;;
  match r with
  | Some e => ret (Some e)
  | None =>
      jr <- (if (0 <? length (JoinPeers (config st)))%nat
             then a <- Listener_Addr raftln ;;
                  match a with
                  | None => panic nil_deref
                  | Some raftAddr =>
                      joinCluster s addr raftAddr (JoinPeers (config st))
                  end
             else ret ([], None)) ;;
      match jr with
      | (_, Some e) => ret (Some e)
      | (initializePeers, None) =>
          err <- (Lock s ;;;
                  defer (Unlock s)
                    (st <- load_store s ;;
                     if opened st
                     then ret (Some ErrStoreOpen)
                     else
                       update_store s (set_opened true) ;;;
                       e <- os_MkdirAll (path st) ;;
                       match e with
                       | Some e =>
                           ret (Some (fmt_Errorf ("mkdir all: " +:+ Error e)))
                       | None =>
                           e <- openRaft s initializePeers raftln ;;
                           match e with
                           | Some e =>
                               ret (Some (fmt_Errorf ("raft: " +:+ Error e)))
                           | None => ret None
                           end
                       end)) ;;
          match err with
          | Some e => ret (Some e)
          | None => waitForLeader s 0
          end
      end
  end.

(** Modelled from the spec: [raftState.apply] submits the command for
    replication; a failed submission is returned as it is and changes
    nothing, a committed command runs the commit callback. *)
Definition raftState_apply (rs : raftStateT) (s : loc) (b : list Byte.byte)
  : M (option error) :=
  match raft_submit_result env b with
  | Some e => ret (Some e)
  | None => commit s (decode env b) ;;; ret None
  end.

(** [apply]. *)
Definition apply (s : loc) (b : list Byte.byte) : M (option error) :=
  st <- load_store s ;;
  match raftState st with
  | None => panic nil_deref
  | Some rs => raftState_apply rs s b
  end.

End WithEnv.

(** [RetentionPolicyUpdate]: each field is a pointer, nil until its setter
    has been called; a setter stores the address of its own copy of the
    argument. *)
Record RetentionPolicyUpdate : Type := {
  Name : option string;
  Duration : option Z;
  ReplicaN : option Z;
}.

Definition SetName (v : string) (rpu : RetentionPolicyUpdate)
  : RetentionPolicyUpdate :=
  {| Name := Some v; Duration := Duration rpu; ReplicaN := ReplicaN rpu |}.

Definition SetDuration (v : Z) (rpu : RetentionPolicyUpdate)
  : RetentionPolicyUpdate :=
  {| Name := Name rpu; Duration := Some v; ReplicaN := ReplicaN rpu |}.

Definition SetReplicaN (v : Z) (rpu : RetentionPolicyUpdate)
  : RetentionPolicyUpdate :=
  {| Name := Name rpu; Duration := Duration rpu; ReplicaN := Some v |}.

End Meta.

(** ** [service.go] *)

Module MetaService.

Import Meta.
Local Open Scope go_scope.

(** The HTTP listener held in [Service.ln]. *)
Record HTTPListener : Type := {
  ln_Addr : string;
  ln_Close_result : option error;
}.

(** The [Service] struct; [nil] pointers and interfaces are [None]. *)
Record Service : Type := {
  RaftListener : option Listener;
  config : Config;
  node : option influxdb.Node;
  handler : option loc;
  ln : option HTTPListener;
  raftAddr : string;
  httpAddr : string;
  https : bool;
  cert : string;
  err : loc;
  Logger : Meta.Logger;
  store : option loc;
}.

(** [s.ln.Close()]. *)
Definition Listener_Close (l : HTTPListener) : M (option error) :=
  emit EvListenerClose ;;;
  ret (ln_Close_result l).

(** [Service.Close]. *)
Definition Close (s : Service) : M (option error) :=
  match ln s with
  | Some l => Listener_Close l
  | None =>
      match store s with
      | None => panic nil_deref
      | Some st =>
          err <- Meta.close st ;;
          match err with
          | Some e => ret (Some e)
          | None => ret None
          end
      end
  end.

(** [Service.URL] and [Service.Addr]. *)
Definition URL (s : Service) : string := httpAddr s.

Definition Addr (s : Service) : option string :=
  match ln s with
  | Some l => Some (ln_Addr l)
  | None => None
  end.

(** [NewService]: the addresses and the TLS settings of the configuration,
    a new error channel and a logger on standard error.  The [node]
    argument is not stored; the listeners, the handler and the store are
    nil until [Open]. *)
Definition NewService (c : Config) (n : option influxdb.Node) : M Service :=
  ch <- make_chan ;;
  ret {| RaftListener := None;
         config := c;
         node := None;
         handler := None;
         ln := None;
         raftAddr := BindAddress c;
         httpAddr := HTTPBindAddress c;
         https := HTTPSEnabled c;
         cert := HTTPSCertificate c;
         err := ch;
         Logger := log_New Stderr "[meta] " LstdFlags;
         store := None |}.

(** [Service.Err] and [Service.SetLogger]. *)
Definition Err (s : Service) : loc := err s.

Definition SetLogger (l : Meta.Logger) (s : Service) : Service :=
  {| RaftListener := RaftListener s; config := config s; node := node s;
     handler := handler s; ln := ln s; raftAddr := raftAddr s;
     httpAddr := httpAddr s; https := https s; cert := cert s;
     err := err s; Logger := l; store := store s |}.

End MetaService.

(** ** Predicates and sample states used in the statements *)

Module Inv.

Import Meta.

Definition locked : RWMutex := {| writer_held := true; readers := 0 |}.

(** The document behind a pointer, as a reader sees it: its [Index] and
    the elements of its [MetaNodes]. *)
Definition deref (w : World) (p : loc) : option (Z * list NodeInfo) :=
  match datas w !! p with
  | None => None
  | Some d =>
      match MetaNodes d with
      | None => Some (Index d, [])
      | Some a =>
          match arrays w !! a with
          | None => None
          | Some l => Some (Index d, l)
          end
      end
  end.

(** A store at rest: nobody holds its mutex, its document and the
    document's backing array exist, [Index] is a [uint64], the closing
    channel exists, and the data-changed handle is another channel that has
    not been signaled. *)
Record wf_store (w : World) (s : loc) (st : store) (d : Data) : Prop := {
  wf_present : stores w !! s = Some st;
  wf_mu : mu_free (mu st) = true;
  wf_data : datas w !! data st = Some d;
  wf_array : forall a, MetaNodes d = Some a -> is_Some (arrays w !! a);
  wf_dataChanged : chans w !! dataChanged st = Some false;
  wf_closing : is_Some (chans w !! closing st);
  wf_distinct : closing st <> dataChanged st;
  wf_index : 0 <= Index d < 2 ^ 64;
}.

(** A document behind [p] that shares nothing with the store's live
    document: another [Data] object, with a backing array of its own. *)
Definition separate (w : World) (st : store) (d : Data) (p : loc) : Prop :=
  exists dp,
    datas w !! p = Some dp /\ p <> data st /\
    forall a, MetaNodes dp = Some a ->
      is_Some (arrays w !! a) /\ MetaNodes d <> Some a.

(** The effect of a sequence of mutations on the members. *)
Definition apply_all (ms : list (list NodeInfo -> list NodeInfo))
    (nodes : list NodeInfo) : list NodeInfo :=
  fold_left (fun acc m => m acc) ms nodes.

(** The calls of the store's interface other than a commit. *)
Inductive call : Type :=
| CallClose
| CallSnapshot
| CallAfterIndex (i : Z)
| CallIndex
| CallLeader
| CallIsLeader.

(** The world after a call, whatever it returned. *)
Definition after_call (s : loc) (c : call) (w : World) : World :=
  match c with
  | CallClose => snd (close s w)
  | CallSnapshot => snd (snapshot s w)
  | CallAfterIndex i => snd (afterIndex s i w)
  | CallIndex => snd (index s w)
  | CallLeader => snd (leader s w)
  | CallIsLeader => snd (isLeader s w)
  end.

Definition after_calls (s : loc) (cs : list call) (w : World) : World :=
  fold_left (fun w c => after_call s c w) cs w.

(** The path of the node file in a directory, as [NewNode] builds it. *)
Definition nodePath (dir : string) : string :=
  filepath.Join [dir; influxdb.nodeFile].

(** The world as the body of a method finds it once the method holds the
    mutex. *)
Definition lock_world (s : loc) (st : store) (w : World) : World :=
  set_trace (trace w ++ [EvLock])
    (set_stores (<[s := set_mu locked st]> (stores w)) w).

Definition rlock_world (s : loc) (st : store) (w : World) : World :=
  set_trace (trace w ++ [EvRLock])
    (set_stores
       (<[s := set_mu {| writer_held := false;
                         readers := S (readers (mu st)) |} st]>
          (stores w)) w).

(** A wake-up after which the loop of [waitForLeader] goes round again:
    the timer of a zero timeout, or a tick at which no leader is known. *)
Definition quiet (timeout : Z) (st : store) (wk : wake) : bool :=
  match wk with
  | WClosing => false
  | WTimer => (timeout =? 0)%Z
  | WTicker v =>
      match raftState st with
      | None => true
      | Some _ => String.eqb (raft_Leader v) ""
      end
  end.

(** Two worlds that differ in the clock and the trace at most. *)
Definition same_heap (w w' : World) : Prop :=
  stores w' = stores w /\ chans w' = chans w /\ datas w' = datas w /\
  arrays w' = arrays w /\ raft w' = raft w /\ sched w' = sched w.

Definition is_poll (e : event) : bool :=
  match e with
  | EvAddr _ _ | EvSleep _ => true
  | _ => false
  end.

(** The events of [m + 1] polls of the listener from the instant [t] on,
    10 ms apart: [m] polls find no address and are followed by a sleep, the
    last one finds [last]. *)
Fixpoint polls (t : Z) (m : nat) (last : option string) : list event :=
  match m with
  | O => [EvAddr t last]
  | S m' =>
      EvAddr t None :: EvSleep (10 * Millisecond)
        :: polls (t + 10 * Millisecond) m' last
  end.

Definition is_read_lock (e : event) : bool :=
  match e with
  | EvRLock | EvRUnlock => true
  | _ => false
  end.

Definition is_join_or_init (e : event) : bool :=
  match e with
  | EvCreateMetaNode _ _ _ _ | EvRetryUntilSnapshot
  | EvMkdirAll _ | EvRaftOpen _ => true
  | _ => false
  end.

(** The order of the join and the consensus module in a trace: the module
    is opened only after a registration and the fetch of a snapshot, and
    on the list [members].  [stage] counts how far the join has come. *)
Fixpoint join_order (members : list string) (stage : nat)
    (evs : list event) : bool :=
  match evs with
  | [] => true
  | EvCreateMetaNode _ _ _ _ :: rest => join_order members 1 rest
  | EvRetryUntilSnapshot :: rest =>
      join_order members (if Nat.eqb stage 1 then 2 else stage) rest
  | EvRaftOpen ps :: rest =>
      Nat.eqb stage 2 && bool_decide (ps = members)
      && join_order members stage rest
  | _ :: rest => join_order members stage rest
  end.

(** The members' consensus addresses in the snapshot that the cluster
    hands out, if it hands out one. *)
Definition snapshot_members (env : Env) (servers : list string)
    (https : bool) : list string :=
  match retryUntilSnapshot_result env servers https with
  | Some (_, nodes) => map TCPHost (default [] nodes)
  | None => []
  end.

(** What [Printf] adds to the trace. *)
Definition log_events (l : Logger) (line : string) : list event :=
  match out l with
  | Stderr => [EvLog (prefix l +:+ line)]
  | Discard => []
  end.

Definition ErrListener : error :=
  fmt_Errorf "unable to open without raft listener running".

(** Two worlds of which the second has the stores, the channels and the
    consensus module's report of the first, and all its documents and
    arrays, possibly with new ones. *)
Definition heap_extends (w w' : World) : Prop :=
  stores w' = stores w /\ chans w' = chans w /\ raft w' = raft w /\
  sched w' = sched w /\
  datas w ⊆ datas w' /\ arrays w ⊆ arrays w'.

Local Open Scope go_scope.

(** The stages of [open] after the wait for the listener, by name: the
    join, the section under the lock, and what follows the two. *)
Definition open_join (env : Env) (s : loc) (st : store) (addr : string)
    (raftln : Listener) : M (list string * option error) :=
  if (0 <? length (JoinPeers (config st)))%nat
  then a <- Listener_Addr raftln ;;
       match a with
       | None => panic nil_deref
       | Some raftAddr =>
           joinCluster env s addr raftAddr (JoinPeers (config st))
       end
  else ret ([], None).

Definition open_locked (env : Env) (s : loc) (initializePeers : list string)
    (raftln : Listener) : M (option error) :=
  Lock s ;;;
  defer (Unlock s)
    (st <- load_store s ;;
     if opened st
     then ret (Some ErrStoreOpen)
     else
       update_store s (set_opened true) ;;;
       e <- os_MkdirAll env (path st) ;;
       match e with
       | Some e => ret (Some (fmt_Errorf ("mkdir all: " +:+ Error e)))
       | None =>
           e <- openRaft env s initializePeers raftln ;;
           match e with
           | Some e => ret (Some (fmt_Errorf ("raft: " +:+ Error e)))
           | None => ret None
           end
       end).

Definition open_finish (env : Env) (s : loc) (raftln : Listener)
    (jr : list string * option error) : M (option error) :=
  match jr with
  | (_, Some e) => ret (Some e)
  | (initializePeers, None) =>
      err <- open_locked env s initializePeers raftln ;;
      match err with
      | Some e => ret (Some e)
      | None => waitForLeader s 0
      end
  end.

(** What the join of [open] hands to the consensus module when it goes
    through: no peer at all without seed peers, the hosts of the
    snapshot's members otherwise.  [None] when the registration is refused
    or no snapshot ever comes. *)
Definition join_outcome (env : Env) (st : store) (addr raftAddr : string)
  : option (list string) :=
  match JoinPeers (config st) with
  | [] => Some []
  | peers =>
      match CreateMetaNode_result env peers (HTTPSEnabled (config st))
              addr raftAddr with
      | Some _ => None
      | None =>
          match retryUntilSnapshot_result env peers
                  (HTTPSEnabled (config st)) with
          | Some (_, nodes) => Some (map TCPHost (default [] nodes))
          | None => None
          end
      end
  end.

(** The events of a join that goes through, asked at the instant [t]. *)
Definition join_events (st : store) (addr : string) (t : Z)
    (raftAddr : string) : list event :=
  match JoinPeers (config st) with
  | [] => []
  | peers =>
      [EvAddr t (Some raftAddr);
       EvCreateMetaNode peers (HTTPSEnabled (config st)) addr raftAddr;
       EvRetryUntilSnapshot]
  end.

(** The events of [open] before it takes the lock, when the listener is
    found bound at the poll number [k] and the join goes through. *)
Definition open_prefix (st : store) (addr : string) (t : Z) (k : nat)
    (raftAddr : string) : list event :=
  log_events (logger st) ("Using data dir: " +:+ path st)
  ++ polls t k (Some raftAddr)
  ++ join_events st addr (t + 10 * Millisecond * Z.of_nat k) raftAddr.

(** The store as [open] leaves it once the consensus module is attached. *)
Definition attached (st : store) : store :=
  set_raftState
    (Some {| rs_config := config st; rs_logger := logger st;
             rs_path := path st |})
    (set_opened true st).

(** What a wait without timeout comes to on a schedule: decided by the
    first wake-up that is not [quiet]; when there is none, by whether the
    closing channel was closed before the wait ([closed]). *)
Definition wait_result (st : store) (closed : bool) (ws : list wake)
  : outcome (option error) :=
  match find (fun wk => negb (quiet 0 st wk)) ws with
  | None => if closed then Ret (Some (errors_New "closing")) else Blocked
  | Some WClosing => Ret (Some (errors_New "closing"))
  | Some _ => Ret None
  end.

(** An event of a run without any join: no call of the join client, and
    the consensus module opened on the empty list only. *)
Definition seedless (e : event) : bool :=
  match e with
  | EvCreateMetaNode _ _ _ _ | EvRetryUntilSnapshot => false
  | EvRaftOpen [] => true
  | EvRaftOpen _ => false
  | _ => true
  end.

End Inv.

Module Sample.

Import Meta.

Definition node : influxdb.Node :=
  {| influxdb.path := "/var/lib/influxdb"; influxdb.ID := 1;
     influxdb.MetaServers := ["peer1:8091"] |}.

Definition fs : influxdb.FS :=
  {| influxdb.entries :=
       {[ "/var/lib/influxdb" := influxdb.Directory;
          "/var/lib/influxdb/node.json" := influxdb.RegularFile "{}" ]};
     influxdb.calls := [] |}.

Definition cfg : Config :=
  {| Dir := "/var/lib/influxdb/meta";
     BindAddress := ":8088";
     HTTPBindAddress := ":8091";
     HTTPSEnabled := false;
     HTTPSCertificate := "";
     LoggingEnabled := false;
     JoinPeers := [] |}.

Definition world0 : World :=
  {| now := 0; chans := ∅; datas := ∅; arrays := ∅; stores := ∅;
     raft := {| raft_Leader := ""; raft_State := Follower |};
     sched := []; trace := [] |}.

(** The world right after [newStore cfg], and the new store's address. *)
Definition world1 : World := snd (newStore cfg world0).
Definition s1 : loc := 1%positive.
Definition st1 : store :=
  {| mu := unlocked; closing := 1%positive; config := cfg;
     data := 1%positive; raftState := None; dataChanged := 2%positive;
     path := Dir cfg; opened := false;
     logger := log_New Discard "" 0; authCache := None |}.

Definition http_ln : MetaService.HTTPListener :=
  {| MetaService.ln_Addr := "127.0.0.1:8091";
     MetaService.ln_Close_result := None |}.

Definition service : MetaService.Service :=
  {| MetaService.RaftListener := None;
     MetaService.config := cfg;
     MetaService.node := None;
     MetaService.handler := None;
     MetaService.ln := Some http_ln;
     MetaService.raftAddr := BindAddress cfg;
     MetaService.httpAddr := "127.0.0.1:8091";
     MetaService.https := false;
     MetaService.cert := "";
     MetaService.err := 3%positive;
     MetaService.Logger := log_New Stderr "[meta] " LstdFlags;
     MetaService.store := Some s1 |}.

Definition view0 : RaftView := {| raft_Leader := ""; raft_State := Follower |}.
Definition view1 : RaftView :=
  {| raft_Leader := "10.0.0.1:8088"; raft_State := Follower |}.

(** The same store once [open] has attached the consensus module. *)
Definition st2 : store :=
  {| mu := unlocked; closing := 1%positive; config := cfg;
     data := 1%positive;
     raftState := Some {| rs_config := cfg;
                          rs_logger := log_New Discard "" 0;
                          rs_path := Dir cfg |};
     dataChanged := 2%positive;
     path := Dir cfg; opened := true;
     logger := log_New Discard "" 0; authCache := None |}.
Definition world2 : World := set_stores (<[s1 := st2]> (stores world1)) world1.

(** A listener that is never bound, and one that is bound from 25 ms on. *)
Definition ln_unbound : Listener := {| Go.Addr := fun _ => None |}.
Definition ln_late : Listener :=
  {| Go.Addr := fun t => if (t <? 25 * Millisecond)%Z then None
                         else Some "10.0.0.2:8088" |}.

(** A listener that is bound from the start. *)
Definition ln_bound : Listener := {| Go.Addr := fun _ => Some "10.0.0.2:8088" |}.

(** Collaborators that always succeed, for a cluster of two members. *)
Definition members : list NodeInfo :=
  [ {| ID := 1; Host := "10.0.0.1:8091"; TCPHost := "10.0.0.1:8088" |};
    {| ID := 2; Host := "10.0.0.2:8091"; TCPHost := "10.0.0.2:8088" |} ].
Definition env : Env :=
  {| CreateMetaNode_result := fun _ _ _ _ => None;
     retryUntilSnapshot_result := fun _ _ => Some (7, Some members);
     MkdirAll_result := fun _ => None;
     raft_open_result := fun _ => None;
     raft_submit_result := fun _ => None;
     decode := fun _ l => l |}.

(** A store configured with a seed peer, its first [open] (the join and
    the consensus module succeed, and the first tick reports a leader), and
    a cluster that refuses a second registration. *)
Definition cfg_join : Config :=
  {| Dir := "/var/lib/influxdb/meta";
     BindAddress := ":8088";
     HTTPBindAddress := ":8091";
     HTTPSEnabled := false;
     HTTPSCertificate := "";
     LoggingEnabled := true;
     JoinPeers := ["10.0.0.1:8091"] |}.
Definition world1j : World := snd (newStore cfg_join world0).
Definition st1j : store :=
  {| mu := unlocked; closing := 1%positive; config := cfg_join;
     data := 1%positive; raftState := None; dataChanged := 2%positive;
     path := Dir cfg_join; opened := false;
     logger := log_New Stderr "[metastore] " LstdFlags; authCache := None |}.
Definition first_open : outcome (option error) * World :=
  open env s1 "10.0.0.2:8091" ln_bound (set_sched [WTicker view1] world1j).
Definition world3 : World := snd first_open.
Definition st3 : store :=
  {| mu := unlocked; closing := 1%positive; config := cfg_join;
     data := 1%positive;
     raftState := Some {| rs_config := cfg_join;
                          rs_logger := log_New Stderr "[metastore] " LstdFlags;
                          rs_path := Dir cfg_join |};
     dataChanged := 2%positive;
     path := Dir cfg_join; opened := true;
     logger := log_New Stderr "[metastore] " LstdFlags; authCache := None |}.
Definition env_taken : Env :=
  {| CreateMetaNode_result := fun _ _ _ _ => Some (errorString "node exists");
     retryUntilSnapshot_result := fun _ _ => Some (7, Some members);
     MkdirAll_result := fun _ => None;
     raft_open_result := fun _ => None;
     raft_submit_result := fun _ => None;
     decode := fun _ l => l |}.

(** A file system in which the node file exists, and a decoder that
    knows one document. *)
Definition fs_saved : influxdb.FS :=
  {| influxdb.entries :=
       {[ "/var/lib/influxdb" := influxdb.Directory;
          "/var/lib/influxdb/node.json" := influxdb.RegularFile "node 7" ]};
     influxdb.calls := [] |}.

Definition unmarshal (content : string) (cur : Z * list string)
  : Z * list string + error :=
  if String.eqb content "node 7" then inl (7, ["10.0.0.1:8091"])
  else inr (errorString "invalid character").

(** Collaborators of which one step fails: the directory cannot be
    created, or the consensus module does not open. *)
Definition env_nodir : Env :=
  {| CreateMetaNode_result := fun _ _ _ _ => None;
     retryUntilSnapshot_result := fun _ _ => Some (7, Some members);
     MkdirAll_result := fun _ => Some "permission denied";
     raft_open_result := fun _ => None;
     raft_submit_result := fun _ => None;
     decode := fun _ l => l |}.
Definition env_noraft : Env :=
  {| CreateMetaNode_result := fun _ _ _ _ => None;
     retryUntilSnapshot_result := fun _ _ => Some (7, Some members);
     MkdirAll_result := fun _ => None;
     raft_open_result := fun _ => Some "bind: address already in use";
     raft_submit_result := fun _ => None;
     decode := fun _ l => l |}.

(** The new store with a schedule: two ticks without a leader, the timer,
    then a tick that reports one. *)
Definition world1s : World :=
  set_sched [WTicker view0; WTimer; WTicker view0; WTicker view1] world1.

End Sample.

(** * Properties of the node file *)

Section NodeFile.

Import filepath influxdb.

Lemma elements_nonempty (p : string) : elements p <> [].
Proof.
  destruct p as [|c rest]; simpl; [discriminate|].
  destruct (Ascii.eqb c "/"); [discriminate|].
  destruct (elements rest); discriminate.
Qed.

(** Splitting distributes over a separator. *)
Lemma elements_app_sep (a b : string) :
  elements (a +:+ String "/" b) = elements a ++ elements b.
Proof.
  induction a as [|c a IH]; simpl; [reflexivity|].
  destruct (Ascii.eqb c "/"); rewrite IH; [reflexivity|].
  destruct (elements a) as [|e es] eqn:E; [|reflexivity].
  exfalso. exact (elements_nonempty a E).
Qed.

Lemma elements_concat (l : list string) :
  l <> [] -> elements (String.concat "/" l) = flat_map elements l.
Proof.
  induction l as [|x l IH]; [congruence|]. intros _.
  destruct l as [|y l].
  - simpl. rewrite app_nil_r. reflexivity.
  - change (String.concat "/" (x :: y :: l))
      with (x +:+ String "/" (String.concat "/" (y :: l))).
    rewrite elements_app_sep, IH by discriminate. reflexivity.
Qed.

Lemma append_not_empty (a b : string) : a <> "" -> a +:+ b <> "".
Proof. destruct a; [congruence|discriminate]. Qed.

Lemma eqb_empty_false (a : string) : a <> "" -> String.eqb a "" = false.
Proof. intros H. apply String.eqb_neq. exact H. Qed.

(** The temporary path always ends in the two elements [node.json] and
    [tmp]: the node file's name is used as a directory. *)
Lemma tmpFile_elements (n : Node) :
  exists dir, elements (tmpFile n) = dir ++ [nodeFile; "tmp"].
Proof.
  unfold tmpFile, Join.
  destruct (String.eqb (path n) "") eqn:E.
  - exists []. vm_compute. reflexivity.
  - apply String.eqb_neq in E.
    change (String.concat "/" [path n; nodeFile; "tmp"])
      with (path n +:+ String "/" "node.json/tmp").
    set (q := path n +:+ String "/" "node.json/tmp").
    assert (Hq : q <> "") by (apply append_not_empty; exact E).
    assert (Hel : elements q = elements (path n) ++ [nodeFile; "tmp"]).
    { unfold q. rewrite elements_app_sep. reflexivity. }
    unfold Clean. rewrite (eqb_empty_false q Hq), Hel, fold_left_app.
    set (kept := fold_left (clean_step (rooted q)) (elements (path n)) []).
    change (fold_left (clean_step (rooted q)) [nodeFile; "tmp"] kept)
      with ("tmp" :: nodeFile :: kept).
    change (rev ("tmp" :: nodeFile :: kept))
      with ((rev kept ++ [nodeFile]) ++ ["tmp"]).
    rewrite <- app_assoc.
    change ([nodeFile] ++ ["tmp"]) with [nodeFile; "tmp"].
    set (body := String.concat "/" (rev kept ++ [nodeFile; "tmp"])).
    assert (Hbody : elements body
                    = flat_map elements (rev kept) ++ [nodeFile; "tmp"]).
    { unfold body. rewrite elements_concat.
      - rewrite flat_map_app. reflexivity.
      - destruct (rev kept); discriminate. }
    set (out := if rooted q then "/" +:+ body else body).
    assert (Hout : exists pre, elements out = pre ++ [nodeFile; "tmp"]).
    { unfold out. destruct (rooted q).
      - exists ("" :: flat_map elements (rev kept)).
        change ("/" +:+ body) with ("" +:+ String "/" body).
        rewrite elements_app_sep, Hbody. reflexivity.
      - eexists. exact Hbody. }
    destruct Hout as [pre Hpre].
    fold out.
    destruct (String.eqb out "") eqn:Eo; [|exists pre; exact Hpre].
    apply String.eqb_eq in Eo. rewrite Eo in Hpre.
    destruct pre as [|? [|? ?]]; discriminate.
Qed.

(** Whatever the file system holds, [Save] leaves every entry as it was. *)
Lemma Save_entries (marshal : Node -> string) (n : Node) (fs : FS) :
  entries (snd (Save marshal n fs)) = entries fs.
Proof.
  unfold Save, os_Open.
  destruct (entries fs !! tmpFile n); reflexivity.
Qed.


(** C9.  [Save] opens [<path>/node.json/tmp] read-only, and that is its
    only call on the file system; for a node whose directory holds no such
    path the open fails, [Save] returns that error, and no entry of the
    file system changes. *)
Theorem Save_without_tmp_path
    (marshal : Node -> string) (n : Node) (fs : FS) :
  entries fs !! tmpFile n = None ->
  (exists dir, elements (tmpFile n) = dir ++ [nodeFile; "tmp"]) /\
  Save marshal n fs
  = (Some (PathError "open" (tmpFile n)),
     {| entries := entries fs;
        calls := calls fs ++ [FsOpen (tmpFile n) O_RDONLY] |}).
Proof.
  intros Hnone. split; [apply tmpFile_elements|].
  unfold Save, os_Open. rewrite Hnone. reflexivity.
Qed.

Lemma Save_without_tmp_path_witness :
  entries Sample.fs !! tmpFile Sample.node = None /\
  ((exists dir, elements (tmpFile Sample.node) = dir ++ [nodeFile; "tmp"]) /\
   Save (fun _ => "{}") Sample.node Sample.fs
   = (Some (PathError "open" (tmpFile Sample.node)),
      {| entries := entries Sample.fs;
         calls := calls Sample.fs
                  ++ [FsOpen (tmpFile Sample.node) O_RDONLY] |})).
Proof.
  split; [vm_compute; reflexivity|].
  apply (Save_without_tmp_path (fun _ => "{}") Sample.node Sample.fs).
  vm_compute; reflexivity.
Defined.

End NodeFile.

(** * Properties of the store *)

Section StoreFacts.

Import Meta Inv.
Local Open Scope go_scope.

(** ** The mutex *)

Lemma mu_free_unlocked (m : RWMutex) : mu_free m = true -> m = unlocked.
Proof.
  destruct m as [[] [|r]]; cbn; intros H; try discriminate; reflexivity.
Qed.

Lemma set_mu_same (st : store) : set_mu (mu st) st = st.
Proof. destruct st; reflexivity. Qed.

Lemma set_mu_twice (m1 m2 : RWMutex) (st : store) :
  set_mu m2 (set_mu m1 st) = set_mu m2 st.
Proof. reflexivity. Qed.

Lemma Lock_free (s : loc) (st : store) (w : World) :
  stores w !! s = Some st ->
  mu_free (mu st) = true ->
  Lock s w = (Ret tt, lock_world s st w).
Proof.
  intros Hs Hfree. unfold Lock, bind, load_store, update_store, emit.
  rewrite Hs, Hfree. cbn. rewrite Hs. reflexivity.
Qed.

Lemma Lock_held (s : loc) (st : store) (w : World) :
  stores w !! s = Some st ->
  mu_free (mu st) = false ->
  Lock s w = (Blocked, w).
Proof.
  intros Hs Hfree. unfold Lock, bind, load_store.
  rewrite Hs, Hfree. reflexivity.
Qed.

Lemma Unlock_locked (s : loc) (st : store) (w : World) :
  stores w !! s = Some st ->
  mu st = locked ->
  Unlock s w
  = (Ret tt, set_trace (trace w ++ [EvUnlock])
               (set_stores (<[s := set_mu unlocked st]> (stores w)) w)).
Proof.
  intros Hs Hmu. unfold Unlock, bind, load_store, update_store, emit.
  rewrite Hs, Hmu. cbn. rewrite Hs. reflexivity.
Qed.

Lemma RLock_free (s : loc) (st : store) (w : World) :
  stores w !! s = Some st ->
  writer_held (mu st) = false ->
  RLock s w = (Ret tt, rlock_world s st w).
Proof.
  intros Hs Hw. unfold RLock, bind, load_store, update_store, emit.
  rewrite Hs, Hw. cbn. rewrite Hs. reflexivity.
Qed.

Lemma RUnlock_read (s : loc) (st : store) (n : nat) (w : World) :
  stores w !! s = Some st ->
  mu st = {| writer_held := false; readers := S n |} ->
  RUnlock s w
  = (Ret tt,
     set_trace (trace w ++ [EvRUnlock])
       (set_stores
          (<[s := set_mu {| writer_held := false; readers := n |} st]>
             (stores w)) w)).
Proof.
  intros Hs Hmu. unfold RUnlock, bind, load_store, update_store, emit.
  rewrite Hs, Hmu. cbn. rewrite Hs. reflexivity.
Qed.

(** ** [close] *)

(** On a store whose closing channel is still open, [close] returns [nil]
    and closes the channel. *)
Lemma close_first (s : loc) (st : store) (w : World) :
  stores w !! s = Some st ->
  mu_free (mu st) = true ->
  chans w !! closing st = Some false ->
  close s w
  = (Ret None,
     set_trace (trace w ++ [EvLock; EvChanClose (closing st); EvUnlock])
       (set_chans (<[closing st := true]> (chans w)) w)).
Proof.
  intros Hs Hfree Hc.
  unfold close, bind, defer.
  rewrite (Lock_free s st w Hs Hfree).
  unfold lock_world, load_store, close_chan, ret. cbn.
  rewrite lookup_insert_eq. cbn. rewrite Hc.
  erewrite Unlock_locked; cycle 1.
  { cbn. apply lookup_insert_eq. }
  { reflexivity. }
  cbn. rewrite insert_insert_eq.
  rewrite set_mu_twice, <- (mu_free_unlocked _ Hfree), set_mu_same.
  rewrite insert_id by exact Hs.
  unfold set_trace, set_chans, set_stores; cbn.
  rewrite <- !app_assoc. reflexivity.
Qed.

Lemma close_again (s : loc) (st : store) (w : World) :
  stores w !! s = Some st ->
  mu_free (mu st) = true ->
  chans w !! closing st = Some true ->
  close s w
  = (Panic "close of closed channel",
     set_trace (trace w ++ [EvLock; EvUnlock]) w).
Proof.
  intros Hs Hfree Hc.
  unfold close, bind, defer.
  rewrite (Lock_free s st w Hs Hfree).
  unfold lock_world, load_store, close_chan, ret. cbn.
  rewrite lookup_insert_eq. cbn. rewrite Hc.
  erewrite Unlock_locked; cycle 1.
  { cbn. apply lookup_insert_eq. }
  { reflexivity. }
  cbn. rewrite insert_insert_eq.
  rewrite set_mu_twice, <- (mu_free_unlocked _ Hfree), set_mu_same.
  rewrite insert_id by exact Hs.
  unfold set_trace, set_chans, set_stores; cbn.
  rewrite <- !app_assoc. destruct w; reflexivity.
Qed.

(** C1.  The first [close] of a store returns [nil] and signals the closing
    channel; a second [close] panics with Go's "close of closed channel".
    The deferred unlock still runs, so the panic leaves the store and the
    channels as the first call left them. *)
Theorem close_twice_panics (s : loc) (st : store) (w : World) :
  stores w !! s = Some st ->
  mu_free (mu st) = true ->
  chans w !! closing st = Some false ->
  exists w1,
    close s w = (Ret None, w1) /\
    signaled w1 (closing st) = true /\
    close s w1
    = (Panic "close of closed channel",
       set_trace (trace w1 ++ [EvLock; EvUnlock]) w1).
Proof.
  intros Hs Hfree Hc. eexists. split; [apply (close_first s st w Hs Hfree Hc)|].
  split.
  - unfold signaled. cbn. rewrite lookup_insert_eq. reflexivity.
  - apply (close_again s st); [exact Hs|exact Hfree|].
    cbn. apply lookup_insert_eq.
Qed.

Lemma close_twice_panics_witness :
  stores Sample.world1 !! Sample.s1 = Some Sample.st1 /\
  mu_free (mu Sample.st1) = true /\
  chans Sample.world1 !! closing Sample.st1 = Some false /\
  exists w1,
    close Sample.s1 Sample.world1 = (Ret None, w1) /\
    signaled w1 (closing Sample.st1) = true /\
    close Sample.s1 w1
    = (Panic "close of closed channel",
       set_trace (trace w1 ++ [EvLock; EvUnlock]) w1).
Proof.
  refine (conj _ (conj _ (conj _
    (close_twice_panics Sample.s1 Sample.st1 Sample.world1 _ _ _))));
    vm_compute; reflexivity.
Defined.

(** ** Methods that run under the mutex *)

Lemma set_mu_readers (st : store) :
  writer_held (mu st) = false ->
  set_mu {| writer_held := false; readers := readers (mu st) |} st = st.
Proof. destruct st as [[[] r] ? ? ? ? ? ? ? ? ?]; cbn; [discriminate|reflexivity]. Qed.

(** A body that returns under the read lock, and leaves the stores alone,
    returns the same from the whole method; the mutex is back as it was. *)
Lemma with_RLock {A : Type} (s : loc) (st : store) (body : M A)
    (w w1 : World) (a : A) :
  stores w !! s = Some st ->
  writer_held (mu st) = false ->
  body (rlock_world s st w) = (Ret a, w1) ->
  stores w1 = stores (rlock_world s st w) ->
  (RLock s ;;; defer (RUnlock s) body) w
  = (Ret a, set_trace (trace w1 ++ [EvRUnlock]) (set_stores (stores w) w1)).
Proof.
  intros Hs Hw Hbody Hst.
  unfold bind, defer. rewrite (RLock_free s st w Hs Hw), Hbody.
  erewrite RUnlock_read; cycle 1.
  { rewrite Hst. cbn. apply lookup_insert_eq. }
  { reflexivity. }
  rewrite Hst. cbn. rewrite insert_insert_eq, set_mu_twice.
  rewrite (set_mu_readers st Hw), (insert_id _ _ _ Hs). reflexivity.
Qed.

(** The same for the write lock; the body may also panic. *)
Lemma with_Lock {A : Type} (s : loc) (st : store) (body : M A)
    (w w1 : World) (r : outcome A) (st1 : store) :
  stores w !! s = Some st ->
  mu_free (mu st) = true ->
  body (lock_world s st w) = (r, w1) ->
  r <> Blocked ->
  stores w1 !! s = Some st1 ->
  mu st1 = locked ->
  (Lock s ;;; defer (Unlock s) body) w
  = (r, set_trace (trace w1 ++ [EvUnlock])
          (set_stores (<[s := set_mu unlocked st1]> (stores w1)) w1)).
Proof.
  intros Hs Hfree Hbody Hr Hs1 Hmu.
  unfold bind, defer. rewrite (Lock_free s st w Hs Hfree), Hbody.
  rewrite (Unlock_locked s st1 w1 Hs1 Hmu).
  destruct r; [reflexivity|reflexivity|congruence].
Qed.

(** ** The read accessors *)

Lemma leader_spec (s : loc) (st : store) (w : World) :
  stores w !! s = Some st ->
  writer_held (mu st) = false ->
  leader s w
  = (Ret (match raftState st with
          | None => ""
          | Some _ => raft_Leader (raft w)
          end),
     set_trace (trace w ++ [EvRLock; EvRUnlock]) w).
Proof.
  intros Hs Hw. unfold leader.
  eapply eq_trans;
    [eapply (with_RLock s st _ w (rlock_world s st w)); [exact Hs | exact Hw | |]|].
  - unfold bind, load_store. cbn. rewrite lookup_insert_eq. cbn.
    instantiate (1 := match raftState st with None => _ | Some _ => _ end).
    destruct (raftState st); reflexivity.
  - reflexivity.
  - f_equal. cbn. rewrite <- app_assoc. destruct w; reflexivity.
Qed.

Lemma isLeader_spec (s : loc) (st : store) (w : World) :
  stores w !! s = Some st ->
  writer_held (mu st) = false ->
  isLeader s w
  = (Ret (match raftState st with
          | None => false
          | Some _ => bool_decide (raft_State (raft w) = Leader)
          end),
     set_trace (trace w ++ [EvRLock; EvRUnlock]) w).
Proof.
  intros Hs Hw. unfold isLeader.
  eapply eq_trans;
    [eapply (with_RLock s st _ w (rlock_world s st w)); [exact Hs | exact Hw | |]|].
  - unfold bind, load_store. cbn. rewrite lookup_insert_eq. cbn.
    instantiate (1 := match raftState st with None => _ | Some _ => _ end).
    destruct (raftState st); reflexivity.
  - reflexivity.
  - f_equal. cbn. rewrite <- app_assoc. destruct w; reflexivity.
Qed.

Lemma index_spec (s : loc) (st : store) (d : Data) (w : World) :
  stores w !! s = Some st ->
  writer_held (mu st) = false ->
  datas w !! data st = Some d ->
  index s w = (Ret (Index d), set_trace (trace w ++ [EvRLock; EvRUnlock]) w).
Proof.
  intros Hs Hw Hd. unfold index.
  eapply eq_trans; [eapply (with_RLock s st); [exact Hs | exact Hw | |]|].
  - unfold bind, load_store, load_data. cbn. rewrite lookup_insert_eq. cbn.
    rewrite Hd. reflexivity.
  - reflexivity.
  - f_equal. cbn. rewrite <- app_assoc. destruct w; reflexivity.
Qed.

(** ** [waitForLeader] *)

Lemma leader_quiet (s : loc) (st : store) (timeout : Z) (v : RaftView)
    (w : World) :
  stores w !! s = Some st ->
  writer_held (mu st) = false ->
  quiet timeout st (WTicker v) = true ->
  raft w = v ->
  leader s w = (Ret "", set_trace (trace w ++ [EvRLock; EvRUnlock]) w).
Proof.
  intros Hs Hw Hq Hv. rewrite (leader_spec s st w Hs Hw).
  cbn in Hq. destruct (raftState st); [|reflexivity].
  apply String.eqb_eq in Hq. rewrite Hv, Hq. reflexivity.
Qed.

(** Wake-ups that do not end the loop only move the schedule on: the
    stores, the channels and the documents stay as they are. *)
Lemma waitForLeader_loop_quiet (s : loc) (st : store) (timeout : Z)
    (pre rest : list wake) :
  writer_held (mu st) = false ->
  forallb (quiet timeout st) pre = true ->
  forall w, stores w !! s = Some st ->
  exists w1,
    waitForLeader_loop s timeout (pre ++ rest) w
    = waitForLeader_loop s timeout rest w1 /\
    stores w1 = stores w /\ chans w1 = chans w /\
    datas w1 = datas w /\ arrays w1 = arrays w.
Proof.
  intros Hw. induction pre as [|wk pre IH]; intros Hq w Hs.
  - exists w. repeat split; reflexivity.
  - cbn in Hq. apply andb_prop in Hq as [Hwk Hq]. specialize (IH Hq).
    destruct wk as [| |v]; [discriminate| |].
    + cbn in Hwk. cbn [app waitForLeader_loop]. unfold bind at 1.
      cbn [receive]. rewrite Hwk. cbn [negb].
      destruct (IH (set_sched (pre ++ rest) w) Hs) as (w1 & E & H1 & H2 & H3 & H4).
      exists w1. repeat split; assumption.
    + cbn [app waitForLeader_loop]. unfold bind at 1. cbn [receive].
      unfold bind at 1.
      rewrite (leader_quiet s st timeout v
                 (set_raft v (set_sched (pre ++ rest) w)) Hs Hw Hwk eq_refl).
      cbn [String.eqb negb].
      match goal with |- context [waitForLeader_loop _ _ _ ?w0] =>
        destruct (IH w0 Hs) as (w1 & E & H1 & H2 & H3 & H4) end.
      exists w1. repeat split; assumption.
Qed.

(** With a zero timeout no schedule makes the loop return the timeout
    error. *)
Lemma waitForLeader_loop_zero (s : loc) (ws : list wake) (w : World) :
  fst (waitForLeader_loop s 0 ws w) <> Ret (Some (errors_New "timeout")).
Proof.
  revert w. induction ws as [|wk ws IH]; intros w.
  { cbn [waitForLeader_loop]. unfold bind, load_store, get.
    destruct (stores w !! s) as [st|]; [|discriminate].
    destruct (signaled w (closing st)); discriminate. }
  cbn [waitForLeader_loop]. unfold bind at 1.
  destruct wk as [| |v]; cbn [receive].
  - destruct (stores (set_sched ws w) !! s); discriminate.
  - cbn. apply IH.
  - unfold bind at 1.
    destruct (leader s _) as [[l|msg|] w1]; [|discriminate|discriminate].
    destruct (String.eqb l ""); cbn [negb]; [apply IH|discriminate].
Qed.

(** C4.  The loop of [waitForLeader] is decided by the first wake-up that
    is not quiet.  While there is none the call stays blocked, unless the
    closing channel was closed before the call: then it returns the closing
    error.  The closing signal gives the closing error, whatever the
    timeout.  On a store that is not closed yet, the timer gives the
    timeout error when the timeout is not zero, and a tick at which a
    leader is known gives [nil].  With a zero timeout the timer is quiet,
    and the timeout error is never returned. *)
Theorem waitForLeader_outcomes (s : loc) (st : store) (timeout : Z)
    (pre : list wake) :
  writer_held (mu st) = false ->
  forallb (quiet timeout st) pre = true ->
  (forall w, stores w !! s = Some st -> sched w = pre ->
     fst (waitForLeader s timeout w)
     = if signaled w (closing st)
       then Ret (Some (errors_New "closing"))
       else Blocked) /\
  (forall w rest, stores w !! s = Some st -> sched w = pre ++ WClosing :: rest ->
     fst (waitForLeader s timeout w) = Ret (Some (errors_New "closing"))) /\
  (forall w rest, stores w !! s = Some st -> sched w = pre ++ WTimer :: rest ->
     timeout <> 0 ->
     signaled w (closing st) = false ->
     fst (waitForLeader s timeout w) = Ret (Some (errors_New "timeout"))) /\
  (forall w rest v, stores w !! s = Some st ->
     sched w = pre ++ WTicker v :: rest ->
     raftState st <> None -> raft_Leader v <> "" ->
     signaled w (closing st) = false ->
     fst (waitForLeader s timeout w) = Ret None) /\
  (forall w, fst (waitForLeader s 0 w) <> Ret (Some (errors_New "timeout"))).
Proof.
  intros Hw Hq. repeat apply conj.
  - intros w Hs Hsched. unfold waitForLeader, bind, get. rewrite Hsched.
    destruct (waitForLeader_loop_quiet s st timeout pre [] Hw Hq w Hs)
      as (w1 & E & Hs1 & Hc1 & _). rewrite app_nil_r in E. rewrite E.
    cbn [waitForLeader_loop]. unfold bind, load_store, get, signaled.
    rewrite Hs1, Hs, Hc1.
    destruct (chans w !! closing st) as [[|]|]; reflexivity.
  - intros w rest Hs Hsched. unfold waitForLeader, bind, get. rewrite Hsched.
    destruct (waitForLeader_loop_quiet s st timeout pre (WClosing :: rest)
                Hw Hq w Hs) as (w1 & E & Hs1 & _). rewrite E.
    cbn [waitForLeader_loop]. unfold bind, receive. cbn [stores set_sched].
    rewrite Hs1, Hs. reflexivity.
  - intros w rest Hs Hsched Ht _. unfold waitForLeader, bind, get.
    rewrite Hsched.
    destruct (waitForLeader_loop_quiet s st timeout pre (WTimer :: rest)
                Hw Hq w Hs) as (w1 & E & _). rewrite E.
    cbn [waitForLeader_loop]. unfold bind, receive.
    apply Z.eqb_neq in Ht. rewrite Ht. reflexivity.
  - intros w rest v Hs Hsched Hrs Hl _. unfold waitForLeader, bind, get.
    rewrite Hsched.
    destruct (waitForLeader_loop_quiet s st timeout pre (WTicker v :: rest)
                Hw Hq w Hs) as (w1 & E & Hs1 & _). rewrite E.
    cbn [waitForLeader_loop]. unfold bind at 1. cbn [receive].
    unfold bind at 1.
    assert (Hs1' : stores (set_raft v (set_sched rest w1)) !! s = Some st)
      by (cbn; rewrite Hs1; exact Hs).
    rewrite (leader_spec s st _ Hs1' Hw).
    destruct (raftState st); [|congruence]. cbn [raft set_raft].
    apply String.eqb_neq in Hl. rewrite Hl. reflexivity.
  - intros w. unfold waitForLeader, bind, get. apply waitForLeader_loop_zero.
Qed.

Lemma waitForLeader_outcomes_witness :
  writer_held (mu Sample.st2) = false /\
  forallb (quiet (5 * Second) Sample.st2)
    [WTicker Sample.view0; WTicker Sample.view0] = true /\
  fst (waitForLeader Sample.s1 (5 * Second)
         (set_sched [WTicker Sample.view0; WTicker Sample.view0; WTimer]
            Sample.world2))
  = Ret (Some (errors_New "timeout")) /\
  fst (waitForLeader Sample.s1 (5 * Second)
         (set_sched [WTicker Sample.view0; WTicker Sample.view0;
                     WTicker Sample.view1] Sample.world2))
  = Ret None /\
  fst (waitForLeader Sample.s1 (5 * Second)
         (set_sched [WTicker Sample.view0; WTicker Sample.view0]
            Sample.world2))
  = Blocked /\
  fst (waitForLeader Sample.s1 (5 * Second)
         (set_sched [WTicker Sample.view0; WTicker Sample.view0]
            (snd (close Sample.s1 Sample.world2))))
  = Ret (Some (errors_New "closing")).
Proof.
  assert (H1 : writer_held (mu Sample.st2) = false) by reflexivity.
  assert (H2 : forallb (quiet (5 * Second) Sample.st2)
                 [WTicker Sample.view0; WTicker Sample.view0] = true)
    by reflexivity.
  pose proof (waitForLeader_outcomes Sample.s1 Sample.st2 (5 * Second)
                [WTicker Sample.view0; WTicker Sample.view0] H1 H2)
    as (Hquiet & _ & Htimer & Htick & _).
  split; [exact H1|]. split; [exact H2|]. split; [|split; [|split]].
  - apply (Htimer _ []); [vm_compute; reflexivity|reflexivity| |reflexivity].
    vm_compute; discriminate.
  - apply (Htick _ [] Sample.view1);
      [vm_compute; reflexivity|reflexivity|discriminate|discriminate
      |reflexivity].
  - rewrite Hquiet; [reflexivity|vm_compute; reflexivity|reflexivity].
  - rewrite Hquiet; [reflexivity|vm_compute; reflexivity|reflexivity].
Defined.

(** ** [open]: waiting for the raft listener *)

Lemma tick_positive : 0 < 10 * Millisecond.
Proof. unfold Millisecond, Nanosecond. lia. Qed.

Lemma same_heap_refl (w : World) : same_heap w w.
Proof. repeat split. Qed.

(** Every run of the loop only polls and sleeps; it is left by [break]
    only at an instant at which the listener has an address. *)
Lemma raftln_wait_cases (raftln : Listener) (deadline : Z) (fuel : nat) :
  forall w r w',
    raftln_wait fuel raftln deadline w = (r, w') ->
    same_heap w w' /\
    (exists evs, trace w' = trace w ++ evs /\ forallb is_poll evs = true) /\
    (r = Ret None /\ is_Some (Addr raftln (now w')) \/
     r = Ret (Some ErrListener) \/
     r = Blocked).
Proof.
  induction fuel as [|n IH]; intros w r w' H.
  - cbn in H. injection H as <- <-.
    split; [apply same_heap_refl|]. split; [|auto].
    exists []. rewrite app_nil_r. auto.
  - cbn [raftln_wait] in H. unfold bind at 1 in H. cbn [Listener_Addr] in H.
    destruct (Addr raftln (now w)) as [a|] eqn:Ea.
    + injection H as <- <-. split; [repeat split|]. split.
      * exists [EvAddr (now w) (Some a)]. auto.
      * left. split; [reflexivity|]. cbn. rewrite Ea. eauto.
    + unfold bind at 1 in H. cbn [time_Now] in H. cbn [now set_trace] in H.
      destruct (deadline <? now w)%Z.
      * injection H as <- <-. split; [repeat split|]. split; [|auto].
        exists [EvAddr (now w) None]. auto.
      * unfold bind at 1 in H. cbn [time_Sleep] in H.
        apply IH in H as (Hh & (evs & Ht & Hp) & Hr).
        split; [|split; [|exact Hr]].
        -- destruct Hh as (a1 & a2 & a3 & a4 & a5 & a6).
           repeat split; assumption.
        -- exists (EvAddr (now w) None :: EvSleep (10 * Millisecond) :: evs).
           split; [|exact Hp]. rewrite Ht. cbn. rewrite <- !app_assoc.
           reflexivity.
Qed.

(** With one turn more than the deadline leaves room for sleeps, the loop
    comes to an end. *)
Lemma raftln_wait_returns (raftln : Listener) (deadline : Z) (n : nat) :
  forall w,
    deadline - now w < 10 * Millisecond * Z.of_nat n ->
    fst (raftln_wait (S n) raftln deadline w) <> Blocked.
Proof.
  pose proof tick_positive as Hpos.
  induction n as [|n IH]; intros w Hlt.
  - cbn [raftln_wait]. unfold bind at 1. cbn [Listener_Addr].
    destruct (Addr raftln (now w)); [discriminate|].
    unfold bind at 1. cbn [time_Now now set_trace].
    destruct (deadline <? now w)%Z eqn:E; [discriminate|].
    apply Z.ltb_ge in E. lia.
  - remember (S n) as m. cbn [raftln_wait]. unfold bind at 1.
    cbn [Listener_Addr].
    destruct (Addr raftln (now w)); [discriminate|].
    unfold bind at 1. cbn [time_Now now set_trace].
    destruct (deadline <? now w)%Z eqn:E; [discriminate|].
    unfold bind at 1. cbn [time_Sleep]. subst m. apply IH.
    cbn [now set_now set_trace]. lia.
Qed.

(** The loop, poll by poll: [m] polls that find no address before the
    deadline has passed, then one that finds [last].  An address ends the
    loop by [break]; no address ends it, once the deadline has passed, with
    the listener error. *)
Lemma raftln_wait_polls (raftln : Listener) (deadline : Z)
    (last : option string) (m : nat) :
  forall (fuel : nat) (w : World),
    (m < fuel)%nat ->
    (forall j, (j < m)%nat ->
       Addr raftln (now w + 10 * Millisecond * Z.of_nat j) = None) ->
    Addr raftln (now w + 10 * Millisecond * Z.of_nat m) = last ->
    now w + 10 * Millisecond * Z.of_nat m <= deadline + 10 * Millisecond ->
    (last = None -> deadline < now w + 10 * Millisecond * Z.of_nat m) ->
    exists w',
      raftln_wait fuel raftln deadline w
      = (Ret (match last with Some _ => None | None => Some ErrListener end),
         w') /\
      same_heap w w' /\
      now w' = now w + 10 * Millisecond * Z.of_nat m /\
      trace w' = trace w ++ polls (now w) m last.
Proof.
  pose proof tick_positive as Hpos.
  induction m as [|m IH]; intros fuel w Hfuel Hnone Hlast Hle Hdead.
  - destruct fuel as [|fuel]; [lia|].
    rewrite Z.mul_0_r, Z.add_0_r in *.
    cbn [raftln_wait]. unfold bind at 1. cbn [Listener_Addr]. rewrite Hlast.
    destruct last as [a|].
    + eexists. split; [reflexivity|]. split; [repeat split|].
      split; [cbn; lia|reflexivity].
    + unfold bind at 1. cbn [time_Now now set_trace].
      specialize (Hdead eq_refl). apply Z.ltb_lt in Hdead. rewrite Hdead.
      eexists. split; [reflexivity|]. split; [repeat split|].
      split; [cbn; lia|reflexivity].
  - destruct fuel as [|fuel]; [lia|].
    cbn [raftln_wait]. unfold bind at 1. cbn [Listener_Addr].
    pose proof (Hnone O ltac:(lia)) as H0.
    rewrite Z.mul_0_r, Z.add_0_r in H0. rewrite H0.
    unfold bind at 1. cbn [time_Now now set_trace].
    assert (E : (deadline <? now w)%Z = false) by (apply Z.ltb_ge; lia).
    rewrite E. unfold bind at 1. cbn [time_Sleep].
    match goal with |- context [raftln_wait fuel raftln deadline ?w0] =>
      destruct (IH fuel w0) as (w' & Hrun & Hh & Hnow & Htr) end.
    + lia.
    + intros j Hj. cbn [now set_now set_trace].
      rewrite <- (Hnone (S j)) by lia. f_equal. lia.
    + cbn [now set_now set_trace]. rewrite <- Hlast. f_equal. lia.
    + cbn [now set_now set_trace]. lia.
    + intros Hl. cbn [now set_now set_trace]. specialize (Hdead Hl). lia.
    + exists w'. split; [exact Hrun|]. split; [|split].
      * destruct Hh as (a1 & a2 & a3 & a4 & a5 & a6). repeat split; assumption.
      * rewrite Hnow. cbn [now set_now set_trace]. lia.
      * rewrite Htr. cbn. rewrite <- !app_assoc. reflexivity.
Qed.

Lemma polls_only_poll (t : Z) (m : nat) (last : option string) :
  forallb (fun e => negb (is_join_or_init e)) (polls t m last) = true.
Proof. revert t. induction m as [|m IH]; intros t; cbn; auto. Qed.

Lemma log_events_no_join (l : Logger) (line : string) :
  forallb (fun e => negb (is_join_or_init e)) (log_events l line) = true.
Proof. unfold log_events. destruct (out l); reflexivity. Qed.

Lemma Printf_spec (l : Logger) (line : string) (w : World) :
  Printf l line w = (Ret tt, set_trace (trace w ++ log_events l line) w).
Proof.
  unfold Printf, log_events. destruct (out l); cbn; [reflexivity|].
  unfold ret. rewrite app_nil_r. destruct w; reflexivity.
Qed.

Section Open.

Variable env : Env.

(** C7.  [open] polls [raftln.Addr()] every 10 ms from the instant of the
    call.  A poll that finds an address ends the wait at that instant.  If
    no poll finds one, up to the first poll past the deadline of one
    second (the 102nd, at 1010 ms), [open] returns the listener error; its
    only events are the log line and the polls, none of them a step of the
    join or of the consensus module's initialization, and the stores, the
    channels and the documents are untouched. *)
Theorem open_listener_timeout (s : loc) (st : store) (addr : string)
    (raftln : Listener) (w : World) :
  stores w !! s = Some st ->
  (forall k, (k <= 101)%nat ->
     Addr raftln (now w + 10 * Millisecond * Z.of_nat k) = None) ->
  (exists w',
     open env s addr raftln w = (Ret (Some ErrListener), w') /\
     same_heap w w' /\
     now w' = now w + raftListenerStartupTimeout + 10 * Millisecond /\
     trace w' = trace w
                ++ log_events (logger st) ("Using data dir: " +:+ path st)
                ++ polls (now w) 101 None /\
     forallb (fun e => negb (is_join_or_init e))
       (log_events (logger st) ("Using data dir: " +:+ path st)
        ++ polls (now w) 101 None) = true) /\
  (forall (w0 : World) (k : nat) (a : string),
     (k <= 101)%nat ->
     (forall j, (j < k)%nat ->
        Addr raftln (now w0 + 10 * Millisecond * Z.of_nat j) = None) ->
     Addr raftln (now w0 + 10 * Millisecond * Z.of_nat k) = Some a ->
     exists w1,
       raftln_wait raftln_turns raftln
         (now w0 + raftListenerStartupTimeout) w0 = (Ret None, w1) /\
       now w1 = now w0 + 10 * Millisecond * Z.of_nat k /\
       trace w1 = trace w0 ++ polls (now w0) k (Some a)).
Proof.
  intros Hs Hnone. split.
  - unfold open. unfold bind at 1. unfold load_store at 1. rewrite Hs.
    unfold bind at 1. rewrite Printf_spec.
    unfold bind at 1. cbn [time_Now now set_trace].
    set (w0 := set_trace _ w).
    destruct (raftln_wait_polls raftln (now w + raftListenerStartupTimeout)
                None 101 raftln_turns w0) as (w' & Hrun & Hh & Hnow & Htr).
    + unfold raftln_turns. vm_compute. lia.
    + intros j Hj. apply Hnone. lia.
    + apply Hnone. lia.
    + cbn. unfold raftListenerStartupTimeout, Second, Millisecond, Nanosecond.
      lia.
    + intros _. cbn.
      unfold raftListenerStartupTimeout, Second, Millisecond, Nanosecond. lia.
    + unfold bind at 1. rewrite Hrun. exists w'. split; [reflexivity|].
      split; [|split; [|split]].
      * destruct Hh as (a1 & a2 & a3 & a4 & a5 & a6). repeat split; assumption.
      * rewrite Hnow. cbn.
        unfold raftListenerStartupTimeout, Second, Millisecond, Nanosecond.
        lia.
      * rewrite Htr. cbn. rewrite <- app_assoc. reflexivity.
      * rewrite forallb_app, log_events_no_join, polls_only_poll. reflexivity.
  - intros w0 k a Hk Hbefore Hat.
    destruct (raftln_wait_polls raftln (now w0 + raftListenerStartupTimeout)
                (Some a) k raftln_turns w0) as (w1 & Hrun & _ & Hnow & Htr).
    + unfold raftln_turns.
      change (Z.to_nat (raftListenerStartupTimeout / (10 * Millisecond)) + 2)%nat
        with 102%nat. lia.
    + exact Hbefore.
    + exact Hat.
    + unfold raftListenerStartupTimeout, Second, Millisecond, Nanosecond. lia.
    + discriminate.
    + exists w1. auto.
Qed.

(** ** [open]: the join and the section under the lock *)

Lemma open_stages (s : loc) (st : store) (addr : string) (raftln : Listener)
    (w : World) :
  stores w !! s = Some st ->
  open env s addr raftln w
  = (Printf (logger st) ("Using data dir: " +:+ path st) ;;;
     t0 <- time_Now ;;
     r <- raftln_wait raftln_turns raftln (t0 + raftListenerStartupTimeout) ;;
     match r with
     | Some e => ret (Some e)
     | None =>
         jr <- open_join env s st addr raftln ;;
         open_finish env s raftln jr
     end) w.
Proof.
  intros Hs. unfold open. unfold bind at 1. unfold load_store at 1.
  rewrite Hs. reflexivity.
Qed.

Lemma collect_peers (nodes : list NodeInfo) (acc : list string) :
  fold_left (fun raftPeers n => raftPeers ++ [TCPHost n]) nodes acc
  = acc ++ map TCPHost nodes.
Proof.
  revert acc. induction nodes as [|n nodes IH]; intros acc; cbn.
  - rewrite app_nil_r. reflexivity.
  - rewrite IH, <- app_assoc. reflexivity.
Qed.

Lemma heap_extends_refl (w : World) : heap_extends w w.
Proof. repeat split; reflexivity. Qed.

Lemma deref_extends (w w' : World) (p : loc) (x : Z * list NodeInfo) :
  heap_extends w w' -> deref w p = Some x -> deref w' p = Some x.
Proof.
  intros (_ & _ & _ & _ & Hd & Ha). unfold deref.
  destruct (datas w !! p) as [d|] eqn:Ed; [|discriminate].
  rewrite (lookup_weaken _ _ _ _ Ed Hd).
  destruct (MetaNodes d) as [a|]; [|auto].
  destruct (arrays w !! a) as [l|] eqn:El; [|discriminate].
  rewrite (lookup_weaken _ _ _ _ El Ha). auto.
Qed.

(** [joinCluster], case by case: a failed registration is returned as it
    is; a registration without a snapshot never returns; otherwise the
    [TCPHost] of every member of the snapshot is returned, in order. *)
Lemma joinCluster_cases (s : loc) (st : store) (httpAddr raftAddr : string)
    (metaServers : list string) (w : World) :
  stores w !! s = Some st ->
  let https := HTTPSEnabled (config st) in
  let reg := EvCreateMetaNode metaServers https httpAddr raftAddr in
  exists r w',
    joinCluster env s httpAddr raftAddr metaServers w = (r, w') /\
    heap_extends w w' /\
    match CreateMetaNode_result env metaServers https httpAddr raftAddr with
    | Some e => r = Ret ([], Some e) /\ trace w' = trace w ++ [reg]
    | None =>
        trace w' = trace w ++ [reg; EvRetryUntilSnapshot] /\
        match retryUntilSnapshot_result env metaServers https with
        | None => r = Blocked
        | Some (idx, nodes) =>
            r = Ret (map TCPHost (default [] nodes), None)
        end
    end.
Proof.
  intros Hs https reg.
  unfold joinCluster, bind at 1, load_store. rewrite Hs.
  unfold bind at 1, CreateMetaNode, bind at 1, emit, ret. fold https. fold reg.
  destruct (CreateMetaNode_result env metaServers https httpAddr raftAddr)
    as [e|].
  - eexists _, _. split; [reflexivity|]. split; [repeat split; reflexivity|].
    split; reflexivity.
  - unfold bind at 1, retryUntilSnapshot, bind at 1, emit.
    destruct (retryUntilSnapshot_result env metaServers https)
      as [[idx [l|]]|].
    + unfold bind, alloc_array, alloc_data, load_data, load_slice, ret. cbn.
      rewrite !lookup_insert_eq. cbn. rewrite lookup_insert_eq.
      rewrite collect_peers.
      eexists _, _. split; [reflexivity|]. split; [|split].
      * repeat split; cbn.
        -- apply insert_subseteq, not_elem_of_dom, is_fresh.
        -- apply insert_subseteq, not_elem_of_dom, is_fresh.
      * cbn. rewrite <- app_assoc. reflexivity.
      * reflexivity.
    + unfold bind, alloc_data, load_data, load_slice, ret. cbn.
      rewrite !lookup_insert_eq. cbn.
      eexists _, _. split; [reflexivity|]. split; [|split].
      * repeat split; cbn; [|reflexivity].
        apply insert_subseteq, not_elem_of_dom, is_fresh.
      * cbn. rewrite <- app_assoc. reflexivity.
      * reflexivity.
    + eexists _, _. split; [reflexivity|]. split; [repeat split; reflexivity|].
      split; [|reflexivity]. cbn. rewrite <- app_assoc. reflexivity.
Qed.

(** The section under the lock on a store that is already open: the
    [ErrStoreOpen] error, and nothing changes but the trace. *)
Lemma open_locked_opened (s : loc) (st : store) (peers : list string)
    (raftln : Listener) (w : World) :
  stores w !! s = Some st ->
  mu_free (mu st) = true ->
  opened st = true ->
  open_locked env s peers raftln w
  = (Ret (Some ErrStoreOpen), set_trace (trace w ++ [EvLock; EvUnlock]) w).
Proof.
  intros Hs Hfree Hop. unfold open_locked.
  eapply eq_trans;
    [eapply (with_Lock s st _ w _ _ (set_mu locked st));
       [exact Hs | exact Hfree | | | | reflexivity]|].
  - unfold bind, load_store. cbn. rewrite lookup_insert_eq. cbn.
    rewrite Hop. reflexivity.
  - discriminate.
  - cbn. apply lookup_insert_eq.
  - f_equal. cbn. rewrite insert_insert_eq, set_mu_twice.
    rewrite <- (mu_free_unlocked _ Hfree), set_mu_same, (insert_id _ _ _ Hs).
    unfold set_trace, set_stores. cbn. rewrite <- app_assoc.
    destruct w; reflexivity.
Qed.

(** The join stage of [open], entered at an instant at which the listener
    has an address. *)
Lemma open_join_cases (s : loc) (st : store) (addr : string)
    (raftln : Listener) (w : World) :
  stores w !! s = Some st ->
  is_Some (Addr raftln (now w)) ->
  let peers := JoinPeers (config st) in
  let https := HTTPSEnabled (config st) in
  exists r w',
    open_join env s st addr raftln w = (r, w') /\
    heap_extends w w' /\
    (peers = [] /\ r = Ret ([], None) /\ trace w' = trace w \/
     peers <> [] /\
     exists raftAddr,
       Addr raftln (now w) = Some raftAddr /\
       let poll := EvAddr (now w) (Some raftAddr) in
       let reg := EvCreateMetaNode peers https addr raftAddr in
       match CreateMetaNode_result env peers https addr raftAddr with
       | Some e => r = Ret ([], Some e) /\ trace w' = trace w ++ [poll; reg]
       | None =>
           trace w' = trace w ++ [poll; reg; EvRetryUntilSnapshot] /\
           match retryUntilSnapshot_result env peers https with
           | None => r = Blocked
           | Some (idx, nodes) =>
               r = Ret (map TCPHost (default [] nodes), None)
           end
       end).
Proof.
  intros Hs [raftAddr Ha] peers https. unfold open_join. fold peers.
  destruct peers as [|p0 ps] eqn:Ep.
  - cbn. eexists _, _. split; [reflexivity|].
    split; [apply heap_extends_refl|]. left. auto.
  - cbn [length Nat.ltb Nat.leb]. unfold bind at 1. cbn [Listener_Addr].
    rewrite Ha.
    set (w1 := set_trace _ w).
    assert (Hs1 : stores w1 !! s = Some st) by exact Hs.
    destruct (joinCluster_cases s st addr raftAddr (p0 :: ps) w1 Hs1)
      as (r & w' & Hrun & Hext & Hcases).
    exists r, w'. split; [exact Hrun|]. split.
    + destruct Hext as (a1 & a2 & a3 & a4 & a6 & a7).
      repeat split; assumption.
    + right. split; [discriminate|]. exists raftAddr. split; [reflexivity|].
      cbn zeta. fold https in Hcases.
      destruct (CreateMetaNode_result env (p0 :: ps) https addr raftAddr).
      * destruct Hcases as [-> ->]. split; [reflexivity|].
        unfold w1. cbn. rewrite <- app_assoc. reflexivity.
      * destruct Hcases as [-> Hr]. split; [|exact Hr].
        unfold w1. cbn. rewrite <- app_assoc. reflexivity.
Qed.

(** The wait for the listener at the start of [open] always ends. *)
Lemma open_wait_returns (raftln : Listener) (w : World) (t : list event) :
  fst (raftln_wait raftln_turns raftln (now w + raftListenerStartupTimeout)
         (set_trace t w)) <> Blocked.
Proof.
  change raftln_turns with (S 101).
  apply raftln_wait_returns. cbn [now set_trace].
  unfold raftListenerStartupTimeout, Second, Millisecond, Nanosecond. lia.
Qed.

(** C3, amended.  [open] on a store whose [opened] flag is set
    changes neither the store nor its document, the channels or the
    consensus module's report, whatever it returns.  It returns
    [ErrStoreOpen] once the wait for the listener and the join (run first
    when seed peers are configured) are through; before that, it returns
    the listener error when the listener stays unbound, the join client's
    error when the registration fails, and it stays in the join while no
    snapshot comes. *)
Theorem open_already_opened (s : loc) (st : store) (addr : string)
    (raftln : Listener) (w : World) :
  stores w !! s = Some st ->
  mu_free (mu st) = true ->
  opened st = true ->
  let peers := JoinPeers (config st) in
  let https := HTTPSEnabled (config st) in
  exists r w',
    open env s addr raftln w = (r, w') /\
    stores w' = stores w /\ chans w' = chans w /\ raft w' = raft w /\
    datas w ⊆ datas w' /\ arrays w ⊆ arrays w' /\
    (forall x, deref w (data st) = Some x -> deref w' (data st) = Some x) /\
    (r = Ret (Some ErrStoreOpen) \/
     r = Ret (Some ErrListener) \/
     peers <> [] /\
     ((exists e raftAddr,
         r = Ret (Some e) /\
         CreateMetaNode_result env peers https addr raftAddr = Some e) \/
      r = Blocked /\ retryUntilSnapshot_result env peers https = None)) /\
    (forall (k : nat) (a : string),
       (k <= 101)%nat ->
       (forall j, (j < k)%nat ->
          Addr raftln (now w + 10 * Millisecond * Z.of_nat j) = None) ->
       Addr raftln (now w + 10 * Millisecond * Z.of_nat k) = Some a ->
       peers = [] \/
       CreateMetaNode_result env peers https addr a = None /\
       is_Some (retryUntilSnapshot_result env peers https) ->
       r = Ret (Some ErrStoreOpen)).
Proof.
  intros Hs Hfree Hop peers https.
  rewrite (open_stages s st addr raftln w Hs).
  unfold bind at 1. rewrite Printf_spec.
  unfold bind at 1. cbn [time_Now now set_trace].
  set (w0 := set_trace _ w). unfold bind at 1.
  pose proof (open_wait_returns raftln w (trace w0)) as Hret.
  change (set_trace (trace w0) w) with w0 in Hret.
  assert (Hpolls : forall (k : nat) (a : string),
            (k <= 101)%nat ->
            (forall j, (j < k)%nat ->
               Addr raftln (now w + 10 * Millisecond * Z.of_nat j) = None) ->
            Addr raftln (now w + 10 * Millisecond * Z.of_nat k) = Some a ->
            exists w1,
              raftln_wait raftln_turns raftln
                (now w + raftListenerStartupTimeout) w0 = (Ret None, w1) /\
              now w1 = now w + 10 * Millisecond * Z.of_nat k).
  { intros k a Hk Hbefore Hat.
    destruct (raftln_wait_polls raftln (now w + raftListenerStartupTimeout)
                (Some a) k raftln_turns w0) as (w1 & Hrun & _ & Hnow & _).
    - change raftln_turns with 102%nat. lia.
    - exact Hbefore.
    - exact Hat.
    - cbn [now w0 set_trace].
      unfold raftListenerStartupTimeout, Second, Millisecond, Nanosecond. lia.
    - discriminate.
    - exists w1. split; [exact Hrun|exact Hnow]. }
  destruct (raftln_wait raftln_turns raftln
              (now w + raftListenerStartupTimeout) w0) as [r1 w1] eqn:Hwait.
  destruct (raftln_wait_cases raftln _ _ _ _ _ Hwait)
    as ((Hst1 & Hch1 & Hd1 & Ha1 & Hr1 & Hsc1) & _ & Hcase).
  cbn [stores chans datas arrays raft sched w0 set_trace] in *.
  destruct Hcase as [[-> Haddr]|[->| ->]]; [| |exfalso; apply Hret; reflexivity].
  - (* the listener has an address: the join, then the lock *)
    assert (Hs1 : stores w1 !! s = Some st) by (rewrite Hst1; exact Hs).
    destruct (open_join_cases s st addr raftln w1 Hs1 Haddr)
      as (jr & w2 & Hjoin & Hext & Hjcase).
    fold peers https in Hjcase.
    assert (Hext0 : heap_extends w w2).
    { destruct Hext as (a1 & a2 & a3 & a4 & a6 & a7).
      repeat split; try congruence.
      - rewrite <- Hd1. exact a6.
      - rewrite <- Ha1. exact a7. }
    unfold bind at 1. rewrite Hjoin.
    assert (Hlocked : forall ps,
              open_finish env s raftln (ps, None) w2
              = (Ret (Some ErrStoreOpen),
                 set_trace (trace w2 ++ [EvLock; EvUnlock]) w2)).
    { intros ps. unfold open_finish, bind.
      rewrite (open_locked_opened s st ps raftln w2); [reflexivity| |exact Hfree|exact Hop].
      destruct Hext0 as (-> & _). exact Hs. }
    assert (Hstate : forall t,
              stores (set_trace t w2) = stores w /\
              chans (set_trace t w2) = chans w /\
              raft (set_trace t w2) = raft w /\
              datas w ⊆ datas (set_trace t w2) /\
              arrays w ⊆ arrays (set_trace t w2) /\
              (forall x, deref w (data st) = Some x ->
                 deref (set_trace t w2) (data st) = Some x)).
    { intros t. destruct Hext0 as (a1 & a2 & a3 & a4 & a6 & a7).
      repeat split; try assumption.
      intros x Hx. apply (deref_extends w w2); [|exact Hx].
      repeat split; assumption. }
    assert (Hstate2 :
              stores w2 = stores w /\ chans w2 = chans w /\
              raft w2 = raft w /\ datas w ⊆ datas w2 /\
              arrays w ⊆ arrays w2 /\
              (forall x, deref w (data st) = Some x ->
                 deref w2 (data st) = Some x)).
    { destruct (Hstate (trace w2)) as (a1 & a2 & a3 & a4 & a5 & a6).
      repeat split; assumption. }
    destruct Hjcase as [(Hnil & -> & _)|(Hne & raftAddr & Hra & Hmatch)].
    + rewrite Hlocked. eexists _, _. split; [reflexivity|].
      destruct (Hstate (trace w2 ++ [EvLock; EvUnlock]))
        as (a1 & a2 & a3 & a4 & a5 & a6).
      repeat (split; [assumption|]). split; [left; reflexivity|].
      intros; reflexivity.
    + cbn zeta in Hmatch.
      destruct (CreateMetaNode_result env peers https addr raftAddr)
        as [e|] eqn:Ereg.
      * destruct Hmatch as [-> _]. cbn [open_finish]. unfold ret.
        eexists _, _. split; [reflexivity|].
        destruct Hstate2 as (a1 & a2 & a3 & a4 & a5 & a6).
        repeat (split; [assumption|]). split.
        -- right. right. split; [exact Hne|]. left. eauto.
        -- intros k a Hk Hbefore Hat Hok.
           destruct (Hpolls k a Hk Hbefore Hat) as (w1' & Hrun' & Hnow').
           injection Hrun' as <-.
           rewrite Hnow', Hat in Hra. injection Hra as ->.
           destruct Hok as [Hok|[Hok _]]; congruence.
      * destruct Hmatch as [_ Hsnap].
        destruct (retryUntilSnapshot_result env peers https)
          as [[idx nodes]|] eqn:Esnap.
        -- rewrite Hsnap, Hlocked. eexists _, _. split; [reflexivity|].
           destruct (Hstate (trace w2 ++ [EvLock; EvUnlock]))
             as (a1 & a2 & a3 & a4 & a5 & a6).
           repeat (split; [assumption|]). split; [left; reflexivity|].
           intros; reflexivity.
        -- rewrite Hsnap. eexists _, _. split; [reflexivity|].
           destruct Hstate2 as (a1 & a2 & a3 & a4 & a5 & a6).
           repeat (split; [assumption|]). split.
           ++ right. right. split; [exact Hne|]. right. auto.
           ++ intros k a Hk Hbefore Hat [Hok|[_ [? Hok]]]; congruence.
  - (* the listener stayed unbound *)
    unfold ret. eexists _, _. split; [reflexivity|].
    split; [exact Hst1|]. split; [exact Hch1|]. split; [exact Hr1|].
    split; [rewrite Hd1; reflexivity|]. split; [rewrite Ha1; reflexivity|].
    split; [|split].
    + intros x Hx. unfold deref in *. rewrite Hd1, Ha1. exact Hx.
    + right. left. reflexivity.
    + intros k a Hk Hbefore Hat _.
      destruct (Hpolls k a Hk Hbefore Hat) as (w1' & Hrun' & _). discriminate.
Qed.

(** ** [open] on a store that is not open yet *)

Lemma set_opened_unlocked (st : store) :
  mu_free (mu st) = true ->
  set_mu unlocked (set_opened true (set_mu locked st)) = set_opened true st.
Proof.
  intros Hfree. apply mu_free_unlocked in Hfree. destruct st; cbn in *.
  subst. reflexivity.
Qed.

Lemma set_fields_unlocked (st : store) (r : option raftStateT) :
  mu_free (mu st) = true ->
  set_mu unlocked (set_raftState r (set_opened true (set_mu locked st)))
  = set_raftState r (set_opened true st).
Proof.
  intros Hfree. apply mu_free_unlocked in Hfree. destruct st; cbn in *.
  subst. reflexivity.
Qed.

(** The section under the lock when the directory can be made: the
    consensus module is opened on the given peers; the store is marked
    open, and holds the module if that went well. *)
Lemma open_locked_fresh (s : loc) (st : store) (peers : list string)
    (raftln : Listener) (w : World) :
  stores w !! s = Some st ->
  mu_free (mu st) = true ->
  opened st = false ->
  MkdirAll_result env (path st) = None ->
  exists w' st',
    open_locked env s peers raftln w
    = (Ret (match raft_open_result env peers with
            | Some msg => Some (fmt_Errorf ("raft: " +:+ msg))
            | None => None
            end), w') /\
    trace w' = trace w ++ [EvLock; EvMkdirAll (path st); EvRaftOpen peers;
                           EvUnlock] /\
    stores w' = <[s := st']> (stores w) /\
    opened st' = true /\ mu st' = unlocked /\
    (raft_open_result env peers = None -> raftState st' <> None) /\
    chans w' = chans w /\ datas w' = datas w /\ arrays w' = arrays w.
Proof.
  intros Hs Hfree Hop Hmk. unfold open_locked.
  destruct (raft_open_result env peers) as [msg|] eqn:Eraft.
  - eexists _, (set_opened true st). split.
    { eapply (with_Lock s st _ w _ _ (set_opened true (set_mu locked st)));
        [exact Hs | exact Hfree | | discriminate | | reflexivity].
      - unfold os_MkdirAll, openRaft, raftState_open.
        unfold bind, load_store, update_store, emit, ret.
        repeat first [rewrite lookup_insert_eq | rewrite Hop | rewrite Hmk
                     | rewrite Eraft | progress cbn].
        reflexivity.
      - cbn. rewrite !insert_insert_eq. apply lookup_insert_eq. }
    cbn. rewrite !insert_insert_eq.
    rewrite (set_opened_unlocked st Hfree).
    split; [rewrite <- !app_assoc; reflexivity|].
    split; [reflexivity|].
    repeat split; try reflexivity;
      [apply mu_free_unlocked; exact Hfree | cbn; intros E; discriminate].
  - eexists _, _. split.
    { eapply (with_Lock s st _ w _ _
                (set_raftState _ (set_opened true (set_mu locked st))));
        [exact Hs | exact Hfree | | discriminate | | reflexivity].
      - unfold os_MkdirAll, openRaft, raftState_open.
        unfold bind, load_store, update_store, emit, ret.
        repeat first [rewrite lookup_insert_eq | rewrite Hop | rewrite Hmk
                     | rewrite Eraft | progress cbn].
        reflexivity.
      - cbn. rewrite !insert_insert_eq. apply lookup_insert_eq. }
    cbn. rewrite !insert_insert_eq.
    rewrite (set_fields_unlocked st _ Hfree).
    split; [rewrite <- !app_assoc; reflexivity|].
    split; [reflexivity|].
    repeat split; try reflexivity;
      [apply mu_free_unlocked; exact Hfree | cbn; intros E; discriminate].
Qed.

(** [leader] and the loop of [waitForLeader] add nothing to the trace but
    the taking and the release of the read lock. *)
Lemma leader_trace (s : loc) (w : World) :
  exists evs,
    trace (snd (leader s w)) = trace w ++ evs /\
    forallb is_read_lock evs = true.
Proof.
  destruct (stores w !! s) as [st|] eqn:Hs.
  - destruct (writer_held (mu st)) eqn:Hw.
    + exists []. unfold leader, bind, RLock, bind, load_store.
      rewrite Hs, Hw. cbn. rewrite app_nil_r. auto.
    + exists [EvRLock; EvRUnlock]. rewrite (leader_spec s st w Hs Hw). auto.
  - exists []. unfold leader, bind, RLock, bind, load_store. rewrite Hs.
    cbn. rewrite app_nil_r. auto.
Qed.

Lemma waitForLeader_loop_trace (s : loc) (timeout : Z) (ws : list wake) :
  forall w, exists evs,
    trace (snd (waitForLeader_loop s timeout ws w)) = trace w ++ evs /\
    forallb is_read_lock evs = true.
Proof.
  induction ws as [|wk ws IH]; intros w.
  - exists []. rewrite app_nil_r. split; [|reflexivity].
    cbn [waitForLeader_loop]. unfold bind, load_store, get.
    destruct (stores w !! s) as [st|]; [|reflexivity].
    destruct (signaled w (closing st)); reflexivity.
  - cbn [waitForLeader_loop]. unfold bind at 1.
    destruct wk as [| |v]; cbn [receive].
    + exists []. rewrite app_nil_r.
      destruct (stores (set_sched ws w) !! s); [|auto].
      destruct (signaled _ _); auto.
    + destruct (negb (timeout =? 0)%Z).
      * exists []. cbn. rewrite app_nil_r. auto.
      * destruct (IH (set_sched ws w)) as (evs & Ht & Hf). exists evs. auto.
    + unfold bind at 1.
      destruct (leader_trace s (set_raft v (set_sched ws w)))
        as (evs1 & Ht1 & Hf1).
      destruct (leader s (set_raft v (set_sched ws w))) as [[l|msg|] w1];
        cbn [snd] in Ht1; cbn [trace set_raft set_sched] in Ht1.
      * destruct (negb (l =? "")%string).
        -- exists evs1. auto.
        -- destruct (IH w1) as (evs & Ht & Hf). exists (evs1 ++ evs).
           rewrite Ht, Ht1, app_assoc, forallb_app, Hf1, Hf. auto.
      * exists evs1. auto.
      * exists evs1. auto.
Qed.

Lemma read_lock_no_join (evs : list event) :
  forallb is_read_lock evs = true ->
  forallb (fun e => negb (is_join_or_init e)) evs = true.
Proof.
  induction evs as [|e evs IH]; [reflexivity|]. cbn.
  intros H. apply andb_prop in H as [He H]. rewrite (IH H).
  destruct e; try discriminate; reflexivity.
Qed.

(** The run of [open] that reaches the consensus module: a store with seed
    peers that is not open yet, a listener that gets an address in time, a
    join and a directory that succeed. *)
Lemma open_join_run (s : loc) (st : store) (addr : string)
    (raftln : Listener) (w : World) (k : nat) (raftAddr : string)
    (idx : Z) (nodes : option (list NodeInfo)) :
  let peers := JoinPeers (config st) in
  let https := HTTPSEnabled (config st) in
  let members := map TCPHost (default [] nodes) in
  stores w !! s = Some st ->
  mu_free (mu st) = true ->
  opened st = false ->
  peers <> [] ->
  (k <= 101)%nat ->
  (forall j, (j < k)%nat ->
     Addr raftln (now w + 10 * Millisecond * Z.of_nat j) = None) ->
  Addr raftln (now w + 10 * Millisecond * Z.of_nat k) = Some raftAddr ->
  CreateMetaNode_result env peers https addr raftAddr = None ->
  retryUntilSnapshot_result env peers https = Some (idx, nodes) ->
  MkdirAll_result env (path st) = None ->
  (forall w0, stores w0 !! s = Some st ->
     exists w0',
       joinCluster env s addr raftAddr peers w0 = (Ret (members, None), w0')) /\
  exists r w' rest,
    open env s addr raftln w = (r, w') /\
    trace w'
    = trace w
      ++ log_events (logger st) ("Using data dir: " +:+ path st)
      ++ polls (now w) k (Some raftAddr)
      ++ [EvAddr (now w + 10 * Millisecond * Z.of_nat k) (Some raftAddr);
          EvCreateMetaNode peers https addr raftAddr;
          EvRetryUntilSnapshot;
          EvLock; EvMkdirAll (path st); EvRaftOpen members; EvUnlock]
      ++ rest /\
    forallb (fun e => negb (is_join_or_init e)) rest = true.
Proof.
  intros peers https members Hs Hfree Hop Hne Hk Hbefore Hat Hreg Hsnap Hmk.
  split.
  { intros w0 Hs0.
    destruct (joinCluster_cases s st addr raftAddr peers w0 Hs0)
      as (r & w0' & Hrun & _ & Hcases).
    fold https peers in Hcases. rewrite Hreg, Hsnap in Hcases.
    destruct Hcases as [_ ->]. exists w0'. exact Hrun. }
  rewrite (open_stages s st addr raftln w Hs).
  unfold bind at 1. rewrite Printf_spec.
  unfold bind at 1. cbn [time_Now now set_trace].
  set (w0 := set_trace _ w). unfold bind at 1.
  destruct (raftln_wait_polls raftln (now w + raftListenerStartupTimeout)
              (Some raftAddr) k raftln_turns w0)
    as (w1 & Hwait & (Hst1 & Hch1 & Hd1 & Ha1 & Hr1 & Hsc1) & Hnow1 & Htr1).
  { change raftln_turns with 102%nat. lia. }
  { exact Hbefore. }
  { exact Hat. }
  { cbn [now w0 set_trace].
    unfold raftListenerStartupTimeout, Second, Millisecond, Nanosecond. lia. }
  { discriminate. }
  rewrite Hwait.
  cbn [stores chans datas arrays raft sched now trace w0 set_trace] in *.
  assert (Hs1 : stores w1 !! s = Some st) by (rewrite Hst1; exact Hs).
  assert (Haddr1 : Addr raftln (now w1) = Some raftAddr)
    by (rewrite Hnow1; exact Hat).
  destruct (open_join_cases s st addr raftln w1 Hs1 ltac:(eauto))
    as (jr & w2 & Hjoin & Hext & Hjcase).
  fold peers https in Hjcase.
  destruct Hjcase as [(Hnil & _)|(_ & a & Ha & Hmatch)]; [congruence|].
  rewrite Haddr1 in Ha. injection Ha as <-. cbn zeta in Hmatch.
  rewrite Hreg, Hsnap in Hmatch. destruct Hmatch as [Htr2 ->].
  unfold bind at 1. rewrite Hjoin. cbn [open_finish]. unfold bind at 1.
  assert (Hs2 : stores w2 !! s = Some st).
  { destruct Hext as (-> & _). exact Hs1. }
  destruct (open_locked_fresh s st members raftln w2 Hs2 Hfree Hop Hmk)
    as (w3 & st' & Hlock & Htr3 & _).
  fold members. rewrite Hlock.
  assert (Htrace3 :
            trace w3
            = trace w
              ++ log_events (logger st) ("Using data dir: " +:+ path st)
              ++ polls (now w) k (Some raftAddr)
              ++ [EvAddr (now w + 10 * Millisecond * Z.of_nat k) (Some raftAddr);
                  EvCreateMetaNode peers https addr raftAddr;
                  EvRetryUntilSnapshot;
                  EvLock; EvMkdirAll (path st); EvRaftOpen members; EvUnlock]).
  { rewrite Htr3, Htr2, Htr1, Hnow1. rewrite <- !app_assoc. reflexivity. }
  destruct (raft_open_result env members) as [msg|].
  - exists (Ret (Some (fmt_Errorf ("raft: " +:+ msg)))), w3, [].
    split; [reflexivity|]. split; [|reflexivity].
    rewrite Htrace3. cbn [app]. rewrite <- ?app_assoc. cbn [app].
    rewrite ?app_nil_r. reflexivity.
  - unfold waitForLeader, bind at 1, get.
    destruct (waitForLeader_loop_trace s 0 (sched w3) w3) as (rest & Hrest & Hf).
    destruct (waitForLeader_loop s 0 (sched w3) w3) as [r w'] eqn:Hloop.
    exists r, w', rest. split; [reflexivity|]. cbn [snd] in Hrest.
    split; [|apply read_lock_no_join; exact Hf].
    rewrite Hrest, Htrace3. rewrite <- ?app_assoc. reflexivity.
Qed.

(** ** The order of the join and the consensus module, in every run *)

Lemma join_order_quiet (members : list string) (stage : nat)
    (pre rest : list event) :
  forallb (fun e => negb (is_join_or_init e)) pre = true ->
  join_order members stage (pre ++ rest) = join_order members stage rest.
Proof.
  induction pre as [|e pre IH]; [reflexivity|]. cbn [forallb app].
  intros H. apply andb_prop in H as [He H].
  destruct e; cbn in He; try discriminate; cbn [join_order]; apply IH, H.
Qed.

Lemma join_order_all_quiet (members : list string) (stage : nat)
    (evs : list event) :
  forallb (fun e => negb (is_join_or_init e)) evs = true ->
  join_order members stage evs = true.
Proof.
  intros H. rewrite <- (app_nil_r evs). rewrite join_order_quiet by exact H.
  reflexivity.
Qed.

Lemma poll_no_join (evs : list event) :
  forallb is_poll evs = true ->
  forallb (fun e => negb (is_join_or_init e)) evs = true.
Proof.
  induction evs as [|e evs IH]; [reflexivity|]. cbn.
  intros H. apply andb_prop in H as [He H]. rewrite (IH H).
  destruct e; try discriminate; reflexivity.
Qed.

(** The section under the lock, case by case. *)
Lemma open_locked_cases (s : loc) (st : store) (ps : list string)
    (raftln : Listener) (w : World) :
  stores w !! s = Some st ->
  mu_free (mu st) = true ->
  exists r w' evs,
    open_locked env s ps raftln w = (r, w') /\
    trace w' = trace w ++ evs /\
    (evs = [EvLock; EvUnlock] \/
     evs = [EvLock; EvMkdirAll (path st); EvUnlock] \/
     evs = [EvLock; EvMkdirAll (path st); EvRaftOpen ps; EvUnlock]).
Proof.
  intros Hs Hfree.
  destruct (opened st) eqn:Hop.
  - rewrite (open_locked_opened s st ps raftln w Hs Hfree Hop).
    eexists _, _, _. split; [reflexivity|]. split; [reflexivity|]. auto.
  - destruct (MkdirAll_result env (path st)) as [msg|] eqn:Hmk.
    + eexists _, _, _. split.
      { unfold open_locked.
        eapply (with_Lock s st _ w _ _ (set_opened true (set_mu locked st)));
          [exact Hs | exact Hfree | | | | reflexivity].
        - unfold os_MkdirAll.
          unfold bind, load_store, update_store, emit, ret.
          repeat first [rewrite lookup_insert_eq | rewrite Hop | rewrite Hmk
                       | progress cbn].
          reflexivity.
        - discriminate.
        - cbn. rewrite !insert_insert_eq. apply lookup_insert_eq. }
      split; [|right; left; reflexivity].
      cbn. rewrite <- !app_assoc. reflexivity.
    + destruct (open_locked_fresh s st ps raftln w Hs Hfree Hop Hmk)
        as (w' & st' & Hrun & Htr & _).
      eexists _, w', _. split; [exact Hrun|]. split; [exact Htr|]. auto.
Qed.

(** What follows the section under the lock adds read locks only. *)
Lemma open_after_lock (s : loc) (err : option error) (w : World) :
  exists rest,
    trace (snd (match err with
                | Some e => ret (Some e)
                | None => waitForLeader s 0
                end w)) = trace w ++ rest /\
    forallb (fun e => negb (is_join_or_init e)) rest = true.
Proof.
  destruct err as [e|].
  - exists []. cbn. rewrite app_nil_r. auto.
  - unfold waitForLeader, bind, get.
    destruct (waitForLeader_loop_trace s 0 (sched w) w) as (rest & Ht & Hf).
    exists rest. split; [exact Ht|]. apply read_lock_no_join, Hf.
Qed.

(** C8.  For a store with seed peers: [joinCluster] returns the [TCPHost]
    of every member of the snapshot it fetched, in the snapshot's order.
    In every run of [open] the consensus module is opened, if at all, only
    after the registration and the fetch of the snapshot, and on exactly
    that list.  The run that gets there (the listener has an address in
    time, the store is not open yet, the join and the directory succeed)
    has the events in this order: the polls, the registration, the
    snapshot, the lock, the directory, the consensus module with the
    members' addresses. *)
Theorem open_joins_before_raft (s : loc) (st : store) (addr : string)
    (raftln : Listener) (w : World) :
  let peers := JoinPeers (config st) in
  let https := HTTPSEnabled (config st) in
  let members := snapshot_members env peers https in
  stores w !! s = Some st ->
  mu_free (mu st) = true ->
  peers <> [] ->
  (forall w0 raftAddr,
     stores w0 !! s = Some st ->
     CreateMetaNode_result env peers https addr raftAddr = None ->
     is_Some (retryUntilSnapshot_result env peers https) ->
     exists w0',
       joinCluster env s addr raftAddr peers w0 = (Ret (members, None), w0')) /\
  exists r w' evs,
    open env s addr raftln w = (r, w') /\
    trace w' = trace w ++ evs /\
    join_order members 0 evs = true /\
    forall (k : nat) (raftAddr : string),
      (k <= 101)%nat ->
      (forall j, (j < k)%nat ->
         Addr raftln (now w + 10 * Millisecond * Z.of_nat j) = None) ->
      Addr raftln (now w + 10 * Millisecond * Z.of_nat k) = Some raftAddr ->
      opened st = false ->
      CreateMetaNode_result env peers https addr raftAddr = None ->
      is_Some (retryUntilSnapshot_result env peers https) ->
      MkdirAll_result env (path st) = None ->
      exists rest,
        evs = log_events (logger st) ("Using data dir: " +:+ path st)
              ++ polls (now w) k (Some raftAddr)
              ++ [EvAddr (now w + 10 * Millisecond * Z.of_nat k)
                    (Some raftAddr);
                  EvCreateMetaNode peers https addr raftAddr;
                  EvRetryUntilSnapshot;
                  EvLock; EvMkdirAll (path st); EvRaftOpen members; EvUnlock]
              ++ rest.
Proof.
  intros peers https members Hs Hfree Hne.
  split.
  { intros w0 raftAddr Hs0 Hreg [[idx nodes] Hsnap].
    destruct (joinCluster_cases s st addr raftAddr peers w0 Hs0)
      as (r & w0' & Hrun & _ & Hcases).
    fold https peers in Hcases. rewrite Hreg, Hsnap in Hcases.
    destruct Hcases as [_ ->]. exists w0'.
    unfold members, snapshot_members. rewrite Hsnap. exact Hrun. }
  assert (Hall : exists r w' evs,
            open env s addr raftln w = (r, w') /\
            trace w' = trace w ++ evs /\
            join_order members 0 evs = true).
  { rewrite (open_stages s st addr raftln w Hs).
    unfold bind at 1. rewrite Printf_spec.
    unfold bind at 1. cbn [time_Now now set_trace].
    set (logev := log_events (logger st) ("Using data dir: " +:+ path st)).
    set (w0 := set_trace _ w). unfold bind at 1.
    destruct (raftln_wait raftln_turns raftln
                (now w + raftListenerStartupTimeout) w0) as [r1 w1] eqn:Hwait.
    destruct (raftln_wait_cases raftln _ _ _ _ _ Hwait)
      as ((Hst1 & Hch1 & Hd1 & Ha1 & Hr1 & Hsc1) & (evs0 & Htr1 & Hp0) & Hcase).
    cbn [stores chans datas arrays raft sched trace w0 set_trace] in *.
    assert (Hq0 : forallb (fun e => negb (is_join_or_init e)) (logev ++ evs0)
                  = true).
    { rewrite forallb_app. unfold logev.
      rewrite log_events_no_join, (poll_no_join _ Hp0). reflexivity. }
    destruct Hcase as [[-> Haddr]|[->| ->]].
    - assert (Hs1 : stores w1 !! s = Some st) by (rewrite Hst1; exact Hs).
      destruct (open_join_cases s st addr raftln w1 Hs1 Haddr)
        as (jr & w2 & Hjoin & Hext & Hjcase).
      fold peers https in Hjcase.
      destruct Hjcase as [(Hnil & _)|(_ & a & Ha & Hmatch)]; [congruence|].
      cbn zeta in Hmatch. unfold bind at 1. rewrite Hjoin.
      assert (Hs2 : stores w2 !! s = Some st).
      { destruct Hext as (-> & _). exact Hs1. }
      destruct (CreateMetaNode_result env peers https addr a) as [e|].
      + destruct Hmatch as [-> Htr2]. cbn [open_finish]. unfold ret.
        eexists _, w2, _. split; [reflexivity|]. split.
        * rewrite Htr2, Htr1, <- !app_assoc. reflexivity.
        * rewrite app_assoc, join_order_quiet by exact Hq0. reflexivity.
      + destruct Hmatch as [Htr2 Hsnap].
        destruct (retryUntilSnapshot_result env peers https)
          as [[idx nodes]|] eqn:Esnap.
        * rewrite Hsnap. cbn [open_finish]. unfold bind at 1.
          destruct (open_locked_cases s st (map TCPHost (default [] nodes))
                      raftln w2 Hs2 Hfree)
            as (r3 & w3 & evs3 & Hlock & Htr3 & Hevs3).
          rewrite Hlock.
          assert (Hmem : members = map TCPHost (default [] nodes)).
          { unfold members, snapshot_members. rewrite Esnap. reflexivity. }
          assert (Hord : forall rest,
                    forallb (fun e => negb (is_join_or_init e)) rest = true ->
                    join_order members 0
                      (logev ++ evs0
                       ++ [EvAddr (now w1) (Some a);
                           EvCreateMetaNode peers https addr a;
                           EvRetryUntilSnapshot] ++ evs3 ++ rest) = true).
          { intros rest Hrest.
            rewrite app_assoc, join_order_quiet by exact Hq0.
            destruct Hevs3 as [->|[->| ->]]; cbn [app join_order Nat.eqb andb].
            - apply join_order_all_quiet, Hrest.
            - apply join_order_all_quiet, Hrest.
            - rewrite <- Hmem.
              rewrite (bool_decide_eq_true_2 _ (eq_refl members)).
              cbn [andb]. apply join_order_all_quiet, Hrest. }
          destruct r3 as [err|msg|].
          -- destruct (open_after_lock s err w3) as (rest & Hrest & Hf).
             destruct (match err with
                       | Some e => ret (Some e)
                       | None => waitForLeader s 0
                       end w3) as [r w'] eqn:Hfin.
             cbn [snd] in Hrest.
             eexists r, w', _. split; [reflexivity|]. split.
             ++ rewrite Hrest, Htr3, Htr2, Htr1, <- !app_assoc. reflexivity.
             ++ apply (Hord rest Hf).
          -- eexists _, w3, _. split; [reflexivity|]. split.
             ++ rewrite Htr3, Htr2, Htr1, <- !app_assoc. reflexivity.
             ++ specialize (Hord [] eq_refl). rewrite app_nil_r in Hord.
                exact Hord.
          -- eexists _, w3, _. split; [reflexivity|]. split.
             ++ rewrite Htr3, Htr2, Htr1, <- !app_assoc. reflexivity.
             ++ specialize (Hord [] eq_refl). rewrite app_nil_r in Hord.
                exact Hord.
        * rewrite Hsnap. eexists _, w2, _. split; [reflexivity|]. split.
          -- rewrite Htr2, Htr1, <- !app_assoc. reflexivity.
          -- rewrite app_assoc, join_order_quiet by exact Hq0. reflexivity.
    - unfold ret. eexists _, w1, _. split; [reflexivity|]. split.
      + rewrite Htr1, <- app_assoc. reflexivity.
      + apply join_order_all_quiet, Hq0.
    - eexists _, w1, _. split; [reflexivity|]. split.
      + rewrite Htr1, <- app_assoc. reflexivity.
      + apply join_order_all_quiet, Hq0. }
  destruct Hall as (r & w' & evs & Hrun & Htr & Hord).
  exists r, w', evs. split; [exact Hrun|]. split; [exact Htr|].
  split; [exact Hord|].
  intros k raftAddr Hk Hbefore Hat Hop Hreg [[idx nodes] Hsnap] Hmk.
  destruct (open_join_run s st addr raftln w k raftAddr idx nodes
              Hs Hfree Hop Hne Hk Hbefore Hat Hreg Hsnap Hmk)
    as (_ & r0 & w0' & rest & Hrun0 & Htr0 & _).
  rewrite Hrun in Hrun0. injection Hrun0 as <- <-.
  exists rest. rewrite Htr in Htr0. apply app_inv_head in Htr0.
  rewrite Htr0. unfold members, snapshot_members. fold peers https.
  rewrite Hsnap. reflexivity.
Qed.

End Open.

Lemma open_listener_timeout_witness :
  stores Sample.world1 !! Sample.s1 = Some Sample.st1 /\
  (forall k, (k <= 101)%nat ->
     Addr Sample.ln_unbound
       (now Sample.world1 + 10 * Millisecond * Z.of_nat k) = None) /\
  exists w',
    open Sample.env Sample.s1 "10.0.0.2:8091" Sample.ln_unbound Sample.world1
    = (Ret (Some ErrListener), w') /\
    same_heap Sample.world1 w' /\
    now w' = now Sample.world1 + raftListenerStartupTimeout + 10 * Millisecond.
Proof.
  assert (H1 : stores Sample.world1 !! Sample.s1 = Some Sample.st1)
    by (vm_compute; reflexivity).
  assert (H2 : forall k, (k <= 101)%nat ->
            Addr Sample.ln_unbound
              (now Sample.world1 + 10 * Millisecond * Z.of_nat k) = None)
    by (intros; reflexivity).
  split; [exact H1|]. split; [exact H2|].
  destruct (open_listener_timeout Sample.env Sample.s1 Sample.st1
              "10.0.0.2:8091" Sample.ln_unbound Sample.world1 H1 H2)
    as ((w' & Hrun & Hh & Hnow & _) & _).
  exists w'. auto.
Defined.

(** ** [newStore] *)

Lemma newStore_wf (c : Config) (w : World) :
  exists s st w1,
    newStore c w = (Ret s, w1) /\
    wf_store w1 s st {| Index := 1; MetaNodes := None |} /\
    stores w !! s = None /\
    opened st = false /\ raftState st = None /\
    config st = c /\ path st = Dir c /\
    chans w1 !! closing st = Some false /\
    trace w1 = trace w.
Proof.
  unfold newStore, bind, alloc_data, make_chan, alloc_store. cbn.
  set (p := fresh (dom (datas w))).
  set (cl := fresh (dom (chans w))).
  set (dc := fresh (dom (<[cl := false]> (chans w)))).
  set (s := fresh (dom (stores w))).
  assert (Hne : cl <> dc).
  { intros E. apply (is_fresh (dom (<[cl := false]> (chans w)))).
    fold dc. rewrite <- E. rewrite dom_insert_L. set_solver. }
  eexists s, _, _. split; [reflexivity|].
  split.
  { constructor; cbn.
    - apply lookup_insert_eq.
    - reflexivity.
    - apply lookup_insert_eq.
    - discriminate.
    - apply lookup_insert_eq.
    - rewrite (lookup_insert_ne _ dc cl) by (apply not_eq_sym; exact Hne).
      rewrite lookup_insert_eq. eauto.
    - exact Hne.
    - lia. }
  repeat split; try reflexivity.
  - apply not_elem_of_dom. apply is_fresh.
  - cbn. rewrite (lookup_insert_ne _ dc cl) by (apply not_eq_sym; exact Hne).
    apply lookup_insert_eq.
Qed.

(** ** [afterIndex] *)

Lemma afterIndex_stale (s : loc) (st : store) (d : Data) (i : Z) (w : World) :
  stores w !! s = Some st ->
  writer_held (mu st) = false ->
  datas w !! data st = Some d ->
  i < Index d ->
  let ch := fresh (dom (chans w)) in
  afterIndex s i w
  = (Ret ch,
     set_trace (trace w ++ [EvRLock; EvChanClose ch; EvRUnlock])
       (set_chans (<[ch := true]> (chans w)) w)).
Proof.
  intros Hs Hw Hd Hi ch. unfold afterIndex.
  eapply eq_trans;
    [eapply (with_RLock s st); [exact Hs | exact Hw | |]|].
  - unfold bind, load_store, load_data, make_chan, close_chan. cbn.
    rewrite lookup_insert_eq. cbn. rewrite Hd.
    apply Z.ltb_lt in Hi. rewrite Hi. cbn. rewrite lookup_insert_eq.
    reflexivity.
  - reflexivity.
  - f_equal. cbn. fold ch. rewrite insert_insert_eq.
    unfold set_trace, set_stores, set_chans. cbn. rewrite <- !app_assoc.
    reflexivity.
Qed.

Lemma afterIndex_current (s : loc) (st : store) (d : Data) (i : Z) (w : World) :
  stores w !! s = Some st ->
  writer_held (mu st) = false ->
  datas w !! data st = Some d ->
  Index d <= i ->
  afterIndex s i w
  = (Ret (dataChanged st), set_trace (trace w ++ [EvRLock; EvRUnlock]) w).
Proof.
  intros Hs Hw Hd Hi. unfold afterIndex.
  eapply eq_trans;
    [eapply (with_RLock s st); [exact Hs | exact Hw | |]|].
  - unfold bind, load_store, load_data. cbn.
    rewrite lookup_insert_eq. cbn. rewrite Hd.
    apply Z.ltb_ge in Hi. rewrite Hi. reflexivity.
  - reflexivity.
  - f_equal. cbn. rewrite <- app_assoc. destruct w; reflexivity.
Qed.

(** ** The commit callback *)

Lemma wrap64_small (z : Z) : 0 <= z < 2 ^ 64 -> wrap64 z = z.
Proof. intros H. unfold wrap64. apply Z.mod_small. exact H. Qed.

Lemma wrap64_range (z : Z) : 0 <= wrap64 z < 2 ^ 64.
Proof. unfold wrap64. apply Z.mod_pos_bound. lia. Qed.

Lemma wrap64_succ (z n : Z) : wrap64 (wrap64 (z + 1) + n) = wrap64 (z + (1 + n)).
Proof.
  unfold wrap64. rewrite Zplus_mod_idemp_l. f_equal. lia.
Qed.

Lemma commit_spec (s : loc) (st : store) (d : Data)
    (m : list NodeInfo -> list NodeInfo) (w : World) :
  wf_store w s st d ->
  exists w' dc sl,
    commit s m w = (Ret tt, w') /\
    wf_store w' s (set_dataChanged dc st)
      {| Index := wrap64 (Index d + 1); MetaNodes := sl |} /\
    signaled w' (dataChanged st) = true /\
    chans w !! dc = None /\
    (forall c, c <> dataChanged st -> c <> dc -> chans w' !! c = chans w !! c) /\
    (forall q, q <> data st -> datas w' !! q = datas w !! q) /\
    (forall a, is_Some (arrays w !! a) -> MetaNodes d <> Some a ->
       arrays w' !! a = arrays w !! a) /\
    (forall nodes, deref w (data st) = Some (Index d, nodes) ->
       deref w' (data st) = Some (wrap64 (Index d + 1), m nodes)) /\
    (forall a, sl = Some a ->
       MetaNodes d = Some a \/ (MetaNodes d = None /\ arrays w !! a = None)).
Proof.
  intros [Hs Hfree Hd Harr Hdc Hcl Hne Hidx].
  assert (Hst : forall c, set_mu unlocked (set_dataChanged c (set_mu locked st))
                          = set_dataChanged c st).
  { intros c. apply mu_free_unlocked in Hfree. destruct st; cbn in *.
    subst. reflexivity. }
  set (chans1 := <[dataChanged st := true]> (chans w)).
  set (dc := fresh (dom chans1)).
  assert (Hdc1 : chans1 !! dc = None).
  { apply not_elem_of_dom. apply is_fresh. }
  assert (Hdcne : dc <> dataChanged st).
  { intros E. rewrite E in Hdc1. unfold chans1 in Hdc1.
    rewrite lookup_insert_eq in Hdc1. discriminate. }
  assert (Hdc0 : chans w !! dc = None).
  { unfold chans1 in Hdc1. rewrite lookup_insert_ne in Hdc1 by congruence.
    exact Hdc1. }
  assert (Hdccl : dc <> closing st).
  { intros E. rewrite E in Hdc0. destruct Hcl as [b Hb]. congruence. }
  unfold commit.
  destruct (MetaNodes d) as [a|] eqn:Ea.
  - destruct (Harr a eq_refl) as [l Hl].
    eexists _, dc, (Some a). split.
    { eapply (with_Lock s st _ w _ (Ret tt)
                (set_dataChanged dc (set_mu locked st)));
        [exact Hs | exact Hfree | | discriminate | | reflexivity].
      - unfold bind, load_store, load_data, load_slice, store_slice,
          store_data, emit, close_chan, make_chan, update_store. cbn.
        rewrite lookup_insert_eq. cbn. rewrite Hd. cbn. rewrite Ea, Hl. cbn.
        rewrite Hl. cbn. rewrite Hd. cbn. rewrite Hdc. cbn.
        rewrite lookup_insert_eq. fold chans1. fold dc. reflexivity.
      - cbn. apply lookup_insert_eq. }
    cbn. rewrite !insert_insert_eq, Hst.
    split; [|repeat split].
    + constructor; cbn.
      * apply lookup_insert_eq.
      * exact Hfree.
      * apply lookup_insert_eq.
      * intros a0 [= <-]. rewrite lookup_insert_eq. eauto.
      * apply lookup_insert_eq.
      * rewrite lookup_insert_ne by congruence.
        unfold chans1. rewrite lookup_insert_ne by congruence. exact Hcl.
      * congruence.
      * apply wrap64_range.
    + unfold signaled. cbn. rewrite lookup_insert_ne by congruence.
      unfold chans1. rewrite lookup_insert_eq. reflexivity.
    + exact Hdc0.
    + intros c Hc1 Hc2. rewrite lookup_insert_ne by congruence.
      unfold chans1. rewrite lookup_insert_ne by congruence. reflexivity.
    + intros q Hq. rewrite lookup_insert_ne by congruence. reflexivity.
    + intros a0 _ Ha0. rewrite lookup_insert_ne by congruence. reflexivity.
    + intros nodes Hnodes. unfold deref in *. cbn.
      rewrite Hd, Ea, Hl in Hnodes. injection Hnodes as <-.
      rewrite !lookup_insert_eq. cbn. rewrite lookup_insert_eq. reflexivity.
    + intros a0 [= <-]. left. reflexivity.
  - destruct (m []) as [|x l] eqn:Em.
    + eexists _, dc, None. split.
      { eapply (with_Lock s st _ w _ (Ret tt)
                  (set_dataChanged dc (set_mu locked st)));
          [exact Hs | exact Hfree | | discriminate | | reflexivity].
        - unfold bind, load_store, load_data, load_slice, store_slice,
            store_data, emit, close_chan, make_chan, update_store. cbn.
          rewrite lookup_insert_eq. cbn. rewrite Hd. cbn. rewrite Ea. cbn.
          rewrite Em. cbn. rewrite Hd. cbn. rewrite Hdc. cbn.
          rewrite lookup_insert_eq. fold chans1. fold dc. reflexivity.
        - cbn. apply lookup_insert_eq. }
      cbn. rewrite !insert_insert_eq, Hst.
      split; [|repeat split].
      * constructor; cbn.
        -- apply lookup_insert_eq.
        -- exact Hfree.
        -- apply lookup_insert_eq.
        -- discriminate.
        -- apply lookup_insert_eq.
        -- rewrite lookup_insert_ne by congruence.
           unfold chans1. rewrite lookup_insert_ne by congruence. exact Hcl.
        -- congruence.
        -- apply wrap64_range.
      * unfold signaled. cbn. rewrite lookup_insert_ne by congruence.
        unfold chans1. rewrite lookup_insert_eq. reflexivity.
      * exact Hdc0.
      * intros c Hc1 Hc2. rewrite lookup_insert_ne by congruence.
        unfold chans1. rewrite lookup_insert_ne by congruence. reflexivity.
      * intros q Hq. rewrite lookup_insert_ne by congruence. reflexivity.
      * intros nodes Hnodes. unfold deref in *. cbn.
        rewrite Hd, Ea in Hnodes. injection Hnodes as <-.
        rewrite !lookup_insert_eq. cbn. rewrite Em. reflexivity.
      * discriminate.
    + set (a := fresh (dom (arrays w))).
      assert (Ha : arrays w !! a = None).
      { apply not_elem_of_dom. apply is_fresh. }
      eexists _, dc, (Some a). split.
      { eapply (with_Lock s st _ w _ (Ret tt)
                  (set_dataChanged dc (set_mu locked st)));
          [exact Hs | exact Hfree | | discriminate | | reflexivity].
        - unfold bind, load_store, load_data, load_slice, store_slice,
            store_data, emit, close_chan, make_chan, update_store,
            alloc_array. cbn.
          rewrite lookup_insert_eq. cbn. rewrite Hd. cbn. rewrite Ea. cbn.
          rewrite Em. cbn. rewrite Hd. cbn. rewrite Hdc. cbn.
          rewrite lookup_insert_eq. fold chans1. fold dc. fold a.
          reflexivity.
        - cbn. apply lookup_insert_eq. }
      cbn. rewrite !insert_insert_eq, Hst.
      split; [|repeat split].
      * constructor; cbn.
        -- apply lookup_insert_eq.
        -- exact Hfree.
        -- apply lookup_insert_eq.
        -- intros a0 [= <-]. rewrite lookup_insert_eq. eauto.
        -- apply lookup_insert_eq.
        -- rewrite lookup_insert_ne by congruence.
           unfold chans1. rewrite lookup_insert_ne by congruence. exact Hcl.
        -- congruence.
        -- apply wrap64_range.
      * unfold signaled. cbn. rewrite lookup_insert_ne by congruence.
        unfold chans1. rewrite lookup_insert_eq. reflexivity.
      * exact Hdc0.
      * intros c Hc1 Hc2. rewrite lookup_insert_ne by congruence.
        unfold chans1. rewrite lookup_insert_ne by congruence. reflexivity.
      * intros q Hq. rewrite lookup_insert_ne by congruence. reflexivity.
      * intros a0 [l0 Hl0] _. rewrite lookup_insert_ne; [reflexivity|].
        intros E. rewrite <- E, Ha in Hl0. discriminate.
      * intros nodes Hnodes. unfold deref in *. cbn.
        rewrite Hd, Ea in Hnodes. injection Hnodes as <-.
        rewrite !lookup_insert_eq. cbn. rewrite lookup_insert_eq, Em.
        reflexivity.
      * intros a0 [= <-]. right. split; [reflexivity|exact Ha].
Qed.

(** A commit leaves a separate document alone. *)
Lemma commit_separate (s : loc) (st : store) (d : Data)
    (m : list NodeInfo -> list NodeInfo) (w : World) (p : loc) :
  wf_store w s st d ->
  exists w' st' d',
    commit s m w = (Ret tt, w') /\
    wf_store w' s st' d' /\
    data st' = data st /\
    Index d' = wrap64 (Index d + 1) /\
    (forall nodes, deref w (data st) = Some (Index d, nodes) ->
       deref w' (data st) = Some (Index d', m nodes)) /\
    (separate w st d p -> separate w' st' d' p /\ deref w' p = deref w p).
Proof.
  intros Hwf.
  destruct (commit_spec s st d m w Hwf)
    as (w' & dc & sl & Hrun & Hwf' & _ & _ & _ & Hdatas & Harrays & Hderef & Hsl).
  exists w', (set_dataChanged dc st), {| Index := wrap64 (Index d + 1); MetaNodes := sl |}.
  split; [exact Hrun|]. split; [exact Hwf'|]. split; [reflexivity|].
  split; [reflexivity|]. split; [exact Hderef|].
  intros (dp & Hp & Hpne & Hpa).
  assert (Hp' : datas w' !! p = Some dp) by (rewrite Hdatas; assumption).
  split.
  - exists dp. split; [exact Hp'|]. split; [exact Hpne|].
    intros a Ha. destruct (Hpa a Ha) as [Hin Hdiff]. split.
    + rewrite Harrays; assumption.
    + cbn. intros E. destruct (Hsl a E) as [E1|[_ E2]]; [congruence|].
      rewrite E2 in Hin. destruct Hin as [? ?]. discriminate.
  - unfold deref. rewrite Hp', Hp. destruct (MetaNodes dp) as [a|] eqn:Ea.
    + destruct (Hpa a eq_refl) as [Hin Hdiff].
      rewrite Harrays by assumption. reflexivity.
    + reflexivity.
Qed.

Lemma deref_wf (w : World) (s : loc) (st : store) (d : Data) :
  wf_store w s st d -> exists nodes, deref w (data st) = Some (Index d, nodes).
Proof.
  intros [_ _ Hd Harr _ _ _ _]. unfold deref. rewrite Hd.
  destruct (MetaNodes d) as [a|]; [|eauto].
  destruct (Harr a eq_refl) as [l Hl]. rewrite Hl. eauto.
Qed.

(** A sequence of commits: each returns, the counter advances by one per
    commit (modulo 2^64), the live document shows all the mutations, and a
    separate document shows none. *)
Lemma commits_spec (s : loc) (p : loc)
    (ms : list (list NodeInfo -> list NodeInfo)) :
  forall (w : World) (st : store) (d : Data) (nodes : list NodeInfo),
    wf_store w s st d ->
    deref w (data st) = Some (Index d, nodes) ->
    exists w' st' d',
      commits s ms w = (Ret tt, w') /\
      wf_store w' s st' d' /\
      data st' = data st /\
      Index d' = wrap64 (Index d + Z.of_nat (length ms)) /\
      deref w' (data st) = Some (Index d', apply_all ms nodes) /\
      (separate w st d p -> separate w' st' d' p /\ deref w' p = deref w p).
Proof.
  induction ms as [|m ms IH]; intros w st d nodes Hwf Hnodes.
  - exists w, st, d. cbn. rewrite Z.add_0_r.
    rewrite (wrap64_small _ (wf_index _ _ _ _ Hwf)).
    split; [reflexivity|]. split; [exact Hwf|]. split; [reflexivity|].
    split; [reflexivity|]. split; [exact Hnodes|]. auto.
  - destruct (commit_separate s st d m w p Hwf)
      as (w1 & st1 & d1 & Hrun1 & Hwf1 & Hdata1 & Hidx1 & Hder1 & Hsep1).
    specialize (Hder1 nodes Hnodes). rewrite <- Hdata1 in Hder1.
    destruct (IH w1 st1 d1 (m nodes) Hwf1 Hder1)
      as (w' & st' & d' & Hrun & Hwf' & Hdata & Hidx & Hder & Hsep).
    exists w', st', d'. cbn [commits]. unfold bind. rewrite Hrun1.
    split; [exact Hrun|]. split; [exact Hwf'|].
    split; [congruence|]. split; [|split].
    + rewrite Hidx, Hidx1. cbn [length]. rewrite wrap64_succ.
      f_equal. lia.
    + rewrite <- Hdata1. exact Hder.
    + intros Hs0. destruct (Hsep1 Hs0) as [Hs1 He1].
      destruct (Hsep Hs1) as [Hs2 He2]. split; [exact Hs2|congruence].
Qed.

Lemma commits_app (s : loc) (ms1 ms2 : list (list NodeInfo -> list NodeInfo))
    (w w1 : World) :
  commits s ms1 w = (Ret tt, w1) ->
  commits s (ms1 ++ ms2) w = commits s ms2 w1.
Proof.
  revert w. induction ms1 as [|m ms1 IH]; intros w H.
  - cbn in H. injection H as <-. reflexivity.
  - cbn [commits app] in *. unfold bind in *.
    destruct (commit s m w) as [[[]|msg|] w0]; try discriminate.
    apply IH. exact H.
Qed.

Lemma index_wf (s : loc) (w : World) (st : store) (d : Data) :
  wf_store w s st d -> fst (index s w) = Ret (Index d).
Proof.
  intros [Hs Hfree Hd _ _ _ _ _].
  rewrite (index_spec s st d w Hs); [reflexivity| |exact Hd].
  apply mu_free_unlocked in Hfree. rewrite Hfree. reflexivity.
Qed.

(** C5.  A new store's document has [Index] 1.  Every sequence of commits
    on it returns, and after [n] commits [index] reads [1 + n] (the
    counter is a [uint64]: modulo 2^64, so exactly [1 + n] below that
    bound); one more commit makes it one more. *)
Theorem index_counts_commits (c : Config) (w : World) :
  exists s w1,
    newStore c w = (Ret s, w1) /\
    fst (index s w1) = Ret 1 /\
    forall ms : list (list NodeInfo -> list NodeInfo),
    exists w',
      commits s ms w1 = (Ret tt, w') /\
      fst (index s w') = Ret (wrap64 (1 + Z.of_nat (length ms))) /\
      (1 + Z.of_nat (length ms) < 2 ^ 64 ->
       fst (index s w') = Ret (1 + Z.of_nat (length ms))) /\
      forall m, exists w'',
        commits s (ms ++ [m]) w1 = (Ret tt, w'') /\
        commit s m w' = (Ret tt, w'') /\
        fst (index s w'')
        = Ret (wrap64 (wrap64 (1 + Z.of_nat (length ms)) + 1)).
Proof.
  destruct (newStore_wf c w) as (s & st & w1 & Hnew & Hwf & _).
  exists s, w1. split; [exact Hnew|].
  split; [apply (index_wf _ _ _ _ Hwf)|].
  intros ms.
  destruct (deref_wf _ _ _ _ Hwf) as [nodes Hnodes].
  destruct (commits_spec s s ms w1 st _ nodes Hwf Hnodes)
    as (w' & st' & d' & Hrun & Hwf' & _ & Hi & _).
  cbn [Index] in Hi.
  exists w'. split; [exact Hrun|].
  split; [rewrite (index_wf _ _ _ _ Hwf'), Hi; reflexivity|].
  split.
  - intros Hlt. rewrite (index_wf _ _ _ _ Hwf'), Hi.
    rewrite wrap64_small by lia. reflexivity.
  - intros m.
    destruct (commit_separate s st' d' m w' s Hwf')
      as (w'' & st'' & d'' & Hrun' & Hwf'' & _ & Hi' & _).
    exists w''. split; [|split; [exact Hrun'|]].
    + rewrite (commits_app s ms [m] w1 w' Hrun). cbn [commits].
      unfold bind. rewrite Hrun'. reflexivity.
    + rewrite (index_wf _ _ _ _ Hwf''), Hi', Hi. reflexivity.
Qed.

(** ** [snapshot] *)

Lemma wf_store_trace (w : World) (s : loc) (st : store) (d : Data)
    (t : list event) :
  wf_store w s st d -> wf_store (set_trace t w) s st d.
Proof. intros [? ? ? ? ? ? ? ?]. constructor; assumption. Qed.

(** The clone is a new object with the same content; nothing that existed
    is changed. *)
Lemma Clone_spec (p : loc) (d : Data) (w : World) :
  datas w !! p = Some d ->
  (forall a, MetaNodes d = Some a -> is_Some (arrays w !! a)) ->
  exists p' w' dp,
    Clone p w = (Ret p', w') /\
    datas w !! p' = None /\
    datas w' = <[p' := dp]> (datas w) /\
    Index dp = Index d /\
    (forall a, MetaNodes dp = Some a ->
       arrays w !! a = None /\ is_Some (arrays w' !! a)) /\
    (forall a, is_Some (arrays w !! a) -> arrays w' !! a = arrays w !! a) /\
    deref w' p' = deref w p /\
    stores w' = stores w /\ chans w' = chans w /\
    trace w' = trace w ++ [EvClone p p'].
Proof.
  intros Hd Harr.
  set (p' := fresh (dom (datas w))).
  assert (Hp' : datas w !! p' = None) by (apply not_elem_of_dom, is_fresh).
  unfold Clone, bind, load_data. rewrite Hd.
  destruct (MetaNodes d) as [a|] eqn:Ea.
  - destruct (Harr a eq_refl) as [l Hl].
    set (a' := fresh (dom (arrays w))).
    assert (Ha' : arrays w !! a' = None) by (apply not_elem_of_dom, is_fresh).
    unfold load_slice, alloc_array, alloc_data, emit, ret. rewrite Hl. cbn.
    fold a' p'.
    eexists p', _, {| Index := Index d; MetaNodes := Some a' |}.
    split; [reflexivity|]. cbn. split; [exact Hp'|]. split; [reflexivity|].
    split; [reflexivity|]. split; [|split; [|split]].
    + intros a0 [= <-]. split; [exact Ha'|].
      rewrite lookup_insert_eq. eauto.
    + intros a0 [l0 Hl0]. rewrite lookup_insert_ne; [reflexivity|].
      intros E. rewrite <- E, Ha' in Hl0. discriminate.
    + unfold deref. cbn. rewrite lookup_insert_eq. cbn.
      rewrite lookup_insert_eq, Hd, Ea, Hl. reflexivity.
    + auto.
  - unfold alloc_data, emit, ret. cbn. fold p'.
    eexists p', _, {| Index := Index d; MetaNodes := None |}.
    split; [reflexivity|]. cbn. split; [exact Hp'|]. split; [reflexivity|].
    split; [reflexivity|]. split; [|split; [|split]].
    + discriminate.
    + reflexivity.
    + unfold deref. cbn. rewrite lookup_insert_eq. cbn.
      rewrite Hd, Ea. reflexivity.
    + auto.
Qed.

Lemma snapshot_spec (s : loc) (st : store) (d : Data) (w : World) :
  wf_store w s st d ->
  exists p w',
    snapshot s w = (Ret (p, None), w') /\
    trace w' = trace w ++ [EvRLock; EvClone (data st) p; EvRUnlock] /\
    datas w !! p = None /\
    deref w' p = deref w (data st) /\
    deref w' (data st) = deref w (data st) /\
    wf_store w' s st d /\
    separate w' st d p.
Proof.
  intros Hwf. destruct Hwf as [Hs Hfree Hd Harr Hdc Hcl Hne Hidx].
  assert (Hw : writer_held (mu st) = false).
  { apply mu_free_unlocked in Hfree. rewrite Hfree. reflexivity. }
  destruct (Clone_spec (data st) d (rlock_world s st w) Hd Harr)
    as (p & w1 & dp & Hrun & Hp & Hdatas & Hidp & Hown & Hkeep & Hder
        & Hst1 & Hch1 & Htr1).
  exists p, (set_trace (trace w1 ++ [EvRUnlock]) (set_stores (stores w) w1)).
  split.
  { unfold snapshot.
    eapply (with_RLock s st _ w w1); [exact Hs | exact Hw | | exact Hst1].
    unfold bind, load_store. cbn [stores rlock_world set_trace set_stores].
    rewrite lookup_insert_eq. cbn [data set_mu].
    unfold bind in Hrun. rewrite Hrun. reflexivity. }
  assert (Hpne : p <> data st).
  { intros E. rewrite E in Hp. cbn in Hp. congruence. }
  cbn [trace datas arrays chans stores set_trace set_stores].
  split; [|split; [exact Hp|split; [|split; [|split]]]].
  - rewrite Htr1. cbn. rewrite <- !app_assoc. reflexivity.
  - exact Hder.
  - unfold deref. cbn [datas arrays set_trace set_stores].
    rewrite Hdatas, lookup_insert_ne by congruence.
    cbn [datas arrays set_trace set_stores rlock_world]. rewrite Hd.
    destruct (MetaNodes d) as [a|] eqn:Ea; [|reflexivity].
    rewrite (Hkeep a (Harr a eq_refl)). reflexivity.
  - constructor; cbn [trace datas arrays chans stores set_trace set_stores].
    + exact Hs.
    + exact Hfree.
    + rewrite Hdatas, lookup_insert_ne by congruence. exact Hd.
    + intros a Ha. rewrite Hkeep; apply (Harr a Ha).
    + rewrite Hch1. exact Hdc.
    + rewrite Hch1. exact Hcl.
    + exact Hne.
    + exact Hidx.
  - exists dp. cbn [trace datas arrays chans stores set_trace set_stores].
    split; [rewrite Hdatas; apply lookup_insert_eq|]. split; [exact Hpne|].
    intros a Ha. destruct (Hown a Ha) as [Hnone Hsome].
    split; [exact Hsome|]. intros E.
    destruct (Harr a E) as [l Hl]. cbn in Hnone. congruence.
Qed.

(** C6.  [snapshot] returns, under the read lock, a clone of the document:
    a new object whose content is that of [s.data] at the call.  The clone
    shares nothing with the live document: whatever commits follow (each
    mutates the live document in place), the live document shows them all
    and the clone still reads as it did. *)
Theorem snapshot_independent (s : loc) (st : store) (d : Data) (w : World) :
  wf_store w s st d ->
  exists p w',
    snapshot s w = (Ret (p, None), w') /\
    trace w' = trace w ++ [EvRLock; EvClone (data st) p; EvRUnlock] /\
    datas w !! p = None /\
    deref w' p = deref w (data st) /\
    separate w' st d p /\
    forall ms : list (list NodeInfo -> list NodeInfo),
    exists w'',
      commits s ms w' = (Ret tt, w'') /\
      deref w'' p = deref w (data st) /\
      forall nodes,
        deref w (data st) = Some (Index d, nodes) ->
        deref w'' (data st)
        = Some (wrap64 (Index d + Z.of_nat (length ms)), apply_all ms nodes).
Proof.
  intros Hwf.
  destruct (snapshot_spec s st d w Hwf)
    as (p & w' & Hrun & Htr & Hfresh & Hder & Hlive0 & Hwf' & Hsep).
  exists p, w'. split; [exact Hrun|]. split; [exact Htr|].
  split; [exact Hfresh|]. split; [exact Hder|]. split; [exact Hsep|].
  intros ms.
  destruct (deref_wf _ _ _ _ Hwf') as [nodes' Hnodes'].
  destruct (commits_spec s p ms w' st d nodes' Hwf' Hnodes')
    as (w'' & st'' & d'' & Hrun' & _ & _ & Hidx & Hlive & Hclone).
  exists w''. split; [exact Hrun'|].
  destruct (Hclone Hsep) as [_ Heq]. split; [congruence|].
  intros nodes Hnodes.
  assert (nodes' = nodes) by congruence. subst nodes'.
  rewrite Hlive, Hidx. reflexivity.
Qed.

(** ** Calls other than a commit keep the store at rest *)

Lemma wf_writer_free (w : World) (s : loc) (st : store) (d : Data) :
  wf_store w s st d -> writer_held (mu st) = false.
Proof.
  intros Hwf. rewrite (mu_free_unlocked _ (wf_mu _ _ _ _ Hwf)). reflexivity.
Qed.

Lemma after_call_wf (s : loc) (st : store) (d : Data) (c : call) (w : World) :
  wf_store w s st d -> wf_store (after_call s c w) s st d.
Proof.
  intros Hwf. pose proof (wf_writer_free _ _ _ _ Hwf) as Hw.
  destruct c as [| |i| | |]; cbn [after_call].
  - destruct Hwf as [Hs Hfree Hd Harr Hdc [b Hcl] Hne Hidx].
    destruct b.
    + rewrite (close_again s st w Hs Hfree Hcl). cbn [snd].
      apply wf_store_trace. constructor; eauto.
    + rewrite (close_first s st w Hs Hfree Hcl). cbn [snd].
      apply wf_store_trace. constructor; cbn; try assumption.
      * rewrite lookup_insert_ne by exact Hne. exact Hdc.
      * rewrite lookup_insert_eq. eauto.
  - destruct (snapshot_spec s st d w Hwf) as (p & w' & Hrun & _ & _ & _ & _ & Hwf' & _).
    rewrite Hrun. exact Hwf'.
  - destruct (Z.lt_ge_cases i (Index d)) as [Hi|Hi].
    + rewrite (afterIndex_stale s st d i w (wf_present _ _ _ _ Hwf) Hw
                 (wf_data _ _ _ _ Hwf) Hi). cbn [snd].
      apply wf_store_trace.
      destruct Hwf as [Hs Hfree Hd Harr Hdc [b Hcl] Hne Hidx].
      set (ch := fresh (dom (chans w))).
      assert (Hch : chans w !! ch = None) by (apply not_elem_of_dom, is_fresh).
      constructor; cbn; try assumption.
      * rewrite lookup_insert_ne by congruence. exact Hdc.
      * rewrite lookup_insert_ne by congruence. eauto.
    + rewrite (afterIndex_current s st d i w (wf_present _ _ _ _ Hwf) Hw
                 (wf_data _ _ _ _ Hwf) Hi). cbn [snd].
      apply wf_store_trace. exact Hwf.
  - rewrite (index_spec s st d w (wf_present _ _ _ _ Hwf) Hw
               (wf_data _ _ _ _ Hwf)). cbn [snd].
    apply wf_store_trace. exact Hwf.
  - rewrite (leader_spec s st w (wf_present _ _ _ _ Hwf) Hw). cbn [snd].
    apply wf_store_trace. exact Hwf.
  - rewrite (isLeader_spec s st w (wf_present _ _ _ _ Hwf) Hw). cbn [snd].
    apply wf_store_trace. exact Hwf.
Qed.

Lemma after_calls_wf (s : loc) (st : store) (d : Data) (cs : list call) :
  forall w, wf_store w s st d -> wf_store (after_calls s cs w) s st d.
Proof.
  induction cs as [|c cs IH]; intros w Hwf; [exact Hwf|].
  cbn. apply IH. apply after_call_wf. exact Hwf.
Qed.

(** C2.  For a caller behind the document ([i < Index]), [afterIndex]
    returns a new channel that is already closed.  Otherwise it returns
    [s.dataChanged]; that handle stays unsignaled through every call of the
    store's interface other than a commit, and the next commit signals
    it. *)
Theorem afterIndex_handle (s : loc) (st : store) (d : Data) (i : Z)
    (w : World) :
  wf_store w s st d ->
  exists ch w',
    afterIndex s i w = (Ret ch, w') /\
    wf_store w' s st d /\
    (i < Index d ->
       signaled w' ch = true /\ chans w !! ch = None /\ ch <> dataChanged st) /\
    (Index d <= i ->
       ch = dataChanged st /\
       (forall cs, signaled (after_calls s cs w') ch = false) /\
       (forall cs m, exists w'',
          commit s m (after_calls s cs w') = (Ret tt, w'') /\
          signaled w'' ch = true)).
Proof.
  intros Hwf. pose proof (wf_writer_free _ _ _ _ Hwf) as Hw.
  pose proof (after_call_wf s st d (CallAfterIndex i) w Hwf) as Hwf'.
  cbn [after_call] in Hwf'.
  destruct (Z.lt_ge_cases i (Index d)) as [Hi|Hi].
  - rewrite (afterIndex_stale s st d i w (wf_present _ _ _ _ Hwf) Hw
               (wf_data _ _ _ _ Hwf) Hi) in *.
    cbn [snd] in Hwf'.
    eexists _, _. split; [reflexivity|]. split; [exact Hwf'|]. split.
    + intros _.
      assert (Hch : chans w !! fresh (dom (chans w)) = None)
        by (apply not_elem_of_dom, is_fresh).
      split; [|split; [exact Hch|]].
      * unfold signaled. cbn. rewrite lookup_insert_eq. reflexivity.
      * intros E. rewrite E in Hch.
        rewrite (wf_dataChanged _ _ _ _ Hwf) in Hch. discriminate.
    + intros Hge. lia.
  - rewrite (afterIndex_current s st d i w (wf_present _ _ _ _ Hwf) Hw
               (wf_data _ _ _ _ Hwf) Hi) in *.
    cbn [snd] in Hwf'.
    eexists _, _. split; [reflexivity|]. split; [exact Hwf'|]. split.
    + intros Hlt. lia.
    + intros _. split; [reflexivity|]. split.
      * intros cs. pose proof (after_calls_wf s st d cs _ Hwf') as Hcs.
        unfold signaled. rewrite (wf_dataChanged _ _ _ _ Hcs). reflexivity.
      * intros cs m. pose proof (after_calls_wf s st d cs _ Hwf') as Hcs.
        destruct (commit_spec s st d m _ Hcs)
          as (w'' & dc & sl & Hrun & _ & Hsig & _).
        exists w''. split; [exact Hrun|exact Hsig].
Qed.

Lemma Sample_wf :
  wf_store Sample.world1 Sample.s1 Sample.st1 {| Index := 1; MetaNodes := None |}.
Proof.
  constructor.
  - vm_compute; reflexivity.
  - reflexivity.
  - vm_compute; reflexivity.
  - discriminate.
  - vm_compute; reflexivity.
  - vm_compute; eauto.
  - vm_compute; discriminate.
  - cbn; lia.
Qed.

Lemma afterIndex_handle_witness :
  wf_store Sample.world1 Sample.s1 Sample.st1 {| Index := 1; MetaNodes := None |} /\
  exists ch w',
    afterIndex Sample.s1 1 Sample.world1 = (Ret ch, w') /\
    ch = dataChanged Sample.st1 /\
    signaled w' ch = false /\
    exists w'',
      commit Sample.s1 (fun l => l) w' = (Ret tt, w'') /\
      signaled w'' ch = true.
Proof.
  split; [exact Sample_wf|].
  destruct (afterIndex_handle Sample.s1 Sample.st1
              {| Index := 1; MetaNodes := None |} 1 Sample.world1 Sample_wf)
    as (ch & w' & Hrun & _ & _ & Hcur).
  destruct (Hcur ltac:(cbn; lia)) as (Hch & Hquiet & Hcommit).
  exists ch, w'. split; [exact Hrun|]. split; [exact Hch|].
  split; [exact (Hquiet [])|]. exact (Hcommit [] (fun l => l)).
Defined.

Lemma snapshot_independent_witness :
  wf_store Sample.world1 Sample.s1 Sample.st1 {| Index := 1; MetaNodes := None |} /\
  exists p w',
    snapshot Sample.s1 Sample.world1 = (Ret (p, None), w') /\
    deref w' p = Some (1, []) /\
    exists w'',
      commits Sample.s1 [fun _ => Sample.members] w' = (Ret tt, w'') /\
      deref w'' p = Some (1, []) /\
      deref w'' (data Sample.st1) = Some (2, Sample.members).
Proof.
  split; [exact Sample_wf|].
  destruct (snapshot_independent Sample.s1 Sample.st1
              {| Index := 1; MetaNodes := None |} Sample.world1 Sample_wf)
    as (p & w' & Hrun & _ & _ & Hder & _ & Hms).
  exists p, w'. split; [exact Hrun|]. split; [exact Hder|].
  destruct (Hms [fun _ => Sample.members]) as (w'' & Hrun' & Hclone & Hlive).
  exists w''. split; [exact Hrun'|]. split; [exact Hclone|].
  exact (Hlive [] eq_refl).
Defined.

(** C3 does not hold for every second [open]: a store with a seed peer
    whose first [open] returned [nil] is opened again; the cluster refuses
    the second registration, and [open] returns the join client's error,
    not [ErrStoreOpen]. *)
Lemma open_already_opened_counterexample :
  fst Sample.first_open = Ret None /\
  stores Sample.world3 !! Sample.s1 = Some Sample.st3 /\
  opened Sample.st3 = true /\
  fst (open Sample.env_taken Sample.s1 "10.0.0.2:8091" Sample.ln_bound
         Sample.world3)
  = Ret (Some (errorString "node exists")) /\
  fst (open Sample.env_taken Sample.s1 "10.0.0.2:8091" Sample.ln_bound
         Sample.world3)
  <> Ret (Some ErrStoreOpen).
Proof.
  split; [vm_compute; reflexivity|].
  split; [vm_compute; reflexivity|].
  split; [reflexivity|].
  split; [vm_compute; reflexivity|].
  vm_compute. discriminate.
Qed.

Lemma open_already_opened_witness :
  stores Sample.world3 !! Sample.s1 = Some Sample.st3 /\
  mu_free (mu Sample.st3) = true /\
  opened Sample.st3 = true /\
  exists w',
    open Sample.env Sample.s1 "10.0.0.2:8091" Sample.ln_late Sample.world3
    = (Ret (Some ErrStoreOpen), w') /\
    stores w' = stores Sample.world3 /\
    chans w' = chans Sample.world3.
Proof.
  assert (H1 : stores Sample.world3 !! Sample.s1 = Some Sample.st3)
    by (vm_compute; reflexivity).
  assert (H2 : mu_free (mu Sample.st3) = true) by reflexivity.
  assert (H3 : opened Sample.st3 = true) by reflexivity.
  split; [exact H1|]. split; [exact H2|]. split; [exact H3|].
  destruct (open_already_opened Sample.env Sample.s1 Sample.st3
              "10.0.0.2:8091" Sample.ln_late Sample.world3 H1 H2 H3)
    as (r & w' & Hrun & Hst & Hch & _ & _ & _ & _ & _ & Hopen).
  exists w'. split; [|split; [exact Hst|exact Hch]].
  rewrite Hrun. f_equal.
  apply (Hopen 3%nat "10.0.0.2:8088"); [lia| |reflexivity|].
  - intros j Hj. destruct j as [|[|[|j]]]; [reflexivity..|lia].
  - right. split; [reflexivity|]. vm_compute. eauto.
Defined.

Lemma open_joins_before_raft_witness :
  stores Sample.world1j !! Sample.s1 = Some Sample.st1j /\
  mu_free (mu Sample.st1j) = true /\
  JoinPeers (config Sample.st1j) <> [] /\
  exists r w' rest,
    open Sample.env Sample.s1 "10.0.0.2:8091" Sample.ln_late Sample.world1j
    = (r, w') /\
    trace w'
    = trace Sample.world1j
      ++ [EvLog "[metastore] Using data dir: /var/lib/influxdb/meta"]
      ++ polls 0 3 (Some "10.0.0.2:8088")
      ++ [EvAddr (30 * Millisecond) (Some "10.0.0.2:8088");
          EvCreateMetaNode ["10.0.0.1:8091"] false "10.0.0.2:8091"
            "10.0.0.2:8088";
          EvRetryUntilSnapshot;
          EvLock; EvMkdirAll "/var/lib/influxdb/meta";
          EvRaftOpen ["10.0.0.1:8088"; "10.0.0.2:8088"]; EvUnlock]
      ++ rest.
Proof.
  assert (H1 : stores Sample.world1j !! Sample.s1 = Some Sample.st1j)
    by (vm_compute; reflexivity).
  assert (H2 : mu_free (mu Sample.st1j) = true) by reflexivity.
  assert (H3 : JoinPeers (config Sample.st1j) <> []) by discriminate.
  split; [exact H1|]. split; [exact H2|]. split; [exact H3|].
  destruct (open_joins_before_raft Sample.env Sample.s1 Sample.st1j
              "10.0.0.2:8091" Sample.ln_late Sample.world1j H1 H2 H3)
    as (_ & r & w' & evs & Hrun & Htr & _ & Hdetail).
  destruct (Hdetail 3%nat "10.0.0.2:8088") as (rest & Hevs).
  - lia.
  - intros j Hj. destruct j as [|[|[|j]]]; [reflexivity..|lia].
  - reflexivity.
  - reflexivity.
  - reflexivity.
  - vm_compute. eauto.
  - reflexivity.
  - exists r, w', rest. split; [exact Hrun|]. rewrite Htr, Hevs. reflexivity.
Defined.

End StoreFacts.

(** * Properties of the service *)

Section ServiceFacts.

Import Meta Inv MetaService.
Local Open Scope go_scope.

(** Without an HTTP listener, [Close] is the store's [close]. *)
Lemma Close_without_listener (sv : Service) (s : loc) (w : World) :
  ln sv = None ->
  store sv = Some s ->
  Close sv w = close s w.
Proof.
  intros Hln Hst. unfold Close. rewrite Hln, Hst. unfold bind.
  destruct (close s w) as [[[e|]|msg|] w1]; reflexivity.
Qed.

(** C10.  With an HTTP listener set, [Close] returns what closing that
    listener returns; the only event is the listener's close, and the
    stores, the channels (so the closing signal too) and the documents are
    what they were. *)
Theorem Close_with_listener (sv : Service) (l : HTTPListener) (w : World) :
  ln sv = Some l ->
  exists w',
    Close sv w = (Ret (ln_Close_result l), w') /\
    trace w' = trace w ++ [EvListenerClose] /\
    stores w' = stores w /\
    chans w' = chans w /\
    datas w' = datas w /\
    (forall c, signaled w' c = signaled w c).
Proof.
  intros Hln. unfold Close. rewrite Hln.
  eexists. split; [reflexivity|]. repeat split; reflexivity.
Qed.

Lemma Close_with_listener_witness :
  ln Sample.service = Some Sample.http_ln /\
  exists w',
    Close Sample.service Sample.world1
    = (Ret (ln_Close_result Sample.http_ln), w') /\
    trace w' = trace Sample.world1 ++ [EvListenerClose] /\
    stores w' = stores Sample.world1 /\
    chans w' = chans Sample.world1 /\
    datas w' = datas Sample.world1 /\
    (forall c, signaled w' c = signaled Sample.world1 c).
Proof.
  split; [reflexivity|].
  apply (Close_with_listener Sample.service Sample.http_ln Sample.world1).
  reflexivity.
Defined.

End ServiceFacts.

(** * More on the node file: [NewNode], and [Save] on every file system *)

Section NodeLoad.

Import filepath influxdb Inv.

Variable unmarshal : string -> Z * list string -> Z * list string + error.

Lemma NewNode_entries (dir : string) (fs : FS) :
  entries (snd (NewNode unmarshal dir fs)) = entries fs.
Proof.
  unfold NewNode, os_Open.
  destruct (entries fs !! Join [dir; nodeFile]); reflexivity.
Qed.

(** What [NewNode] returns depends on the entries of the file system
    only. *)
Lemma NewNode_reads_entries (dir : string) (fs fs' : FS) :
  entries fs = entries fs' ->
  fst (NewNode unmarshal dir fs) = fst (NewNode unmarshal dir fs').
Proof.
  intros E. unfold NewNode, os_Open. rewrite E.
  destruct (entries fs' !! Join [dir; nodeFile]) as [e|]; cbn.
  - unfold Decode, File_Read. cbn. rewrite E. reflexivity.
  - reflexivity.
Qed.

(** X1.  In a directory without a node file [NewNode] does not return a
    new, empty node: the missing file is let through, the decoder reads
    from the nil file, and [NewNode] returns [os.ErrInvalid].  Its only
    call on the file system is the open. *)
Theorem NewNode_missing_file (dir : string) (fs : FS) :
  entries fs !! nodePath dir = None ->
  NewNode unmarshal dir fs
  = (inr ErrInvalid,
     {| entries := entries fs;
        calls := calls fs ++ [FsOpen (nodePath dir) O_RDONLY] |}).
Proof.
  unfold nodePath, NewNode, os_Open.
  destruct (entries fs !! Join [dir; nodeFile]); [discriminate|reflexivity].
Qed.

(** X2.  Whenever [NewNode] returns a node, the node file exists as a
    regular file whose content the decoder accepted; the node has the
    directory it was asked for as its path and the decoded fields, and the
    file was opened read-only, closed again, and no entry changed. *)
Theorem NewNode_returns_node (dir : string) (fs fs' : FS) (n : Node) :
  NewNode unmarshal dir fs = (inl n, fs') ->
  exists content id servers,
    entries fs !! nodePath dir = Some (RegularFile content) /\
    unmarshal content (0, []) = inl (id, servers) /\
    n = {| path := dir; ID := id; MetaServers := servers |} /\
    entries fs' = entries fs /\
    calls fs' = calls fs ++ [FsOpen (nodePath dir) O_RDONLY;
                             FsClose (nodePath dir)].
Proof.
  unfold nodePath, NewNode, os_Open.
  generalize (Join [dir; nodeFile]). intros nm.
  destruct (entries fs !! nm) as [[content|]|] eqn:E; cbn.
  - unfold Decode, File_Read. cbn. rewrite E. cbn.
    destruct (unmarshal content (0, [])) as [[id servers]|e] eqn:U;
      intros H; [|discriminate].
    injection H as <- <-. exists content, id, servers.
    split; [reflexivity|]. split; [exact U|]. split; [reflexivity|].
    split; [reflexivity|]. cbn. rewrite <- ?app_assoc. reflexivity.
  - unfold Decode, File_Read. cbn. rewrite E. discriminate.
  - discriminate.
Qed.

Variable marshal : Node -> string.

(** X3.  [Save] makes nothing that [NewNode] could load: after a [Save] of
    any node into any file system, [NewNode] returns for every directory
    what it returned before. *)
Theorem Save_then_NewNode (n : Node) (dir : string) (fs : FS) :
  fst (NewNode unmarshal dir (snd (Save marshal n fs)))
  = fst (NewNode unmarshal dir fs).
Proof. apply NewNode_reads_entries. apply Save_entries. Qed.


End NodeLoad.

Lemma NewNode_missing_file_witness :
  influxdb.entries Sample.fs !! Inv.nodePath "/var/lib/influxdb/meta" = None /\
  influxdb.NewNode Sample.unmarshal "/var/lib/influxdb/meta" Sample.fs
  = (inr influxdb.ErrInvalid,
     {| influxdb.entries := influxdb.entries Sample.fs;
        influxdb.calls :=
          influxdb.calls Sample.fs
          ++ [influxdb.FsOpen (Inv.nodePath "/var/lib/influxdb/meta")
                influxdb.O_RDONLY] |}).
Proof.
  split; [vm_compute; reflexivity|].
  apply (NewNode_missing_file Sample.unmarshal "/var/lib/influxdb/meta"
           Sample.fs).
  vm_compute; reflexivity.
Defined.

Lemma NewNode_returns_node_witness :
  exists n fs',
    influxdb.NewNode Sample.unmarshal "/var/lib/influxdb" Sample.fs_saved
    = (inl n, fs') /\
    influxdb.path n = "/var/lib/influxdb" /\
    influxdb.ID n = 7 /\
    influxdb.entries fs' = influxdb.entries Sample.fs_saved.
Proof.
  destruct (influxdb.NewNode Sample.unmarshal "/var/lib/influxdb"
              Sample.fs_saved) as [[n|e] fs'] eqn:E;
    [|vm_compute in E; discriminate].
  destruct (NewNode_returns_node Sample.unmarshal "/var/lib/influxdb"
              Sample.fs_saved fs' n E)
    as (content & id & servers & Hfile & Hdec & -> & Hentries & _).
  eexists _, fs'. split; [reflexivity|]. split; [reflexivity|].
  split; [|exact Hentries].
  vm_compute in Hfile. injection Hfile as <-.
  vm_compute in Hdec. injection Hdec as <- _. reflexivity.
Defined.

(** * More on the service: a service that was never opened *)

Section ServiceNew.

Import Meta Inv MetaService.
Local Open Scope go_scope.

(** X5.  [NewService] does not keep its [node] argument and leaves the
    listeners and the store nil: [Addr] is nil, [URL] is the configured
    HTTP address, no store exists yet, and [Close] on the new service
    dereferences the nil store and panics. *)
Theorem NewService_Close_panics (c : Config) (n : option influxdb.Node)
    (w : World) :
  exists sv w1,
    NewService c n w = (Ret sv, w1) /\
    node sv = None /\ ln sv = None /\ store sv = None /\
    RaftListener sv = None /\
    Addr sv = None /\ URL sv = HTTPBindAddress c /\
    chans w !! Err sv = None /\
    stores w1 = stores w /\ trace w1 = trace w /\
    Close sv w1 = (Panic nil_deref, w1).
Proof.
  unfold NewService, bind, make_chan, ret.
  eexists _, _. split; [reflexivity|]. cbn.
  repeat (split; [reflexivity|]).
  split; [apply not_elem_of_dom, is_fresh|].
  repeat split; reflexivity.
Qed.

End ServiceNew.

(** * More on the store *)

Section StoreMore.

Import Meta Inv.
Local Open Scope go_scope.

(** ** The read accessors and the mutex *)

Lemma RLock_held (s : loc) (st : store) (w : World) :
  stores w !! s = Some st ->
  writer_held (mu st) = true ->
  RLock s w = (Blocked, w).
Proof.
  intros Hs Hw. unfold RLock, bind, load_store. rewrite Hs, Hw. reflexivity.
Qed.

Lemma blocked_on_RLock {A : Type} (s : loc) (st : store) (body : M A)
    (w : World) :
  stores w !! s = Some st ->
  writer_held (mu st) = true ->
  (RLock s ;;; defer (RUnlock s) body) w = (Blocked, w).
Proof.
  intros Hs Hw. unfold bind. rewrite (RLock_held s st w Hs Hw). reflexivity.
Qed.

(** X6.  While a writer holds the store's mutex none of the read methods
    returns: [snapshot], [afterIndex], [isLeader], [leader] and [index]
    wait on the read lock, and nothing has changed by then. *)
Theorem readers_wait_for_writer (s : loc) (st : store) (i : Z) (w : World) :
  stores w !! s = Some st ->
  writer_held (mu st) = true ->
  snapshot s w = (Blocked, w) /\
  afterIndex s i w = (Blocked, w) /\
  isLeader s w = (Blocked, w) /\
  leader s w = (Blocked, w) /\
  index s w = (Blocked, w).
Proof.
  intros Hs Hw.
  repeat split; eapply blocked_on_RLock; eassumption.
Qed.

(** X7.  On a store without a consensus module [leader] is the empty
    string and [isLeader] is false, whatever the module would report and
    however many other readers hold the mutex; the calls return with the
    store as it was. *)
Theorem leader_without_raft (s : loc) (st : store) (w : World) :
  stores w !! s = Some st ->
  writer_held (mu st) = false ->
  raftState st = None ->
  leader s w = (Ret "", set_trace (trace w ++ [EvRLock; EvRUnlock]) w) /\
  isLeader s w = (Ret false, set_trace (trace w ++ [EvRLock; EvRUnlock]) w).
Proof.
  intros Hs Hw Hrs.
  rewrite (leader_spec s st w Hs Hw), (isLeader_spec s st w Hs Hw), Hrs.
  split; reflexivity.
Qed.

(** ** [close] and the rest of the store *)

(** X8.  [close] signals the closing channel and does nothing else: the
    store object keeps its [opened] flag and its consensus module, the
    documents and every other channel are as before, and [leader] and
    [isLeader] answer after the [close] as they did before it. *)
Theorem close_keeps_store (s : loc) (st : store) (w : World) :
  stores w !! s = Some st ->
  mu_free (mu st) = true ->
  chans w !! closing st = Some false ->
  exists w1,
    close s w = (Ret None, w1) /\
    signaled w1 (closing st) = true /\
    stores w1 = stores w /\ datas w1 = datas w /\ arrays w1 = arrays w /\
    (forall c, c <> closing st -> chans w1 !! c = chans w !! c) /\
    fst (leader s w1) = fst (leader s w) /\
    fst (isLeader s w1) = fst (isLeader s w).
Proof.
  intros Hs Hfree Hc.
  assert (Hw : writer_held (mu st) = false).
  { rewrite (mu_free_unlocked _ Hfree). reflexivity. }
  eexists. split; [apply (close_first s st w Hs Hfree Hc)|].
  cbn [stores datas arrays chans set_trace set_chans].
  split; [unfold signaled; cbn; rewrite lookup_insert_eq; reflexivity|].
  repeat (split; [reflexivity|]). split; [|split].
  - intros c Hne. apply lookup_insert_ne. congruence.
  - rewrite (leader_spec s st w Hs Hw).
    erewrite (leader_spec s st); [reflexivity|exact Hs|exact Hw].
  - rewrite (isLeader_spec s st w Hs Hw).
    erewrite (isLeader_spec s st); [reflexivity|exact Hs|exact Hw].
Qed.

(** ** [newStore] and what exists already *)

(** X9.  [newStore] builds on new objects only: the store, its document
    and its two channels are at addresses that were not in use, the two
    channels differ, and every store, document and channel that existed
    is unchanged. *)
Theorem newStore_fresh (c : Config) (w : World) :
  exists s st w1,
    newStore c w = (Ret s, w1) /\
    stores w !! s = None /\
    datas w !! data st = None /\
    chans w !! closing st = None /\
    chans w !! dataChanged st = None /\
    closing st <> dataChanged st /\
    stores w1 = <[s := st]> (stores w) /\
    datas w1 = <[data st := {| Index := 1; MetaNodes := None |}]> (datas w) /\
    chans w1 = <[dataChanged st := false]> (<[closing st := false]> (chans w)) /\
    arrays w1 = arrays w /\ trace w1 = trace w /\
    (forall s0 st0, stores w !! s0 = Some st0 -> stores w1 !! s0 = Some st0) /\
    (forall c0 b, chans w !! c0 = Some b -> chans w1 !! c0 = Some b) /\
    (forall p d, datas w !! p = Some d -> datas w1 !! p = Some d).
Proof.
  unfold newStore, bind, alloc_data, make_chan, alloc_store. cbn.
  set (p := fresh (dom (datas w))).
  set (cl := fresh (dom (chans w))).
  set (dc := fresh (dom (<[cl := false]> (chans w)))).
  set (s := fresh (dom (stores w))).
  assert (Hs : stores w !! s = None) by (apply not_elem_of_dom, is_fresh).
  assert (Hp : datas w !! p = None) by (apply not_elem_of_dom, is_fresh).
  assert (Hcl : chans w !! cl = None) by (apply not_elem_of_dom, is_fresh).
  assert (Hdc1 : <[cl := false]> (chans w) !! dc = None)
    by (apply not_elem_of_dom, is_fresh).
  assert (Hne : cl <> dc).
  { intros E. rewrite <- E, lookup_insert_eq in Hdc1. discriminate. }
  assert (Hdc : chans w !! dc = None).
  { rewrite lookup_insert_ne in Hdc1 by exact Hne. exact Hdc1. }
  exists s,
    {| mu := unlocked; closing := cl; config := c; data := p;
       raftState := None; dataChanged := dc; path := Dir c; opened := false;
       logger := if LoggingEnabled c
                 then log_New Stderr "[metastore] " LstdFlags
                 else log_New Discard EmptyString 0;
       authCache := None |}.
  eexists. split; [reflexivity|]. cbn.
  split; [exact Hs|]. split; [exact Hp|]. split; [exact Hcl|].
  split; [exact Hdc|]. split; [exact Hne|].
  repeat (split; [reflexivity|]). split; [|split].
  - intros s0 st0 H0. rewrite lookup_insert_ne; [exact H0|]. congruence.
  - intros c0 b H0. rewrite !lookup_insert_ne; [exact H0| |]; congruence.
  - intros p0 d H0. rewrite lookup_insert_ne; [exact H0|]. congruence.
Qed.

(** ** [waitForLeader] without a consensus module *)

Lemma leader_held (s : loc) (st : store) (w : World) :
  stores w !! s = Some st ->
  writer_held (mu st) = true ->
  leader s w = (Blocked, w).
Proof. intros Hs Hw. apply (blocked_on_RLock s st _ w Hs Hw). Qed.

(** X10.  On a store to which no consensus module is attached
    [waitForLeader] never returns [nil]: whatever the ticks report, it ends
    by the closing signal or the timeout only, or stays blocked. *)
Theorem waitForLeader_without_raft (s : loc) (st : store) (timeout : Z)
    (w : World) :
  stores w !! s = Some st ->
  raftState st = None ->
  fst (waitForLeader s timeout w) <> Ret None.
Proof.
  intros Hs Hrs. unfold waitForLeader, bind, get.
  generalize (sched w) as ws. intros ws. revert w Hs.
  induction ws as [|wk ws IH]; intros w Hs.
  { cbn [waitForLeader_loop]. unfold bind, load_store, get. rewrite Hs.
    destruct (signaled w (closing st)); discriminate. }
  cbn [waitForLeader_loop]. unfold bind at 1.
  destruct wk as [| |v]; cbn [receive].
  - cbn [stores set_sched]. rewrite Hs. discriminate.
  - destruct (negb (timeout =? 0)%Z); [discriminate|]. apply IH. exact Hs.
  - unfold bind at 1. destruct (writer_held (mu st)) eqn:Hw.
    + rewrite (leader_held s st (set_raft v (set_sched ws w)) Hs Hw).
      discriminate.
    + rewrite (leader_spec s st (set_raft v (set_sched ws w)) Hs Hw), Hrs.
      cbn [String.eqb negb]. apply IH. exact Hs.
Qed.

End StoreMore.

Lemma readers_wait_for_writer_witness :
  Meta.stores (Inv.lock_world Sample.s1 Sample.st1 Sample.world1) !! Sample.s1
  = Some (Meta.set_mu Inv.locked Sample.st1) /\
  Meta.writer_held (Meta.mu (Meta.set_mu Inv.locked Sample.st1)) = true /\
  Meta.index Sample.s1 (Inv.lock_world Sample.s1 Sample.st1 Sample.world1)
  = (Blocked, Inv.lock_world Sample.s1 Sample.st1 Sample.world1).
Proof.
  assert (H1 : Meta.stores (Inv.lock_world Sample.s1 Sample.st1 Sample.world1)
               !! Sample.s1 = Some (Meta.set_mu Inv.locked Sample.st1))
    by (vm_compute; reflexivity).
  assert (H2 : Meta.writer_held
                 (Meta.mu (Meta.set_mu Inv.locked Sample.st1)) = true)
    by reflexivity.
  split; [exact H1|]. split; [exact H2|].
  apply (readers_wait_for_writer Sample.s1 _ 0 _ H1 H2).
Defined.

Lemma leader_without_raft_witness :
  Meta.stores Sample.world1 !! Sample.s1 = Some Sample.st1 /\
  Meta.writer_held (Meta.mu Sample.st1) = false /\
  Meta.raftState Sample.st1 = None /\
  fst (Meta.leader Sample.s1 (Meta.set_raft Sample.view1 Sample.world1))
  = Ret "".
Proof.
  assert (H1 : Meta.stores (Meta.set_raft Sample.view1 Sample.world1) !! Sample.s1
               = Some Sample.st1) by (vm_compute; reflexivity).
  split; [vm_compute; reflexivity|]. split; [reflexivity|].
  split; [reflexivity|].
  destruct (leader_without_raft Sample.s1 Sample.st1 _ H1 eq_refl eq_refl)
    as [-> _].
  reflexivity.
Defined.

Lemma close_keeps_store_witness :
  Meta.stores Sample.world3 !! Sample.s1 = Some Sample.st3 /\
  Meta.mu_free (Meta.mu Sample.st3) = true /\
  Meta.chans Sample.world3 !! Meta.closing Sample.st3 = Some false /\
  exists w1,
    Meta.close Sample.s1 Sample.world3 = (Ret None, w1) /\
    Meta.stores w1 !! Sample.s1 = Some Sample.st3 /\
    fst (Meta.leader Sample.s1 w1) = Ret "10.0.0.1:8088".
Proof.
  assert (H1 : Meta.stores Sample.world3 !! Sample.s1 = Some Sample.st3)
    by (vm_compute; reflexivity).
  assert (H3 : Meta.chans Sample.world3 !! Meta.closing Sample.st3
               = Some false) by (vm_compute; reflexivity).
  split; [exact H1|]. split; [reflexivity|]. split; [exact H3|].
  destruct (close_keeps_store Sample.s1 Sample.st3 Sample.world3 H1 eq_refl H3)
    as (w1 & Hrun & _ & Hst & _ & _ & _ & Hl & _).
  exists w1. split; [exact Hrun|]. split; [rewrite Hst; exact H1|].
  rewrite Hl. vm_compute. reflexivity.
Defined.

Lemma waitForLeader_without_raft_witness :
  Meta.stores Sample.world1 !! Sample.s1 = Some Sample.st1 /\
  Meta.raftState Sample.st1 = None /\
  fst (Meta.waitForLeader Sample.s1 0
         (Meta.set_sched [Meta.WTicker Sample.view1; Meta.WTimer]
            Sample.world1))
  <> Ret None.
Proof.
  split; [vm_compute; reflexivity|]. split; [reflexivity|].
  apply (waitForLeader_without_raft Sample.s1 Sample.st1);
    [vm_compute; reflexivity|reflexivity].
Defined.

(** * More on [open] *)

Section OpenMore.

Import Meta Inv.
Local Open Scope go_scope.

Variable env : Env.

(** ** The listener wait and the clock *)

Lemma raftln_wait_clock (raftln : Listener) (deadline : Z) (fuel : nat) :
  forall w r w',
    raftln_wait fuel raftln deadline w = (r, w') ->
    now w <= deadline + 10 * Millisecond ->
    now w <= now w' <= deadline + 10 * Millisecond /\
    (r = Ret (Some ErrListener) ->
     deadline < now w' /\ Addr raftln (now w') = None) /\
    (r = Ret None -> is_Some (Addr raftln (now w'))).
Proof.
  pose proof tick_positive as Hpos.
  induction fuel as [|n IH]; intros w r w' H Hle.
  - cbn [raftln_wait] in H. injection H as <- <-.
    split; [lia|]. split; intros E; discriminate.
  - cbn [raftln_wait] in H. unfold bind at 1 in H. cbn [Listener_Addr] in H.
    destruct (Addr raftln (now w)) as [a|] eqn:Ea.
    + injection H as <- <-. cbn [now set_trace].
      split; [lia|]. split; [intros E; discriminate|].
      intros _. rewrite Ea. eauto.
    + unfold bind at 1 in H. cbn [time_Now now set_trace] in H.
      destruct (deadline <? now w)%Z eqn:E.
      * injection H as <- <-. cbn [now set_trace]. apply Z.ltb_lt in E.
        split; [lia|].
        split; [intros _; split; [exact E|exact Ea]|intros E0; discriminate].
      * apply Z.ltb_ge in E.
        unfold bind at 1 in H. cbn [time_Sleep] in H.
        apply IH in H; [|cbn [now set_trace set_now]; lia].
        cbn [now set_trace set_now] in H.
        destruct H as (Hb & He & Hok).
        split; [lia|]. split; assumption.
Qed.

(** X11.  The wait for the raft listener at the start of [open] always
    comes to an end, and within the start-up timeout plus one sleep of
    10 ms: it ends with the listener error only once the deadline has
    passed with the listener still unbound, and it goes on to the rest of
    [open] only at an instant at which the listener has an address. *)
Theorem listener_wait_bounded (raftln : Listener) (w : World) :
  let r := raftln_wait raftln_turns raftln
             (now w + raftListenerStartupTimeout) w in
  fst r <> Blocked /\
  now w <= now (snd r)
        <= now w + raftListenerStartupTimeout + 10 * Millisecond /\
  (fst r = Ret (Some ErrListener) ->
   now w + raftListenerStartupTimeout < now (snd r) /\
   Addr raftln (now (snd r)) = None) /\
  (fst r = Ret None -> is_Some (Addr raftln (now (snd r)))).
Proof.
  pose proof tick_positive as Hpos. cbn zeta. split.
  - pose proof (open_wait_returns raftln w (trace w)) as H.
    replace (set_trace (trace w) w) with w in H by (destruct w; reflexivity).
    exact H.
  - destruct (raftln_wait raftln_turns raftln
                (now w + raftListenerStartupTimeout) w) as [r w'] eqn:Hrun.
    cbn [fst snd]. apply (raftln_wait_clock _ _ _ _ _ _ Hrun).
    unfold raftListenerStartupTimeout, Second, Millisecond, Nanosecond. lia.
Qed.

(** ** The section of [open] under the lock *)

Lemma open_locked_run (s : loc) (st : store) (ps : list string)
    (raftln : Listener) (w : World) :
  stores w !! s = Some st ->
  mu_free (mu st) = true ->
  opened st = false ->
  open_locked env s ps raftln w
  = match MkdirAll_result env (path st) with
    | Some msg =>
        (Ret (Some (fmt_Errorf ("mkdir all: " +:+ msg))),
         set_trace (trace w ++ [EvLock; EvMkdirAll (path st); EvUnlock])
           (set_stores (<[s := set_opened true st]> (stores w)) w))
    | None =>
        match raft_open_result env ps with
        | Some msg =>
            (Ret (Some (fmt_Errorf ("raft: " +:+ msg))),
             set_trace (trace w ++ [EvLock; EvMkdirAll (path st);
                                    EvRaftOpen ps; EvUnlock])
               (set_stores (<[s := set_opened true st]> (stores w)) w))
        | None =>
            (Ret None,
             set_trace (trace w ++ [EvLock; EvMkdirAll (path st);
                                    EvRaftOpen ps; EvUnlock])
               (set_stores (<[s := attached st]> (stores w)) w))
        end
    end.
Proof.
  intros Hs Hfree Hop. unfold open_locked.
  assert (Hbody : forall st1,
            st1 = match MkdirAll_result env (path st),
                        raft_open_result env ps with
                  | None, None =>
                      set_raftState
                        (Some {| rs_config := config st;
                                 rs_logger := logger st;
                                 rs_path := path st |})
                        (set_opened true (set_mu locked st))
                  | _, _ => set_opened true (set_mu locked st)
                  end ->
            exists r w1,
              (st0 <- load_store s ;;
               if opened st0
               then ret (Some ErrStoreOpen)
               else
                 update_store s (set_opened true) ;;;
                 e <- os_MkdirAll env (path st0) ;;
                 match e with
                 | Some e => ret (Some (fmt_Errorf ("mkdir all: " +:+ Error e)))
                 | None =>
                     e <- openRaft env s ps raftln ;;
                     match e with
                     | Some e => ret (Some (fmt_Errorf ("raft: " +:+ Error e)))
                     | None => ret None
                     end
                 end) (lock_world s st w) = (Ret r, w1) /\
              stores w1 = <[s := st1]> (stores w) /\
              chans w1 = chans w /\ datas w1 = datas w /\
              arrays w1 = arrays w /\ raft w1 = raft w /\
              sched w1 = sched w /\ now w1 = now w /\
              r = match MkdirAll_result env (path st) with
                  | Some msg => Some (fmt_Errorf ("mkdir all: " +:+ msg))
                  | None =>
                      match raft_open_result env ps with
                      | Some msg => Some (fmt_Errorf ("raft: " +:+ msg))
                      | None => None
                      end
                  end /\
              trace w1
              = trace w
                ++ match MkdirAll_result env (path st) with
                   | Some _ => [EvLock; EvMkdirAll (path st)]
                   | None => [EvLock; EvMkdirAll (path st); EvRaftOpen ps]
                   end).
  { intros st1 ->.
    unfold os_MkdirAll, openRaft, raftState_open.
    unfold bind, load_store, update_store, emit, ret.
    destruct (MkdirAll_result env (path st)) as [msg|] eqn:Hmk;
      [|destruct (raft_open_result env ps) as [msg|] eqn:Eraft];
      repeat first [rewrite lookup_insert_eq | rewrite Hop | rewrite Hmk
                   | rewrite Eraft | progress cbn];
      eexists _, _; (split; [reflexivity|]); cbn;
      rewrite ?insert_insert_eq, <- ?app_assoc;
      repeat split; reflexivity. }
  destruct (Hbody _ eq_refl)
    as (r & w1 & Hrun & Hst1 & Hch1 & Hd1 & Ha1 & Hr1 & Hsc1 & Hn1 & Hr & Htr1).
  erewrite (with_Lock s st _ w w1 (Ret r));
    [ | exact Hs | exact Hfree | exact Hrun | discriminate
      | rewrite Hst1; apply lookup_insert_eq
      | destruct (MkdirAll_result env (path st));
        [|destruct (raft_open_result env ps)]; reflexivity ].
  rewrite Hst1, insert_insert_eq, Htr1, Hr.
  assert (Hw1 : w1 = set_trace (trace w1)
                       (set_stores (stores w1) w)).
  { clear Hrun Hbody Hs Hr Hst1 Htr1. destruct w1, w. cbn in *. subst.
    reflexivity. }
  rewrite Hw1. cbn [set_trace set_stores trace stores now chans datas arrays
                      raft sched].
  destruct (MkdirAll_result env (path st)) as [msg|];
    [|destruct (raft_open_result env ps) as [msg|]];
    rewrite ?(set_opened_unlocked st Hfree),
            ?(set_fields_unlocked st _ Hfree), <- ?app_assoc;
    reflexivity.
Qed.

(** ** The wait for a leader, as a function of the schedule *)

Lemma waitForLeader_loop_result (s : loc) (st : store) (ws : list wake) :
  writer_held (mu st) = false ->
  forall w r w',
    stores w !! s = Some st ->
    waitForLeader_loop s 0 ws w = (r, w') ->
    r = wait_result st (signaled w (closing st)) ws /\
    stores w' = stores w.
Proof.
  intros Hw. unfold wait_result.
  induction ws as [|wk ws IH]; intros w r w' Hs H.
  { cbn [waitForLeader_loop] in H. unfold bind, load_store, get in H.
    rewrite Hs in H. cbn [find].
    destruct (signaled w (closing st)); injection H as <- <-;
      split; reflexivity. }
  cbn [waitForLeader_loop] in H. unfold bind at 1 in H.
  destruct wk as [| |v]; cbn [receive find quiet negb Z.eqb] in H |- *.
  - cbn [stores set_sched] in H. rewrite Hs in H. cbn [ret] in H.
    injection H as <- <-. destruct (signaled _ _); split; reflexivity.
  - eapply IH in H; [exact H|exact Hs].
  - unfold bind at 1 in H.
    rewrite (leader_spec s st (set_raft v (set_sched ws w)) Hs Hw) in H.
    destruct (raftState st) as [rs|].
    + cbn [raft set_raft set_sched] in H.
      destruct (String.eqb (raft_Leader v) "") eqn:E; cbn [negb] in H |- *.
      * eapply IH in H; [exact H|exact Hs].
      * injection H as <- <-. split; reflexivity.
    + cbn [String.eqb negb] in H |- *. eapply IH in H; [exact H|exact Hs].
Qed.

(** ** From the call of [open] to the lock *)

Lemma open_to_lock (s : loc) (st : store) (addr : string)
    (raftln : Listener) (w : World) (k : nat) (raftAddr : string)
    (ps : list string) :
  stores w !! s = Some st ->
  (k <= 101)%nat ->
  (forall j, (j < k)%nat ->
     Addr raftln (now w + 10 * Millisecond * Z.of_nat j) = None) ->
  Addr raftln (now w + 10 * Millisecond * Z.of_nat k) = Some raftAddr ->
  join_outcome env st addr raftAddr = Some ps ->
  exists w2,
    open env s addr raftln w = open_finish env s raftln (ps, None) w2 /\
    heap_extends w w2 /\
    trace w2 = trace w ++ open_prefix st addr (now w) k raftAddr.
Proof.
  intros Hs Hk Hbefore Hat Hjo.
  rewrite (open_stages env s st addr raftln w Hs).
  unfold bind at 1. rewrite Printf_spec.
  unfold bind at 1. cbn [time_Now now set_trace].
  set (w0 := set_trace _ w). unfold bind at 1.
  destruct (raftln_wait_polls raftln (now w + raftListenerStartupTimeout)
              (Some raftAddr) k raftln_turns w0)
    as (w1 & Hwait & (Hst1 & Hch1 & Hd1 & Ha1 & Hr1 & Hsc1) & Hnow1 & Htr1).
  { change raftln_turns with 102%nat. lia. }
  { exact Hbefore. }
  { exact Hat. }
  { cbn [now w0 set_trace].
    unfold raftListenerStartupTimeout, Second, Millisecond, Nanosecond. lia. }
  { discriminate. }
  rewrite Hwait.
  cbn [stores chans datas arrays raft sched now trace w0 set_trace] in *.
  assert (Hs1 : stores w1 !! s = Some st) by (rewrite Hst1; exact Hs).
  assert (Haddr1 : Addr raftln (now w1) = Some raftAddr)
    by (rewrite Hnow1; exact Hat).
  destruct (open_join_cases env s st addr raftln w1 Hs1 ltac:(eauto))
    as (jr & w2 & Hjoin & Hext & Hjcase).
  cbn zeta in Hjcase. unfold bind at 1. rewrite Hjoin.
  assert (Hext2 : heap_extends w w2).
  { destruct Hext as (e1 & e2 & e3 & e4 & e5 & e6).
    unfold heap_extends. rewrite <- Hd1, <- Ha1.
    repeat split; [congruence..|exact e5|exact e6]. }
  exists w2. unfold open_prefix, join_outcome, join_events in *.
  destruct Hjcase as [(Hnil & -> & Htr2)|(Hne & a & Ha & Hmatch)].
  - rewrite Hnil in Hjo |- *. injection Hjo as <-.
    split; [reflexivity|]. split; [exact Hext2|].
    rewrite Htr2, Htr1, app_nil_r, <- !app_assoc. reflexivity.
  - rewrite Haddr1 in Ha. injection Ha as <-.
    destruct (JoinPeers (config st)) as [|p peers] eqn:Ep; [congruence|].
    destruct (CreateMetaNode_result env (p :: peers)
                (HTTPSEnabled (config st)) addr raftAddr); [discriminate|].
    destruct Hmatch as [Htr2 Hr].
    destruct (retryUntilSnapshot_result env (p :: peers)
                (HTTPSEnabled (config st))) as [[idx nodes]|];
      [|discriminate].
    injection Hjo as <-. rewrite Hr.
    split; [reflexivity|]. split; [exact Hext2|].
    rewrite Htr2, Htr1, Hnow1, <- !app_assoc. reflexivity.
Qed.

Section Run.

Variables (s : loc) (st : store) (addr : string) (raftln : Listener)
  (w : World) (k : nat) (raftAddr : string) (ps : list string).

Hypothesis Hstore : stores w !! s = Some st.
Hypothesis Hfree : mu_free (mu st) = true.
Hypothesis Hfirst : opened st = false.
Hypothesis Hturns : (k <= 101)%nat.
Hypothesis Hunbound :
  forall j, (j < k)%nat ->
    Addr raftln (now w + 10 * Millisecond * Z.of_nat j) = None.
Hypothesis Hbound :
  Addr raftln (now w + 10 * Millisecond * Z.of_nat k) = Some raftAddr.
Hypothesis Hjoined : join_outcome env st addr raftAddr = Some ps.

(** X12.  When [os.MkdirAll] fails, [open] returns its message behind
    "mkdir all: " and never calls the consensus module; the store is
    left with [opened] set although nothing was opened, and without a
    consensus module. *)
Theorem open_mkdir_failure (msg : string) :
  MkdirAll_result env (path st) = Some msg ->
  exists w',
    open env s addr raftln w
    = (Ret (Some (errorString ("mkdir all: " +:+ msg))), w') /\
    stores w' = <[s := set_opened true st]> (stores w) /\
    chans w' = chans w /\
    trace w' = trace w ++ open_prefix st addr (now w) k raftAddr
               ++ [EvLock; EvMkdirAll (path st); EvUnlock].
Proof.
  intros Hmk.
  destruct (open_to_lock s st addr raftln w k raftAddr ps
              Hstore Hturns Hunbound Hbound Hjoined)
    as (w2 & Hrun & (Hst2 & Hch2 & _) & Htr2).
  assert (Hs2 : stores w2 !! s = Some st) by (rewrite Hst2; exact Hstore).
  rewrite Hrun. cbn [open_finish]. unfold bind at 1.
  rewrite (open_locked_run s st ps raftln w2 Hs2 Hfree Hfirst), Hmk.
  eexists. split; [reflexivity|]. cbn. rewrite Hst2, Hch2, Htr2.
  repeat split; try reflexivity. rewrite <- !app_assoc. reflexivity.
Qed.

(** X13.  When the consensus module fails to open, [open] returns its
    message behind "raft: "; the module was asked with the peers of the
    join, [opened] stays set and the [raftState] field is not assigned. *)
Theorem open_raft_failure (msg : string) :
  MkdirAll_result env (path st) = None ->
  raft_open_result env ps = Some msg ->
  exists w',
    open env s addr raftln w
    = (Ret (Some (errorString ("raft: " +:+ msg))), w') /\
    stores w' = <[s := set_opened true st]> (stores w) /\
    chans w' = chans w /\
    trace w' = trace w ++ open_prefix st addr (now w) k raftAddr
               ++ [EvLock; EvMkdirAll (path st); EvRaftOpen ps; EvUnlock].
Proof.
  intros Hmk Hraft.
  destruct (open_to_lock s st addr raftln w k raftAddr ps
              Hstore Hturns Hunbound Hbound Hjoined)
    as (w2 & Hrun & (Hst2 & Hch2 & _) & Htr2).
  assert (Hs2 : stores w2 !! s = Some st) by (rewrite Hst2; exact Hstore).
  rewrite Hrun. cbn [open_finish]. unfold bind at 1.
  rewrite (open_locked_run s st ps raftln w2 Hs2 Hfree Hfirst), Hmk, Hraft.
  eexists. split; [reflexivity|]. cbn. rewrite Hst2, Hch2, Htr2.
  repeat split; try reflexivity. rewrite <- !app_assoc. reflexivity.
Qed.

(** X14.  Once the consensus module is open, the result of [open] is that
    of the wait for a leader without timeout.  On a store that is not
    closed yet it is [nil] at the first tick at which a leader is known,
    the error "closing" when the closing signal comes first, and no return
    while neither happens.  On a store whose closing channel was closed
    before [open] was called, [open] returns the error "closing" when no
    tick with a leader is delivered any more.  In each case, the error
    included, the store is left opened, with the module attached that
    carries the store's logger and path. *)
Theorem open_waits_for_leader :
  MkdirAll_result env (path st) = None ->
  raft_open_result env ps = None ->
  exists r w',
    open env s addr raftln w = (r, w') /\
    stores w' = <[s := attached st]> (stores w) /\
    (signaled w (closing st) = false \/
     forallb (quiet 0 (attached st)) (sched w) = true ->
     r = wait_result (attached st) (signaled w (closing st)) (sched w)).
Proof.
  intros Hmk Hraft.
  destruct (open_to_lock s st addr raftln w k raftAddr ps
              Hstore Hturns Hunbound Hbound Hjoined)
    as (w2 & Hrun & (Hst2 & Hch2 & Hr2 & Hsc2 & _) & Htr2).
  assert (Hs2 : stores w2 !! s = Some st) by (rewrite Hst2; exact Hstore).
  rewrite Hrun. cbn [open_finish]. unfold bind at 1.
  rewrite (open_locked_run s st ps raftln w2 Hs2 Hfree Hfirst), Hmk, Hraft.
  unfold waitForLeader, bind at 1, get. cbn [sched set_trace set_stores].
  set (w3 := set_trace _ _).
  assert (Hs3 : stores w3 !! s = Some (attached st))
    by (cbn; apply lookup_insert_eq).
  assert (Hw3 : writer_held (mu (attached st)) = false).
  { cbn. rewrite (mu_free_unlocked _ Hfree). reflexivity. }
  assert (Hc3 : signaled w3 (closing (attached st)) = signaled w (closing st)).
  { unfold signaled. cbn. rewrite Hch2. reflexivity. }
  destruct (waitForLeader_loop s 0 (sched w2) w3) as [r w'] eqn:Hloop.
  destruct (waitForLeader_loop_result s (attached st) (sched w2) Hw3 w3 r w'
              Hs3 Hloop) as [Hres Hstores].
  exists r, w'. split; [reflexivity|]. split.
  - rewrite Hstores. cbn. rewrite Hst2. reflexivity.
  - intros _. rewrite Hres, Hsc2, Hc3. reflexivity.
Qed.

End Run.

(** X15.  When the cluster refuses the registration, [open] returns the
    join client's error as it is, right after the call: the lock is never
    taken, neither the directory nor the consensus module is touched, and
    the store is not marked as opened. *)
Theorem open_join_failure (s : loc) (st : store) (addr : string)
    (raftln : Listener) (w : World) (k : nat) (raftAddr : string)
    (e : error) :
  let peers := JoinPeers (config st) in
  let https := HTTPSEnabled (config st) in
  stores w !! s = Some st ->
  (k <= 101)%nat ->
  (forall j, (j < k)%nat ->
     Addr raftln (now w + 10 * Millisecond * Z.of_nat j) = None) ->
  Addr raftln (now w + 10 * Millisecond * Z.of_nat k) = Some raftAddr ->
  peers <> [] ->
  CreateMetaNode_result env peers https addr raftAddr = Some e ->
  exists w',
    open env s addr raftln w = (Ret (Some e), w') /\
    stores w' = stores w /\ chans w' = chans w /\
    trace w' = trace w
               ++ log_events (logger st) ("Using data dir: " +:+ path st)
               ++ polls (now w) k (Some raftAddr)
               ++ [EvAddr (now w + 10 * Millisecond * Z.of_nat k)
                     (Some raftAddr);
                   EvCreateMetaNode peers https addr raftAddr].
Proof.
  intros peers https Hs Hk Hbefore Hat Hne Hreg.
  rewrite (open_stages env s st addr raftln w Hs).
  unfold bind at 1. rewrite Printf_spec.
  unfold bind at 1. cbn [time_Now now set_trace].
  set (w0 := set_trace _ w). unfold bind at 1.
  destruct (raftln_wait_polls raftln (now w + raftListenerStartupTimeout)
              (Some raftAddr) k raftln_turns w0)
    as (w1 & Hwait & (Hst1 & Hch1 & Hd1 & Ha1 & Hr1 & Hsc1) & Hnow1 & Htr1).
  { change raftln_turns with 102%nat. lia. }
  { exact Hbefore. }
  { exact Hat. }
  { cbn [now w0 set_trace].
    unfold raftListenerStartupTimeout, Second, Millisecond, Nanosecond. lia. }
  { discriminate. }
  rewrite Hwait.
  cbn [stores chans datas arrays raft sched now trace w0 set_trace] in *.
  assert (Hs1 : stores w1 !! s = Some st) by (rewrite Hst1; exact Hs).
  assert (Haddr1 : Addr raftln (now w1) = Some raftAddr)
    by (rewrite Hnow1; exact Hat).
  destruct (open_join_cases env s st addr raftln w1 Hs1 ltac:(eauto))
    as (jr & w2 & Hjoin & (Hst2 & Hch2 & _) & Hjcase).
  fold peers https in Hjcase.
  destruct Hjcase as [(Hnil & _)|(_ & a & Ha & Hmatch)]; [congruence|].
  rewrite Haddr1 in Ha. injection Ha as <-. cbn zeta in Hmatch.
  rewrite Hreg in Hmatch. destruct Hmatch as [-> Htr2].
  unfold bind at 1. rewrite Hjoin. cbn [open_finish]. unfold ret.
  exists w2. split; [reflexivity|].
  rewrite Hst2, Hch2, Hst1, Hch1, Htr2, Htr1, Hnow1, <- !app_assoc.
  repeat split; reflexivity.
Qed.

(** ** Runs without seed peers *)

Lemma seedless_quiet (evs : list event) :
  forallb (fun e => negb (is_join_or_init e)) evs = true ->
  forallb seedless evs = true.
Proof.
  induction evs as [|e evs IH]; [reflexivity|]. cbn [forallb].
  intros H. apply andb_true_iff in H as [He Hrest].
  rewrite (IH Hrest), andb_true_r. destruct e; try reflexivity; discriminate.
Qed.

(** X16.  Without seed peers [open] never calls the join client, and when
    it opens the consensus module it does so on the empty list of peers:
    in every run, whatever the listener, the collaborators and the
    schedule do. *)
Theorem open_without_seed_peers (s : loc) (st : store) (addr : string)
    (raftln : Listener) (w : World) :
  stores w !! s = Some st ->
  mu_free (mu st) = true ->
  JoinPeers (config st) = [] ->
  exists evs,
    trace (snd (open env s addr raftln w)) = trace w ++ evs /\
    forallb seedless evs = true.
Proof.
  intros Hs Hfree Hnil.
  rewrite (open_stages env s st addr raftln w Hs).
  unfold bind at 1. rewrite Printf_spec.
  unfold bind at 1. cbn [time_Now now set_trace].
  set (logev := log_events (logger st) ("Using data dir: " +:+ path st)).
  set (w0 := set_trace _ w). unfold bind at 1.
  destruct (raftln_wait raftln_turns raftln
              (now w + raftListenerStartupTimeout) w0) as [r1 w1] eqn:Hwait.
  destruct (raftln_wait_cases raftln _ _ _ _ _ Hwait)
    as ((Hst1 & Hch1 & Hd1 & Ha1 & Hr1 & Hsc1) & (evs0 & Htr1 & Hp0) & Hcase).
  cbn [stores chans datas arrays raft sched trace w0 set_trace] in *.
  assert (Hq0 : forallb seedless (logev ++ evs0) = true).
  { apply seedless_quiet. rewrite forallb_app. unfold logev.
    rewrite log_events_no_join, (poll_no_join _ Hp0). reflexivity. }
  destruct Hcase as [[-> Haddr]|[->| ->]].
  - assert (Hs1 : stores w1 !! s = Some st) by (rewrite Hst1; exact Hs).
    unfold bind at 1. unfold open_join. rewrite Hnil.
    cbn [length Nat.ltb Nat.leb ret open_finish]. unfold bind at 1.
    destruct (open_locked_cases env s st [] raftln w1 Hs1 Hfree)
      as (r3 & w3 & evs3 & Hlock & Htr3 & Hevs3).
    rewrite Hlock.
    assert (Hq3 : forallb seedless evs3 = true).
    { destruct Hevs3 as [->|[->| ->]]; reflexivity. }
    destruct r3 as [err|msg|].
    + destruct (open_after_lock s err w3) as (rest & Hrest & Hf).
      exists ((logev ++ evs0) ++ evs3 ++ rest). split.
      * rewrite Hrest, Htr3, Htr1, <- !app_assoc. reflexivity.
      * rewrite !forallb_app, Hq3, (seedless_quiet _ Hf).
        rewrite forallb_app in Hq0. rewrite Hq0. reflexivity.
    + exists ((logev ++ evs0) ++ evs3). split.
      * cbn [snd]. rewrite Htr3, Htr1, <- !app_assoc. reflexivity.
      * rewrite forallb_app, Hq0, Hq3. reflexivity.
    + exists ((logev ++ evs0) ++ evs3). split.
      * cbn [snd]. rewrite Htr3, Htr1, <- !app_assoc. reflexivity.
      * rewrite forallb_app, Hq0, Hq3. reflexivity.
  - exists (logev ++ evs0). split; [|exact Hq0].
    cbn [snd ret]. rewrite Htr1, <- app_assoc. reflexivity.
  - exists (logev ++ evs0). split; [|exact Hq0].
    cbn [snd]. rewrite Htr1, <- app_assoc. reflexivity.
Qed.

End OpenMore.

Section OpenSamples.

Import Meta Inv.

Lemma open_mkdir_failure_witness :
  stores Sample.world1j !! Sample.s1 = Some Sample.st1j /\
  MkdirAll_result Sample.env_nodir (path Sample.st1j)
  = Some "permission denied" /\
  exists w',
    open Sample.env_nodir Sample.s1 "10.0.0.2:8091" Sample.ln_late
      Sample.world1j
    = (Ret (Some (errorString "mkdir all: permission denied")), w') /\
    stores w' !! Sample.s1 = Some (set_opened true Sample.st1j) /\
    trace w'
    = [EvLog "[metastore] Using data dir: /var/lib/influxdb/meta"]
      ++ polls 0 3 (Some "10.0.0.2:8088")
      ++ [EvAddr (30 * Millisecond) (Some "10.0.0.2:8088");
          EvCreateMetaNode ["10.0.0.1:8091"] false "10.0.0.2:8091"
            "10.0.0.2:8088";
          EvRetryUntilSnapshot;
          EvLock; EvMkdirAll "/var/lib/influxdb/meta"; EvUnlock].
Proof.
  assert (H1 : stores Sample.world1j !! Sample.s1 = Some Sample.st1j)
    by (vm_compute; reflexivity).
  assert (H2 : MkdirAll_result Sample.env_nodir (path Sample.st1j)
               = Some "permission denied") by reflexivity.
  split; [exact H1|]. split; [exact H2|].
  destruct (open_mkdir_failure Sample.env_nodir Sample.s1 Sample.st1j
              "10.0.0.2:8091" Sample.ln_late Sample.world1j 3
              "10.0.0.2:8088" ["10.0.0.1:8088"; "10.0.0.2:8088"])
    with (msg := "permission denied")
    as (w' & Hrun & Hst & _ & Htr).
  - exact H1.
  - reflexivity.
  - reflexivity.
  - lia.
  - intros j Hj. destruct j as [|[|[|j]]]; [reflexivity..|lia].
  - reflexivity.
  - reflexivity.
  - exact H2.
  - exists w'. split; [exact Hrun|]. split.
    + rewrite Hst. apply lookup_insert_eq.
    + rewrite Htr. reflexivity.
Defined.

Lemma open_raft_failure_witness :
  stores Sample.world1 !! Sample.s1 = Some Sample.st1 /\
  raft_open_result Sample.env_noraft []
  = Some "bind: address already in use" /\
  exists w',
    open Sample.env_noraft Sample.s1 "10.0.0.2:8091" Sample.ln_bound
      Sample.world1
    = (Ret (Some (errorString "raft: bind: address already in use")), w') /\
    stores w' !! Sample.s1 = Some (set_opened true Sample.st1) /\
    trace w'
    = [EvAddr 0 (Some "10.0.0.2:8088");
       EvLock; EvMkdirAll "/var/lib/influxdb/meta"; EvRaftOpen []; EvUnlock].
Proof.
  assert (H1 : stores Sample.world1 !! Sample.s1 = Some Sample.st1)
    by (vm_compute; reflexivity).
  assert (H2 : raft_open_result Sample.env_noraft []
               = Some "bind: address already in use") by reflexivity.
  split; [exact H1|]. split; [exact H2|].
  destruct (open_raft_failure Sample.env_noraft Sample.s1 Sample.st1
              "10.0.0.2:8091" Sample.ln_bound Sample.world1 0
              "10.0.0.2:8088" [])
    with (msg := "bind: address already in use")
    as (w' & Hrun & Hst & _ & Htr).
  - exact H1.
  - reflexivity.
  - reflexivity.
  - lia.
  - intros j Hj. lia.
  - reflexivity.
  - reflexivity.
  - reflexivity.
  - exact H2.
  - exists w'. split; [exact Hrun|]. split.
    + rewrite Hst. apply lookup_insert_eq.
    + rewrite Htr. reflexivity.
Defined.

Lemma open_waits_for_leader_witness :
  stores Sample.world1s !! Sample.s1 = Some Sample.st1 /\
  (exists w',
     open Sample.env Sample.s1 "10.0.0.2:8091" Sample.ln_bound Sample.world1s
     = (Ret None, w') /\
     stores w' !! Sample.s1 = Some Sample.st2) /\
  (exists w',
     open Sample.env Sample.s1 "10.0.0.2:8091" Sample.ln_bound
       (set_sched [WTicker Sample.view0; WClosing; WTicker Sample.view1]
          Sample.world1)
     = (Ret (Some (errorString "closing")), w') /\
     stores w' !! Sample.s1 = Some Sample.st2) /\
  (exists w',
     open Sample.env Sample.s1 "10.0.0.2:8091" Sample.ln_bound
       (set_sched [WTicker Sample.view0] Sample.world1)
     = (Blocked, w') /\
     stores w' !! Sample.s1 = Some Sample.st2) /\
  (exists w',
     open Sample.env Sample.s1 "10.0.0.2:8091" Sample.ln_bound
       (set_sched [WTicker Sample.view0] (snd (close Sample.s1 Sample.world1)))
     = (Ret (Some (errorString "closing")), w') /\
     stores w' !! Sample.s1 = Some Sample.st2).
Proof.
  assert (H1 : stores Sample.world1s !! Sample.s1 = Some Sample.st1)
    by (vm_compute; reflexivity).
  assert (Hrun : forall w,
            stores w !! Sample.s1 = Some Sample.st1 ->
            signaled w (closing Sample.st1) = false \/
            forallb (quiet 0 Sample.st2) (sched w) = true ->
            exists w',
              open Sample.env Sample.s1 "10.0.0.2:8091" Sample.ln_bound w
              = (wait_result Sample.st2
                   (signaled w (closing Sample.st1)) (sched w), w') /\
              stores w' !! Sample.s1 = Some Sample.st2).
  { intros w Hw Hcase.
    destruct (open_waits_for_leader Sample.env Sample.s1 Sample.st1
                "10.0.0.2:8091" Sample.ln_bound w 0 "10.0.0.2:8088" [])
      as (r & w' & Hopen & Hst & Hres).
    - exact Hw.
    - reflexivity.
    - reflexivity.
    - lia.
    - intros j Hj. lia.
    - reflexivity.
    - reflexivity.
    - reflexivity.
    - reflexivity.
    - exists w'. rewrite (Hres Hcase) in Hopen.
      split; [exact Hopen|]. rewrite Hst. apply lookup_insert_eq. }
  split; [exact H1|]. split; [|split; [|split]].
  - apply (Hrun Sample.world1s); [exact H1|left; reflexivity].
  - apply (Hrun (set_sched [WTicker Sample.view0; WClosing;
                            WTicker Sample.view1] Sample.world1));
      [exact H1|left; reflexivity].
  - apply (Hrun (set_sched [WTicker Sample.view0] Sample.world1));
      [exact H1|left; reflexivity].
  - apply (Hrun (set_sched [WTicker Sample.view0]
                   (snd (close Sample.s1 Sample.world1))));
      [vm_compute; reflexivity|right; reflexivity].
Defined.

Lemma open_join_failure_witness :
  stores Sample.world1j !! Sample.s1 = Some Sample.st1j /\
  JoinPeers (config Sample.st1j) <> [] /\
  exists w',
    open Sample.env_taken Sample.s1 "10.0.0.2:8091" Sample.ln_bound
      Sample.world1j
    = (Ret (Some (errorString "node exists")), w') /\
    stores w' !! Sample.s1 = Some Sample.st1j /\
    trace w'
    = [EvLog "[metastore] Using data dir: /var/lib/influxdb/meta";
       EvAddr 0 (Some "10.0.0.2:8088");
       EvAddr 0 (Some "10.0.0.2:8088");
       EvCreateMetaNode ["10.0.0.1:8091"] false "10.0.0.2:8091"
         "10.0.0.2:8088"].
Proof.
  assert (H1 : stores Sample.world1j !! Sample.s1 = Some Sample.st1j)
    by (vm_compute; reflexivity).
  assert (H2 : JoinPeers (config Sample.st1j) <> []) by discriminate.
  split; [exact H1|]. split; [exact H2|].
  destruct (open_join_failure Sample.env_taken Sample.s1 Sample.st1j
              "10.0.0.2:8091" Sample.ln_bound Sample.world1j 0
              "10.0.0.2:8088" (errorString "node exists"))
    as (w' & Hrun & Hst & _ & Htr).
  - exact H1.
  - lia.
  - intros j Hj. lia.
  - reflexivity.
  - exact H2.
  - reflexivity.
  - exists w'. split; [exact Hrun|]. split.
    + rewrite Hst. exact H1.
    + rewrite Htr. reflexivity.
Defined.

Lemma open_without_seed_peers_witness :
  stores Sample.world1s !! Sample.s1 = Some Sample.st1 /\
  mu_free (mu Sample.st1) = true /\
  JoinPeers (config Sample.st1) = [] /\
  exists evs,
    trace (snd (open Sample.env Sample.s1 "10.0.0.2:8091" Sample.ln_late
                  Sample.world1s))
    = trace Sample.world1s ++ evs /\
    forallb seedless evs = true /\
    In (EvRaftOpen []) evs.
Proof.
  assert (H1 : stores Sample.world1s !! Sample.s1 = Some Sample.st1)
    by (vm_compute; reflexivity).
  split; [exact H1|]. split; [reflexivity|]. split; [reflexivity|].
  destruct (open_without_seed_peers Sample.env Sample.s1 Sample.st1
              "10.0.0.2:8091" Sample.ln_late Sample.world1s H1 eq_refl eq_refl)
    as (evs & Htr & Hall).
  exists evs. split; [exact Htr|]. split; [exact Hall|].
  change (trace Sample.world1s ++ evs) with evs in Htr.
  rewrite <- Htr. vm_compute.
  repeat first [left; reflexivity | right].
Defined.

End OpenSamples.

(** * The retention policy update *)

Section PolicyUpdate.

Import Meta.

(** X17.  The three setters of [RetentionPolicyUpdate] are independent:
    each assigns its own field and leaves the other two as they were (a
    field never set stays nil), so calls of different setters commute,
    and of two calls of the same setter the later value stands. *)
Theorem setters_independent (n n' : string) (d d' r r' : Z)
    (rpu : RetentionPolicyUpdate) :
  SetName n (SetDuration d rpu) = SetDuration d (SetName n rpu) /\
  SetName n (SetReplicaN r rpu) = SetReplicaN r (SetName n rpu) /\
  SetDuration d (SetReplicaN r rpu) = SetReplicaN r (SetDuration d rpu) /\
  SetName n' (SetName n rpu) = SetName n' rpu /\
  SetDuration d' (SetDuration d rpu) = SetDuration d' rpu /\
  SetReplicaN r' (SetReplicaN r rpu) = SetReplicaN r' rpu /\
  Name (SetDuration d (SetReplicaN r rpu)) = Name rpu /\
  Duration (SetName n (SetReplicaN r rpu)) = Duration rpu /\
  ReplicaN (SetName n (SetDuration d rpu)) = ReplicaN rpu /\
  SetName n (SetDuration d (SetReplicaN r rpu))
  = {| Name := Some n; Duration := Some d; ReplicaN := Some r |}.
Proof. repeat split. Qed.

End PolicyUpdate.
